(** * NexaFullNodeDataRetrieval: a shallow embedding of the fetch, persistence
    and aggregation scripts

    The development follows the sources:
    - [fetch_data_blocks_transactions.py]: [NexaCLI.run_command],
      [get_latest_block_height], [get_block_data], [get_transaction_data],
      [get_latest_n_blocks], [get_all_transactions], [save_block_data],
      [save_transaction_data];
    - [process_data.py]: [read_json_file], [process_block_data],
      [process_transaction_data], [calculate_hourly_volume_and_fees],
      [calculate_transactions_per_hour], [calculate_hourly_closing_difficulty],
      and [plot_time_series] as the data of the panels it draws;
    - the two files run as scripts: [fetch_main] and [process_main];
    - [connection_test.py]: [run_shell_command]; the three lines that call
      it on a fixed command are not modelled.

    Python values are modelled as follows.  A [str] is a list of Unicode code
    points.  A function that prints and may raise is a computation in [io]: it
    yields the events it emitted, in order, and either a value or the
    exception that escaped.  Python's [None] is [None] of an [option] where a
    function returns "a string or None", and [JNull] where it returns parsed
    JSON.  What the scripts take from outside the repository (the node's
    command-line client, the JSON parser, the completion order of the worker
    pool, the Unicode tables behind [str.isdigit] and [int]) is a field of
    the record [env]; what pandas does with numbers (coercion, addition, the
    sort) is a variable of the sections on aggregation.  The theorems on the
    hourly sums are about 64-bit floats, the numbers of a pandas column that
    holds a missing value, with the addition of the Standard Library's
    [SpecFloat].

    The file has the definitions first (the embedding, the instances it is
    run on, the properties worded from the specification), then the facts. *)

From Stdlib Require Import ZArith List Lia Permutation Sorted Ascii String.
From stdpp Require Import base tactics option list strings gmap pretty sorting.
From Stdlib Require Import SpecFloat.

Set Warnings "-register-all".
Local Open Scope Z_scope.

(** ** Python strings *)

(** A Python [str]: the sequence of its code points. *)
Definition str : Type := list N.

(** A string literal of the source, as a [str]. *)
Definition lit (s : string) : str :=
  map N_of_ascii (list_ascii_of_string s).

(** [str(i)] and the [{i}] of an f-string, for an [int]. *)
Definition str_of_Z (z : Z) : str := lit (pretty z).

(** [c.isspace()] for one code point: the 29 whitespace code points of
    CPython's Unicode database. *)
Definition isspace (c : N) : bool :=
  ((9 <=? c) && (c <=? 13) || (28 <=? c) && (c <=? 32)
   || (c =? 133) || (c =? 160) || (c =? 5760)
   || (8192 <=? c) && (c <=? 8202)
   || (c =? 8232) || (c =? 8233) || (c =? 8239) || (c =? 8287)
   || (c =? 12288))%N.

Fixpoint lstrip (s : str) : str :=
  match s with
  | c :: s' => if isspace c then lstrip s' else s
  | [] => []
  end.

Definition rstrip (s : str) : str := rev (lstrip (rev s)).

(** [s.strip()] *)
Definition strip (s : str) : str := rstrip (lstrip s).

(** Truth value of a [str]: non-empty. *)
Definition str_truthy (s : str) : bool :=
  match s with [] => false | _ :: _ => true end.

Fixpoint startswith (p s : str) : bool :=
  match p, s with
  | [], _ => true
  | _ :: _, [] => false
  | a :: p', b :: s' => (a =? b)%N && startswith p' s'
  end.

(** [sub in s] for two strings: [sub] occurs in [s] as a contiguous block. *)
Fixpoint contains (sub s : str) : bool :=
  startswith sub s ||
  match s with
  | [] => false
  | _ :: s' => contains sub s'
  end.

(** ** Exceptions, events and the [io] computation type *)

Inductive exn : Type :=
  | AttributeError
  | TypeError
  | IndexError
  | ValueError
  | JSONDecodeError
  | OtherError (name : str).

Inductive result (A : Type) : Type :=
  | Ok (a : A)
  | Raise (e : exn).
Arguments Ok {A} a.
Arguments Raise {A} e.

(** ** JSON values, as [json.loads] builds them *)

(** A finite Python [float], written as the decimal literal that [repr]
    prints for it and [json.dump] writes: [Dec m k] is [m / 10^k]. *)
Record pyfloat : Type := Dec { mantissa : Z; places : nat }.

(** A parsed JSON value.  An object is the [dict] built from it: its pairs
    in insertion order, each key once. *)
Inductive json : Type :=
  | JNull
  | JBool (b : bool)
  | JInt (z : Z)
  | JFloat (f : pyfloat)
  | JStr (s : str)
  | JArr (l : list json)
  | JObj (kv : list (str * json)).

(** Truth value of a parsed JSON value ([if tx_data:]). *)
Definition truthy (v : json) : bool :=
  match v with
  | JNull => false
  | JBool b => b
  | JInt z => negb (z =? 0)
  | JFloat f => negb (mantissa f =? 0)
  | JStr s => str_truthy s
  | JArr l => match l with [] => false | _ => true end
  | JObj kv => match kv with [] => false | _ => true end
  end.

Definition str_eqb (a b : str) : bool := bool_decide (a = b).

(** [d.get(key)] on the key-value pairs of a [dict]. *)
Fixpoint assoc {V : Type} (key : str) (kv : list (str * V)) : option V :=
  match kv with
  | [] => None
  | (k, v) :: kv' => if str_eqb k key then Some v else assoc key kv'
  end.

(** What one line of output says.  Each constructor is one [print] of the
    source, with the values it interpolates; the percentage of the progress
    lines is left out. *)
Inductive message : Type :=
  | MsgError (stderr : str)
  | MsgException (e : exn)
  | MsgFailedBlockCount (output : str)
  | MsgFailedBlockHash (block_height : Z)
  | MsgBlockDecodeError (block_height : Z)
  | MsgTxNotIndexed (txid : json)
  | MsgTxNoOutput (txid : json)
  | MsgTxDecodeError (txid : json)
  | MsgCommandOutput (output : str)
  | MsgWarningAdjust (requested available : Z)
  | MsgStartBlocks (num_processes : option Z)
  | MsgStartTransactions (num_processes : option Z)
  | MsgRetrievedBlock (block_height : Z) (count total : Z)
  | MsgProcessedTransaction (count total : Z)
  | MsgSaved (file : string)
  | MsgReadOk (file : string)
  | MsgReadError (file : string).

(** A unit of work handed to the process pool. *)
Inductive job : Type :=
  | FetchBlock (block_height : Z)
  | FetchTransaction (txid : json).

Inductive event : Type :=
  | Printed (m : message)
  | Submitted (j : job).

(** A computation that emits events and ends with a value or an exception. *)
Definition io (A : Type) : Type := list event * result A.

Global Instance io_ret : MRet io := fun A a => ([], Ok a).

Global Instance io_bind : MBind io := fun A B f m =>
  match m with
  | (l, Ok a) => let '(l', r) := f a in (l ++ l', r)
  | (l, Raise e) => (l, Raise e)
  end.

Definition print (m : message) : io unit := ([Printed m], Ok tt).
Definition raise {A : Type} (e : exn) : io A := ([], Raise e).
Definition emit (e : event) : io unit := ([e], Ok tt).

Definition events {A : Type} (m : io A) : list event := fst m.
Definition outcome {A : Type} (m : io A) : result A := snd m.

(** The jobs submitted to the pool, in submission order. *)
Definition submitted (l : list event) : list job :=
  omap (fun e => match e with Submitted j => Some j | _ => None end) l.

(** A pure step that may raise, as a computation. *)
Definition lift {A : Type} (r : result A) : io A := ([], r).

(** ** The command executor: [NexaCLI] *)

Record NexaCLI : Type := {
  cli_path : str;
  rpc_user : str;
  rpc_password : str
}.

(** [NexaCLI.__init__]: the path is kept between double quotes (code point
    34). *)
Definition NexaCLI_init (path user password : str) : NexaCLI :=
  {| cli_path := [34%N] ++ path ++ [34%N];
     rpc_user := user;
     rpc_password := password |}.

(** What [subprocess.run(..., stdout=PIPE, stderr=PIPE, text=True)] gives:
    the two captured streams of the finished process, or an exception. *)
Inductive proc : Type :=
  | Completed (stdout stderr : str)
  | Failed (e : exn).

(** ** Dictionaries keyed by block height *)

(** [blocks_dict]: a [dict], in insertion order. *)
Definition dict : Type := list (Z * json).

(** [d[k] = v]: the value of an existing key is replaced where it stands, a
    new key goes last. *)
Fixpoint dict_set (d : dict) (k : Z) (v : json) : dict :=
  match d with
  | [] => [(k, v)]
  | (k', v') :: d' =>
      if k' =? k then (k, v) :: d' else (k', v') :: dict_set d' k v
  end.

(** [d.update(other)] *)
Definition dict_update (d other : dict) : dict :=
  fold_left (fun acc kv => dict_set acc kv.1 kv.2) other d.

Definition keys (d : dict) : list Z := map fst d.
Definition values (d : dict) : list json := map snd d.

(** [list(d.keys())[0]] *)
Definition first_key (d : dict) : io Z :=
  match keys d with
  | [] => raise IndexError
  | k :: _ => mret k
  end.

(** [range(n)] *)
Definition range (n : Z) : list Z := seqZ 0 n.

(** ** What the scripts take from outside the repository *)

Record env : Type := {
  (** [chr(c).isdigit()] for a code point outside ASCII. *)
  uni_isdigit : N -> bool;
  (** The digit value [int] gives a decimal digit outside ASCII; [None] for a
      code point [int] rejects (superscript two is a digit to [isdigit] and
      a [ValueError] to [int]). *)
  uni_decimal : N -> option N;
  (** [sys.get_int_max_str_digits()], where the interpreter has the limit. *)
  int_max_str_digits : option nat;
  (** [json.loads] on a [str]: the parsed value or the exception raised. *)
  json_loads : str -> result json;
  (** [str(v)] for a [float], a [list] or a [dict]. *)
  str_other : json -> str;
  (** The node's command-line client: what running a shell command gives. *)
  node : str -> proc;
  (** Whether [ProcessPoolExecutor(max_workers=k)] accepts [k] (it raises
      [ValueError] for [k <= 0], and above a platform limit). *)
  pool_accepts : option Z -> bool;
  (** [as_completed]: the futures in the order in which they finish. *)
  as_completed : forall A : Type, list A -> list A
}.

Section Fetch.

Variable E : env.

Definition isdigit_cp (c : N) : bool :=
  if (c <? 128)%N then (48 <=? c)%N && (c <=? 57)%N else uni_isdigit E c.

(** [s.isdigit()]: non-empty and every character is a digit. *)
Definition isdigit (s : str) : bool := str_truthy s && forallb isdigit_cp s.

Definition decimal_cp (c : N) : option N :=
  if (c <? 128)%N
  then (if (48 <=? c)%N && (c <=? 57)%N then Some (c - 48)%N else None)
  else uni_decimal E c.

Fixpoint int_digits (acc : Z) (s : str) : option Z :=
  match s with
  | [] => Some acc
  | c :: s' =>
      match decimal_cp c with
      | Some d => int_digits (10 * acc + Z.of_N d) s'
      | None => None
      end
  end.

(** [int(s)] for a string made of digits, the only kind that reaches it
    behind the [isdigit] test (no sign, blank or underscore to handle). *)
Definition py_int (s : str) : io Z :=
  if match int_max_str_digits E with
     | Some m => (m <? length s)%nat
     | None => false
     end
  then raise ValueError
  else match s with
       | [] => raise ValueError
       | _ :: _ =>
           match int_digits 0 s with
           | Some z => mret z
           | None => raise ValueError
           end
       end.

(** The [{txid}] of an f-string. *)
Definition format_value (v : json) : str :=
  match v with
  | JStr s => s
  | JInt z => str_of_Z z
  | JNull => lit "None"
  | JBool true => lit "True"
  | JBool false => lit "False"
  | _ => str_other E v
  end.

(** *** [NexaCLI.run_command] *)

Definition full_command (cli : NexaCLI) (command : str) : str :=
  cli_path cli ++ lit " -rpcuser=" ++ rpc_user cli
    ++ lit " -rpcpassword=" ++ rpc_password cli ++ lit " " ++ command.

(** The function ends without a [return] when both streams are empty: the
    caller then receives [None]. *)
Definition run_command (cli : NexaCLI) (command : str) : io (option str) :=
  match node E (full_command cli command) with
  | Completed stdout stderr =>
      if str_truthy stdout then mret (Some (strip stdout))
      else if str_truthy stderr then
        print (MsgError (strip stderr));; mret (Some [])
      else mret None
  | Failed e =>
      print (MsgException e);; mret (Some [])
  end.

(** *** [get_latest_block_height] *)

Definition get_latest_block_height (cli : NexaCLI) : io (option Z) :=
  output ← run_command cli (lit "getblockcount");
  match output with
  | None => raise AttributeError
  | Some output =>
      if isdigit output then
        z ← py_int (strip output); mret (Some z)
      else
        print (MsgFailedBlockCount output);; mret None
  end.

(** *** [get_block_data] *)

Definition get_block_data (cli : NexaCLI) (block_height : Z) : io dict :=
  r ← run_command cli (lit "getblockhash " ++ str_of_Z block_height);
  match r with
  | None => raise AttributeError
  | Some s =>
      let block_hash := strip s in
      if negb (str_truthy block_hash) then
        print (MsgFailedBlockHash block_height);; mret []
      else
        block_data_output ←
          run_command cli (lit "getblock " ++ block_hash ++ lit " 1");
        match block_data_output with
        | None => raise TypeError
        | Some out =>
            match json_loads E out with
            | Ok block_data => mret [(block_height, block_data)]
            | Raise JSONDecodeError =>
                print (MsgBlockDecodeError block_height);;
                print (MsgCommandOutput out);;
                mret []
            | Raise e => raise e
            end
        end
  end.

(** *** [get_transaction_data] *)

Definition get_transaction_data (cli : NexaCLI) (txid : json) : io json :=
  r ← run_command cli (lit "getrawtransaction " ++ format_value txid ++ lit " 1");
  match r with
  | None => raise TypeError
  | Some output =>
      if contains (lit "error code: -5") output then
        print (MsgTxNotIndexed txid);; mret JNull
      else if negb (str_truthy output) then
        print (MsgTxNoOutput txid);; mret JNull
      else
        match json_loads E output with
        | Ok transaction_data => mret transaction_data
        | Raise JSONDecodeError =>
            print (MsgTxDecodeError txid);;
            print (MsgCommandOutput output);;
            mret JNull
        | Raise e => raise e
        end
  end.

(** *** The process pool *)

(** A future holds what the job returned, or the exception it raised. *)
Definition future (A : Type) : Type := result A.

(** [future.result()] returns the value or raises the job's exception. *)
Definition future_result {A : Type} (f : future A) : io A := lift f.

(** [executor.submit(work)]: the job is handed to a worker, which runs it to
    its end; what the worker prints is put right after the submission (the
    interleaving of the workers' output is not modelled). *)
Definition executor_submit {A : Type} (j : job) (work : io A)
  : io (future A) :=
  emit (Submitted j);; (events work, Ok (outcome work)).

(** The dict comprehension that submits one job per element. *)
Fixpoint submit_all {A B : Type} (f : A -> io (future B)) (l : list A)
  : io (list (future B)) :=
  match l with
  | [] => mret []
  | x :: l' =>
      fut ← f x;
      rest ← submit_all f l';
      mret (fut :: rest)
  end.

(** [with ProcessPoolExecutor(max_workers=num_processes) as executor] *)
Definition open_pool (num_processes : option Z) : io unit :=
  if pool_accepts E num_processes then mret tt else raise ValueError.

(** *** [get_latest_n_blocks] *)

(** The loop over [enumerate(as_completed(futures))]; [i] is the index of
    the head of [completed], [total] is [len(block_heights)]. *)
Fixpoint blocks_loop (total i : Z) (completed : list (future dict))
    (blocks_dict : dict) : io dict :=
  match completed with
  | [] => mret blocks_dict
  | fut :: rest =>
      block_data ← future_result fut;
      let blocks_dict := dict_update blocks_dict block_data in
      (if ((i + 1) mod 10 =? 0) || (i + 1 =? total) then
         k ← first_key block_data;
         print (MsgRetrievedBlock k (i + 1) total)
       else mret tt);;
      blocks_loop total (i + 1) rest blocks_dict
  end.

Definition get_latest_n_blocks (cli : NexaCLI) (n : Z)
    (num_processes : option Z) : io dict :=
  latest ← get_latest_block_height cli;
  match latest with
  | None => mret []
  | Some latest_block_height =>
      n ← (if n >? latest_block_height + 1 then
             print (MsgWarningAdjust n (latest_block_height + 1));;
             mret (latest_block_height + 1)
           else mret n);
      let block_heights :=
        map (fun i => latest_block_height - i) (range n) in
      print (MsgStartBlocks num_processes);;
      open_pool num_processes;;
      futures ← submit_all
        (fun h => executor_submit (FetchBlock h) (get_block_data cli h))
        block_heights;
      blocks_loop (Z.of_nat (length block_heights)) 0
        (as_completed E _ futures) []
  end.

(** *** [get_all_transactions] *)

(** [for txid in v]: a list gives its elements, a string its characters, a
    dict its keys; the other values are not iterable. *)
Definition iterate (v : json) : result (list json) :=
  match v with
  | JArr l => Ok l
  | JStr s => Ok (map (fun c => JStr [c]) s)
  | JObj kv => Ok (map (fun p => JStr p.1) kv)
  | _ => Raise TypeError
  end.

(** [block_data.get('txid', [])], iterated; only a dict has [get]. *)
Definition block_txids (block_data : json) : result (list json) :=
  match block_data with
  | JObj kv =>
      match assoc (lit "txid") kv with
      | Some v => iterate v
      | None => Ok []
      end
  | _ => Raise AttributeError
  end.

(** The comprehension over [blocks_dict.values()]. *)
Fixpoint all_txids (blocks : list json) : result (list json) :=
  match blocks with
  | [] => Ok []
  | block_data :: rest =>
      match block_txids block_data with
      | Ok ids =>
          match all_txids rest with
          | Ok ids' => Ok (ids ++ ids')
          | Raise e => Raise e
          end
      | Raise e => Raise e
      end
  end.

Fixpoint transactions_loop (total i : Z) (completed : list (future json))
    (transactions_data : list json) : io (list json) :=
  match completed with
  | [] => mret transactions_data
  | fut :: rest =>
      tx_data ← future_result fut;
      let transactions_data :=
        if truthy tx_data then transactions_data ++ [tx_data]
        else transactions_data in
      (if i mod 10 =? 0 then
         print (MsgProcessedTransaction (i + 1) total)
       else mret tt);;
      transactions_loop total (i + 1) rest transactions_data
  end.

Definition get_all_transactions (cli : NexaCLI) (blocks_dict : dict)
    (num_processes : option Z) : io (list json) :=
  txids ← lift (all_txids (values blocks_dict));
  print (MsgStartTransactions num_processes);;
  open_pool num_processes;;
  futures ← submit_all
    (fun txid =>
       executor_submit (FetchTransaction txid) (get_transaction_data cli txid))
    txids;
  transactions_loop (Z.of_nat (length txids)) 0 (as_completed E _ futures) [].

End Fetch.

(** ** [process_data.py]: frames indexed by time *)

(** A [DataFrame] with a [DatetimeIndex]: the rows in order, each with its
    index entry.  A timestamp is written as its number of seconds since the
    epoch ([pd.to_datetime(..., unit='s')] reads exactly that; the bounds of
    pandas' nanosecond timestamps are not modelled). *)
Abbreviation frame R := (list (Z * R)) (only parsing).

(** The hour a timestamp falls in, counted from the epoch; [resample('H')]
    labels the hour's bin with its start, [3600 * hour_of t]. *)
Definition hour_of (t : Z) : Z := t / 3600.

(** [df.resample('H')]: one bin per hour from the hour of the earliest index
    entry to the hour of the latest, empty hours included; a bin holds, in
    frame order, the rows whose timestamp falls in its hour. *)
Definition resample_H {R : Type} (df : frame R) : list (Z * list R) :=
  match df with
  | [] => []
  | (t0, _) :: df' =>
      let first := hour_of (fold_right Z.min t0 (map fst df')) in
      let last := hour_of (fold_right Z.max t0 (map fst df')) in
      map (fun h =>
             (3600 * h, map snd (filter (fun p => hour_of p.1 =? h) df)))
          (seqZ first (last - first + 1))
  end.

Section Process.

(** A cell of a frame, and the numbers a numeric column holds. *)
Context {cell num : Type}.
(** [pd.to_numeric(..., errors='coerce')] on one cell: its number, or [None]
    for the missing value a non-numeric cell becomes. *)
Variable to_numeric : cell -> option num.
(** Addition of the numeric column and the sum of no value: for a column of
    64-bit floats, [f64_add] and [f64_zero] below. *)
Variable add : num -> num -> num.
Variable zero : num.
(** [pd.isna] on one cell. *)
Variable isna : cell -> bool.
(** [sort_index(ascending=True)]: the sort is not a stable one, so that only
    what every ascending sort does is assumed of it. *)
Variable sort_index : forall R : Type, frame R -> frame R.

(** One record of [nexa_last_blocks.json], with the columns
    [process_block_data] keeps.  A record is taken to have each of them and
    a whole number of seconds as its ['time']; the [KeyError] of a data set
    that lacks a column is not modelled. *)
Record block_record : Type := {
  b_height : cell;
  b_size : cell;
  b_txcount : cell;
  b_time : Z;
  b_mediantime : cell;
  b_difficulty : cell
}.

(** A row of [df_filtered_blocks]: the kept columns without ['time'], which
    has become the index. *)
Record block_row : Type := {
  height : cell;
  block_size : cell;
  txcount : cell;
  mediantime : cell;
  difficulty : cell
}.

(** One record of [nexa_transactions.json], with the columns
    [process_transaction_data] keeps. *)
Record transaction_record : Type := {
  t_size : cell;
  t_locktime : cell;
  t_spends : cell;
  t_sends : cell;
  t_fee : cell;
  t_blockindex : cell;
  t_blocktime : cell;
  t_time : Z;
  t_confirmations : cell
}.

(** A row of [df_filtered_transactions]. *)
Record transaction_row : Type := {
  tx_size : cell;
  locktime : cell;
  spends : cell;
  sends : cell;
  fee : cell;
  blockindex : cell;
  blocktime : cell;
  confirmations : cell
}.

Definition block_indexed (r : block_record) : Z * block_row :=
  (b_time r,
   {| height := b_height r; block_size := b_size r; txcount := b_txcount r;
      mediantime := b_mediantime r; difficulty := b_difficulty r |}).

Definition transaction_indexed (r : transaction_record)
  : Z * transaction_row :=
  (t_time r,
   {| tx_size := t_size r; locktime := t_locktime r; spends := t_spends r;
      sends := t_sends r; fee := t_fee r; blockindex := t_blockindex r;
      blocktime := t_blocktime r; confirmations := t_confirmations r |}).

(** [process_block_data]: keep the columns, index by time, sort ascending. *)
Definition process_block_data (block_data : list block_record)
  : frame block_row :=
  sort_index _ (map block_indexed block_data).

(** [process_transaction_data] *)
Definition process_transaction_data
    (transaction_data : list transaction_record) : frame transaction_row :=
  sort_index _ (map transaction_indexed transaction_data).

(** The ['sum'] reducer over a coerced column: missing values are skipped,
    and the sum of nothing is [zero]. *)
Definition nansum (column : list (option num)) : num :=
  fold_left (fun acc x => match x with Some v => add acc v | None => acc end)
            column zero.

(** The [last] reducer: the last value of the bin that is not missing, and
    the missing value ([None]) when there is none. *)
Definition last_valid (column : list cell) : option cell :=
  fold_left (fun acc x => if isna x then acc else Some x) column None.

(** [calculate_hourly_volume_and_fees]: per hour, ([hourly_volume],
    [hourly_fees]).  The source also writes the coerced columns back into its
    argument; no other function reads them as numbers. *)
Definition calculate_hourly_volume_and_fees
    (df_filtered_transactions : frame transaction_row)
  : list (Z * (num * num)) :=
  map (fun bin =>
         (bin.1,
          (nansum (map (fun r => to_numeric (sends r)) bin.2),
           nansum (map (fun r => to_numeric (fee r)) bin.2))))
      (resample_H df_filtered_transactions).

(** [calculate_transactions_per_hour]: per hour, [transactions_per_hour]. *)
Definition calculate_transactions_per_hour
    (df_filtered_transactions : frame transaction_row) : list (Z * nat) :=
  map (fun bin => (bin.1, length bin.2)) (resample_H df_filtered_transactions).

(** [calculate_hourly_closing_difficulty]: per hour, [closing_difficulty]. *)
Definition calculate_hourly_closing_difficulty
    (df_filtered_blocks : frame block_row) : list (Z * option cell) :=
  map (fun bin => (bin.1, last_valid (map difficulty bin.2)))
      (resample_H df_filtered_blocks).

(** The sum of a list of numbers, from the claim's words. *)
Definition total (values : list num) : num := fold_right add zero values.

(** The value of a cell as a reducer reports it: [None] when missing. *)
Definition cell_value (c : cell) : option cell :=
  if isna c then None else Some c.

(** The closing-difficulty claim as the specification words it: every bin's
    value is the difficulty of the block of that hour that comes last in
    time. *)
Definition closing_is_difficulty_of_last_block
    (block_data : list block_record) : Prop :=
  forall label v r,
    (label, v) ∈ calculate_hourly_closing_difficulty
                   (process_block_data block_data) ->
    r ∈ block_data ->
    label <= b_time r < label + 3600 ->
    (forall r', r' ∈ block_data -> label <= b_time r' < label + 3600 ->
                r' = r \/ b_time r' < b_time r) ->
    v = cell_value (b_difficulty r).

End Process.

(** ** Persistence: [save_block_data], [save_transaction_data],
    [read_json_file] *)

(** What a file holds: a JSON document, or text [json.load] rejects.  The text
    of a document is not modelled: [json.load] returns the value [json.dump]
    was given. *)
Inductive file : Type :=
  | Document (v : json)
  | Unreadable.

(** The block table [df_blocks]: its column labels and, row by row, one cell
    per column; a missing cell is [JNull]. *)
Record DataFrame : Type := {
  df_columns : list str;
  df_rows : list (list json)
}.


Definition pow10 (k : nat) : Z := 10 ^ Z.of_nat k.

(** The decimal [m / 10^k] without trailing zeros in its fraction. *)
Fixpoint normalise (m : Z) (k : nat) : pyfloat :=
  match k with
  | O => Dec m 0
  | S k' => if m mod 10 =? 0 then normalise (m / 10) k' else Dec m k
  end.

Fixpoint digits_upto (fuel : nat) (a : Z) : nat :=
  match fuel with
  | O => 0
  | S fuel' => if a <? 10 then 1 else S (digits_upto fuel' (a / 10))
  end.

(** The number of decimal digits of a positive integer. *)
Definition num_digits (a : Z) : nat := digits_upto (S (Z.to_nat (Z.log2 a))) a.

Definition round_half_even (a q : Z) : Z :=
  let d := a / q in
  let r := a mod q in
  if (2 * r >? q) || ((2 * r =? q) && Z.odd d) then d + 1 else d.

(** The float that reading back gives after [to_json] has written [f] with
    its default [double_precision=10]: between 1e-15 and 1e16 - 1 in
    magnitude the encoder keeps ten decimal places, outside it formats with
    ten significant digits.  At an exact decimal tie the last digit follows
    the encoder's rule on the decimal, where the binary value of the double
    decides in the C code. *)
Definition encode_double (f : pyfloat) : pyfloat :=
  let m := mantissa f in
  let k := places f in
  let a := Z.abs m in
  if (a =? 0) || ((pow10 k <=? a * pow10 15) && (a <=? (pow10 16 - 1) * pow10 k))
  then
    if (k <=? 10)%nat then f
    else
      let q := pow10 (k - 10) in
      let d := a / q in
      let r := a mod q in
      let frac := d mod pow10 10 in
      let up := (2 * r >? q) || ((2 * r =? q) && ((frac =? 0) || Z.odd frac)) in
      normalise (Z.sgn m * (if up then d + 1 else d)) 10
  else
    let d := num_digits a in
    if (d <=? 10)%nat then f
    else
      let a' := round_half_even a (pow10 (d - 10)) in
      if (d - 10 <=? k)%nat then normalise (Z.sgn m * a') (k - (d - 10))
      else Dec (Z.sgn m * a' * pow10 (d - 10 - k)) 0.

(** What reading back gives for a cell written by [to_json]: floats go
    through [encode_double], also inside lists and dicts. *)
Fixpoint encode_value (v : json) : json :=
  match v with
  | JFloat f => JFloat (encode_double f)
  | JArr l => JArr (map encode_value l)
  | JObj kv => JObj (map (fun p => (p.1, encode_value p.2)) kv)
  | _ => v
  end.

(** [df.to_json(orient='records')], as the document it writes: an array with
    one object per row.  Column labels that repeat are refused; the
    encoder's refusal of a string that UTF-8 cannot encode is not modelled. *)
Definition to_json_records (df : DataFrame) : result json :=
  if bool_decide (NoDup (df_columns df)) then
    Ok (JArr (map (fun row =>
                     JObj (combine (df_columns df) (map encode_value row)))
                  (df_rows df)))
  else Raise ValueError.

Definition blocks_file : string := "nexa_last_blocks.json".
Definition transactions_file : string := "nexa_transactions.json".

(** [save_block_data]: returns the files after the call. *)
Definition save_block_data (df_blocks : DataFrame) (save_json : bool)
    (files : gmap string file) : io (gmap string file) :=
  if save_json then
    match to_json_records df_blocks with
    | Ok doc =>
        print (MsgSaved blocks_file);;
        mret (<[blocks_file := Document doc]> files)
    | Raise e => raise e
    end
  else mret files.

(** [save_transaction_data]: [json.dump] of the list. *)
Definition save_transaction_data (transactions_data : list json)
    (save_json : bool) (files : gmap string file) : io (gmap string file) :=
  if save_json then
    print (MsgSaved transactions_file);;
    mret (<[transactions_file := Document (JArr transactions_data)]> files)
  else mret files.

(** [read_json_file]: the data of the file, or [None] (here [JNull]) after
    any exception, a missing file included. *)
Definition read_json_file (file_path : string) (files : gmap string file)
  : io json :=
  match files !! file_path with
  | Some (Document data) => print (MsgReadOk file_path);; mret data
  | _ => print (MsgReadError file_path);; mret JNull
  end.






(** ** [connection_test.py]: [run_shell_command] *)

(** A [bytes] object. *)
Definition bytes : Type := list Byte.byte.

(** A continuation byte of UTF-8: 0x80 to 0xBF. *)
Definition continuation (b : N) : bool := (128 <=? b)%N && (b <=? 191)%N.

(** The strict UTF-8 decoder, on the values of the bytes: the code points,
    or [None] where CPython raises [UnicodeDecodeError] (a byte that cannot
    start a sequence, a sequence cut short or continued by a wrong byte, an
    overlong form, a surrogate, a code point above U+10FFFF). *)
Fixpoint utf8_decode (bs : list N) : option str :=
  match bs with
  | [] => Some []
  | b0 :: r0 =>
      if (b0 <? 128)%N then cons b0 <$> utf8_decode r0
      else if (194 <=? b0)%N && (b0 <=? 223)%N then
        match r0 with
        | b1 :: r1 =>
            if continuation b1
            then cons ((b0 - 192) * 64 + (b1 - 128))%N <$> utf8_decode r1
            else None
        | _ => None
        end
      else if (224 <=? b0)%N && (b0 <=? 239)%N then
        match r0 with
        | b1 :: b2 :: r2 =>
            if continuation b1 && continuation b2
               && (negb (b0 =? 224)%N || (160 <=? b1)%N)
               && (negb (b0 =? 237)%N || (b1 <=? 159)%N)
            then cons (((b0 - 224) * 64 + (b1 - 128)) * 64 + (b2 - 128))%N
                   <$> utf8_decode r2
            else None
        | _ => None
        end
      else if (240 <=? b0)%N && (b0 <=? 244)%N then
        match r0 with
        | b1 :: b2 :: b3 :: r3 =>
            if continuation b1 && continuation b2 && continuation b3
               && (negb (b0 =? 240)%N || (144 <=? b1)%N)
               && (negb (b0 =? 244)%N || (b1 <=? 143)%N)
            then cons ((((b0 - 240) * 64 + (b1 - 128)) * 64 + (b2 - 128)) * 64
                       + (b3 - 128))%N
                   <$> utf8_decode r3
            else None
        | _ => None
        end
      else None
  end.

Definition UnicodeDecodeError : exn := OtherError (lit "UnicodeDecodeError").

(** [output.decode("utf-8")] *)
Definition decode_utf8 (output : bytes) : result str :=
  match utf8_decode (map Byte.to_N output) with
  | Some s => Ok s
  | None => Raise UnicodeDecodeError
  end.

Section ConnectionTest.

(** [subprocess.Popen(command, stdout=subprocess.PIPE,
    stderr=subprocess.STDOUT)] followed by [communicate()]: the bytes the
    process wrote to its two streams, which share one pipe, or the exception
    raised when the program cannot be started. *)
Variable popen : list str -> result bytes.

(** The function has no [try]: an exception of [Popen] or of [decode]
    reaches the caller. *)
Definition run_shell_command (command : list str) : result str :=
  match popen command with
  | Ok output =>
      match output with
      | _ :: _ => decode_utf8 output
      | [] => Ok []
      end
  | Raise e => Raise e
  end.

End ConnectionTest.



(** ** The entry points of the two scripts *)

(** A run of a script: from the files it finds, what it shows (in order),
    the files it leaves, and the value or the exception it ends with.  An
    exception leaves the files as they are when it is raised. *)
Definition script (X A : Type) : Type :=
  gmap string file -> list X * gmap string file * result A.

Global Instance script_ret {X : Type} : MRet (script X) :=
  fun A a files => ([], files, Ok a).

Global Instance script_bind {X : Type} : MBind (script X) :=
  fun A B f m files =>
    match m files with
    | (l, files', Ok a) =>
        let '(l', files'', r) := f a files' in (l ++ l', files'', r)
    | (l, files', Raise e) => (l, files', Raise e)
    end.

(** The script shows [x]. *)
Definition show {X : Type} (x : X) : script X unit :=
  fun files => ([x], files, Ok tt).

(** A pure step that may raise. *)
Definition step {X A : Type} (r : result A) : script X A :=
  fun files => ([], files, r).

(** A call of a function that does not touch the files. *)
Definition call {X A : Type} (inj : event -> X) (m : io A) : script X A :=
  fun files => (map inj (events m), files, outcome m).

(** A call of a function that reads the files. *)
Definition reading {X A : Type} (inj : event -> X)
    (f : gmap string file -> io A) : script X A :=
  fun files => (map inj (events (f files)), files, outcome (f files)).

(** A call of a function that writes files. *)
Definition writing {X : Type} (inj : event -> X)
    (f : gmap string file -> io (gmap string file)) : script X unit :=
  fun files =>
    match f files with
    | (l, Ok files') => (map inj l, files', Ok tt)
    | (l, Raise e) => (map inj l, files, Raise e)
    end.

Definition shown {X A : Type} (r : list X * gmap string file * result A)
  : list X := r.1.1.
Definition files_left {X A : Type} (r : list X * gmap string file * result A)
  : gmap string file := r.1.2.
Definition ended {X A : Type} (r : list X * gmap string file * result A)
  : result A := r.2.

(** [NameError]: a name that is read before anything was bound to it. *)
Definition NameError : exn := OtherError (lit "NameError").

(** *** [fetch_data_blocks_transactions.py] run as a script *)

(** What the fetch script does that can be observed: the events of its
    functions, and the block table it prints. *)
Inductive fetch_output : Type :=
  | FetchEvent (e : event)
  | PrintedBlocks (df_blocks : DataFrame).

(** The client the script sets up. *)
Definition main_cli : NexaCLI :=
  NexaCLI_init (lit "C:/Program Files/Nexa/daemon/nexa-cli")
    (lit "myusername") (lit "mypassword").

Section FetchMain.

Variable E : env.
(** [pd.DataFrame.from_dict(blocks_dict, orient='index')]: the table pandas
    builds from the mapping, or the exception it raises. *)
Variable from_dict : dict -> result DataFrame.

Definition fetch_main : script fetch_output unit :=
  let cli := main_cli in
  let n_blocks := 100 in
  let num_processes := Some 8 in
  blocks_dict ←
    call FetchEvent (get_latest_n_blocks E cli n_blocks num_processes);
  df_blocks ← step (from_dict blocks_dict);
  show (PrintedBlocks df_blocks);;
  writing FetchEvent (save_block_data df_blocks true);;
  transactions_dict ←
    call FetchEvent (get_all_transactions E cli blocks_dict num_processes);
  writing FetchEvent (save_transaction_data transactions_dict true).

End FetchMain.

(** *** [process_data.py] run as a script, and [plot_time_series] *)

(** The headings the script prints above its tables. *)
Inductive heading : Type :=
  | HeadingBlocks
  | HeadingClosingDifficulty
  | HeadingTransactions
  | HeadingAggregation
  | HeadingPerHour.

Section ProcessMain.

Context {cell num : Type}.
Variable to_numeric : cell -> option num.
Variable add : num -> num -> num.
Variable zero : num.
Variable isna : cell -> bool.
Variable sort_index : forall R : Type, frame R -> frame R.
(** [pd.DataFrame(block_data)[columns_to_keep_blocks]] with its ['time']
    column parsed, the first steps of [process_block_data] on the data read
    from the file: the records, or the exception pandas raises (a [KeyError]
    for a column that no record has, a [ValueError] for data that is not a
    list of records). *)
Variable block_columns : json -> result (list (@block_record cell)).
(** The same steps of [process_transaction_data]. *)
Variable transaction_columns
  : json -> result (list (@transaction_record cell)).

(** The figure [plot_time_series] draws: three panels over time, the first
    with the two lines of volume and fees, the second with the bars of the
    counts, the third with the line of the closing difficulty.  Only the data
    of the panels are kept. *)
Record figure : Type := {
  volume_line : list (Z * num);
  fees_line : list (Z * num);
  count_bars : list (Z * nat);
  difficulty_line : list (Z * option cell)
}.

Definition plot_time_series
    (df_hourly_aggregation : list (Z * (num * num)))
    (df_transactions_per_hour : list (Z * nat))
    (df_hourly_closing_difficulty : list (Z * option cell)) : figure :=
  {| volume_line := map (fun r => (r.1, r.2.1)) df_hourly_aggregation;
     fees_line := map (fun r => (r.1, r.2.2)) df_hourly_aggregation;
     count_bars := df_transactions_per_hour;
     difficulty_line := df_hourly_closing_difficulty |}.

Inductive process_output : Type :=
  | ProcessEvent (e : event)
  | PrintedHeading (h : heading)
  | PrintedBlockFrame (df : frame (@block_row cell))
  | PrintedClosingDifficulty (df : list (Z * option cell))
  | PrintedTransactionFrame (df : frame (@transaction_row cell))
  | PrintedAggregation (df : list (Z * (num * num)))
  | PrintedPerHour (df : list (Z * nat))
  | Plotted (fig : figure).

(** The script.  [df_hourly_closing_difficulty] is bound only in the branch
    of the block data: it is [None] here while no value is bound to it. *)
Definition process_main : script process_output unit :=
  block_data ← reading ProcessEvent (read_json_file blocks_file);
  df_hourly_closing_difficulty ←
    (if truthy block_data then
       records ← step (block_columns block_data);
       let df_filtered_blocks := process_block_data sort_index records in
       show (PrintedHeading HeadingBlocks);;
       show (PrintedBlockFrame df_filtered_blocks);;
       let df_hourly_closing_difficulty :=
         calculate_hourly_closing_difficulty isna df_filtered_blocks in
       show (PrintedHeading HeadingClosingDifficulty);;
       show (PrintedClosingDifficulty df_hourly_closing_difficulty);;
       mret (Some df_hourly_closing_difficulty)
     else mret None);
  transaction_data ← reading ProcessEvent (read_json_file transactions_file);
  if truthy transaction_data then
    records ← step (transaction_columns transaction_data);
    let df_filtered_transactions :=
      process_transaction_data sort_index records in
    show (PrintedHeading HeadingTransactions);;
    show (PrintedTransactionFrame df_filtered_transactions);;
    let df_hourly_aggregation :=
      calculate_hourly_volume_and_fees to_numeric add zero
        df_filtered_transactions in
    show (PrintedHeading HeadingAggregation);;
    show (PrintedAggregation df_hourly_aggregation);;
    let df_transactions_per_hour :=
      calculate_transactions_per_hour df_filtered_transactions in
    show (PrintedHeading HeadingPerHour);;
    show (PrintedPerHour df_transactions_per_hour);;
    match df_hourly_closing_difficulty with
    | Some df_hourly_closing_difficulty =>
        show (Plotted (plot_time_series df_hourly_aggregation
                         df_transactions_per_hour
                         df_hourly_closing_difficulty))
    | None => step (Raise NameError)
    end
  else mret tt.

End ProcessMain.

(** ** Concrete instances, on which the model is run *)

Definition nl : str := [10%N].

(** A client set up as the script's entry point does. *)
Definition demo_cli : NexaCLI :=
  NexaCLI_init (lit "nexa-cli") (lit "myusername") (lit "mypassword").

(** Two blocks, as parsed. *)
Definition demo_json_block_2 : json :=
  JObj [(lit "height", JInt 2); (lit "txcount", JInt 2);
        (lit "txid", JArr [JStr (lit "aa"); JStr (lit "bb")])].

Definition demo_json_block_1 : json :=
  JObj [(lit "height", JInt 1); (lit "txcount", JInt 1);
        (lit "txid", JArr [JStr (lit "cc")])].

(** A parser that knows four documents. *)
Definition demo_json_loads (s : str) : result json :=
  if str_eqb s (lit "B2") then Ok demo_json_block_2
  else if str_eqb s (lit "B1") then Ok demo_json_block_1
  else if str_eqb s (lit "Taa") then
    Ok (JObj [(lit "txid", JStr (lit "aa")); (lit "fee", JInt 3)])
  else if str_eqb s (lit "Tcc") then
    Ok (JObj [(lit "txid", JStr (lit "cc")); (lit "fee", JInt 5)])
  else Raise JSONDecodeError.

(** A node with blocks 0 to 2: block 0 has no hash, transaction [bb] is not
    indexed. *)
Definition demo_node (cmd : str) : proc :=
  if contains (lit " getblockcount") cmd then Completed (lit "2" ++ nl) []
  else if contains (lit " getblockhash 2") cmd then Completed (lit "h2" ++ nl) []
  else if contains (lit " getblockhash 1") cmd then Completed (lit "h1" ++ nl) []
  else if contains (lit " getblock h2 1") cmd then Completed (lit "B2" ++ nl) []
  else if contains (lit " getblock h1 1") cmd then Completed (lit "B1" ++ nl) []
  else if contains (lit " getrawtransaction aa 1") cmd then Completed (lit "Taa") []
  else if contains (lit " getrawtransaction cc 1") cmd then Completed (lit "Tcc") []
  else Completed [] (lit "error code: -5" ++ nl).

Definition demo_env : env :=
  {| uni_isdigit := fun _ => false;
     uni_decimal := fun _ => None;
     int_max_str_digits := Some 4300%nat;
     json_loads := demo_json_loads;
     str_other := fun _ => lit "?";
     node := demo_node;
     pool_accepts := fun k =>
       match k with Some z => (0 <? z) && (z <=? 61) | None => true end;
     as_completed := fun A l => rev l |}.

(** The same machine with another program behind the client's path. *)
Definition with_node (E : env) (nd : str -> proc) : env :=
  {| uni_isdigit := uni_isdigit E;
     uni_decimal := uni_decimal E;
     int_max_str_digits := int_max_str_digits E;
     json_loads := json_loads E;
     str_other := str_other E;
     node := nd;
     pool_accepts := pool_accepts E;
     as_completed := as_completed E |}.

(** A program that exits without writing to either stream. *)
Definition silent_node (cmd : str) : proc := Completed [] [].

(** A node that answers the height query and nothing else. *)
Definition mute_after_count (cmd : str) : proc :=
  if contains (lit " getblockcount") cmd then Completed (lit "2" ++ nl) []
  else Completed [] [].

(** A node that answers the height query and fails every other command with
    a message on the error stream. *)
Definition failing_hash_node (cmd : str) : proc :=
  if contains (lit " getblockcount") cmd then Completed (lit "2" ++ nl) []
  else Completed [] (lit "error: Block height out of range" ++ nl).

(** A block that lists one transaction. *)
Definition demo_block_json : json :=
  JObj [(lit "height", JInt 2); (lit "txcount", JInt 1);
        (lit "txid", JArr [JStr (lit "aa")])].



(** A frame sorted by insertion, ascending in the index. *)
Fixpoint insert_by_time {R : Type} (x : Z * R) (l : frame R) : frame R :=
  match l with
  | [] => [x]
  | y :: l' => if x.1 <=? y.1 then x :: l else y :: insert_by_time x l'
  end.

Definition insertion_sort_index (R : Type) (df : frame R) : frame R :=
  fold_right insert_by_time [] df.

(** Cells that are a whole number or missing. *)
Definition demo_isna (c : option Z) : bool :=
  match c with None => true | Some _ => false end.

Definition demo_block (t : Z) (d : option Z) : @block_record (option Z) :=
  {| b_height := None; b_size := None; b_txcount := None; b_time := t;
     b_mediantime := None; b_difficulty := d |}.

Definition demo_transaction (t : Z) (s f : option Z)
  : @transaction_record (option Z) :=
  {| t_size := None; t_locktime := None; t_spends := None; t_sends := s;
     t_fee := f; t_blockindex := None; t_blocktime := None; t_time := t;
     t_confirmations := None |}.

(** The claim's list for [get_latest_n_blocks]: the most recent [k] heights
    [H], [H-1], ..., [H-k+1], written from the claim's words. *)
Fixpoint latest_heights (H : Z) (k : nat) : list Z :=
  match k with
  | O => []
  | S k' => H :: latest_heights (H - 1) k'
  end.

(** An event that is neither a submission nor the clamp warning. *)
Definition plain (e : event) : Prop :=
  match e with
  | Submitted _ => False
  | Printed (MsgWarningAdjust _ _) => False
  | Printed _ => True
  end.

(** The node of [demo_node] with a client that writes nothing when asked for
    a transaction. *)
Definition silent_lookup_node (cmd : str) : proc :=
  if contains (lit " getrawtransaction ") cmd then Completed [] []
  else demo_node cmd.

(** The table of a mapping whose blocks are objects with the keys of the
    first one: a column per key, a row per block. *)
Definition demo_from_dict (blocks_dict : dict) : result DataFrame :=
  match values blocks_dict with
  | [] => Ok {| df_columns := []; df_rows := [] |}
  | JObj kv :: _ =>
      Ok {| df_columns := map fst kv;
            df_rows :=
              map (fun block =>
                     match block with
                     | JObj kv' =>
                         map (fun c => default JNull (assoc c kv')) (map fst kv)
                     | _ => []
                     end)
                  (values blocks_dict) |}
  | _ => Raise ValueError
  end.

(** Cells that are parsed JSON values: a whole number is numeric, null is
    missing. *)
Definition demo_to_numeric (c : json) : option Z :=
  match c with JInt z => Some z | _ => None end.

Definition demo_json_isna (c : json) : bool :=
  match c with JNull => true | _ => false end.

Definition demo_column (name : string) (kv : list (str * json)) : json :=
  default JNull (assoc (lit name) kv).

(** The kept columns of data that is a list of objects, each with a whole
    number of seconds under ['time']; other data is refused. *)
Definition demo_block_columns (block_data : json)
  : result (list (@block_record json)) :=
  match block_data with
  | JArr l =>
      fold_right
        (fun v acc =>
           match v, acc with
           | JObj kv, Ok records =>
               match assoc (lit "time") kv with
               | Some (JInt t) =>
                   Ok ({| b_height := demo_column "height" kv;
                          b_size := demo_column "size" kv;
                          b_txcount := demo_column "txcount" kv;
                          b_time := t;
                          b_mediantime := demo_column "mediantime" kv;
                          b_difficulty := demo_column "difficulty" kv |}
                       :: records)
               | _ => Raise ValueError
               end
           | _, _ => Raise ValueError
           end)
        (Ok []) l
  | _ => Raise ValueError
  end.

Definition demo_transaction_columns (transaction_data : json)
  : result (list (@transaction_record json)) :=
  match transaction_data with
  | JArr l =>
      fold_right
        (fun v acc =>
           match v, acc with
           | JObj kv, Ok records =>
               match assoc (lit "time") kv with
               | Some (JInt t) =>
                   Ok ({| t_size := demo_column "size" kv;
                          t_locktime := demo_column "locktime" kv;
                          t_spends := demo_column "spends" kv;
                          t_sends := demo_column "sends" kv;
                          t_fee := demo_column "fee" kv;
                          t_blockindex := demo_column "blockindex" kv;
                          t_blocktime := demo_column "blocktime" kv;
                          t_time := t;
                          t_confirmations := demo_column "confirmations" kv |}
                       :: records)
               | _ => Raise ValueError
               end
           | _, _ => Raise ValueError
           end)
        (Ok []) l
  | _ => Raise ValueError
  end.

(** Two transactions and one block, as the files hold them. *)
Definition demo_transactions_document : json :=
  JArr [JObj [(lit "time", JInt 3700); (lit "sends", JInt 5);
              (lit "fee", JInt 1)];
        JObj [(lit "time", JInt 3650); (lit "sends", JInt 7);
              (lit "fee", JInt 2)]].

Definition demo_blocks_document : json :=
  JArr [JObj [(lit "height", JInt 2); (lit "time", JInt 3600);
              (lit "difficulty", JInt 9)]].

(** ** The numbers of the hourly sums: 64-bit floats *)

(** [pd.to_numeric] gives a column with a missing value the dtype float64,
    and [sum] adds its values as such.  A float is a [spec_float] of the
    Standard Library's specification of IEEE 754 arithmetic, at the
    parameters of binary64: a precision of 53 bits and a largest exponent of
    1024.  A column of whole numbers without a missing value is summed as
    64-bit integers instead, which gives the same value as long as the
    floats are exact. *)
Definition f64_add : spec_float -> spec_float -> spec_float := SFadd 53 1024.

(** The sum of no value: [+0.0]. *)
Definition f64_zero : spec_float := S754_zero false.

(** The float nearest to a whole number: [float(z)]. *)
Definition f64_of_Z (z : Z) : spec_float := binary_normalize 53 1024 z 0 false.

(** The value of a finite float in units of [2 ^ -1074], the smallest
    positive float: a whole number. *)
Definition f64_units (x : spec_float) : option Z :=
  match x with
  | S754_zero _ => Some 0
  | S754_finite s m e => Some (cond_Zopp s (Zpos m * 2 ^ (e + 1074)))
  | _ => None
  end.

(** The sum of finite floats as the real number it is, in the same units. *)
Definition exact_total (values : list spec_float) : option Z :=
  fold_right (fun v acc => u ← f64_units v; s ← acc; Some (u + s)) (Some 0)
    values.

(** The claim on the hourly sums as the specification words it: the records
    of the hour that starts at [label] are aggregated to one bucket, whose
    volume is the sum of the numeric [sends] values and whose fees are the
    sum of the numeric [fee] values. *)
Definition hourly_sums_are_exact {cell : Type}
    (to_numeric : cell -> option spec_float)
    (sort_index : forall R : Type, frame R -> frame R)
    (transaction_data : list (@transaction_record cell)) (label : Z) : Prop :=
  exists volume fees,
    calculate_hourly_volume_and_fees to_numeric f64_add f64_zero
      (process_transaction_data sort_index transaction_data)
    = [(label, (volume, fees))]
    /\ f64_units volume
       = exact_total (omap (fun r => to_numeric (t_sends r)) transaction_data)
    /\ f64_units fees
       = exact_total (omap (fun r => to_numeric (t_fee r)) transaction_data).

(** Cells that are a float or missing. *)
Definition float_transaction (t : Z) (s f : option spec_float)
  : @transaction_record (option spec_float) :=
  {| t_size := None; t_locktime := None; t_spends := None; t_sends := s;
     t_fee := f; t_blockindex := None; t_blocktime := None; t_time := t;
     t_confirmations := None |}.

(** The floats [0.1], [0.2] and [0.3]. *)
Definition tenth : spec_float := S754_finite false 7205759403792794 (-56).
Definition fifth : spec_float := S754_finite false 7205759403792794 (-55).
Definition three_tenths : spec_float :=
  S754_finite false 5404319552844595 (-54).

(** * Facts about the fetch scripts *)

(** Unfolds the plumbing of [io] on closed pieces of a computation. *)
Ltac io_simpl :=
  unfold outcome, events, raise, print, emit, future_result, lift in *;
  simpl in *.

Lemma io_eta {A : Type} (m : io A) : m = (events m, outcome m).
Proof. by destruct m. Qed.

Lemma events_bind {A B : Type} (m : io A) (f : A -> io B) (a : A) :
  outcome m = Ok a -> events (m ≫= f) = events m ++ events (f a).
Proof.
  destruct m as [l r]; simpl; intros ->.
  unfold events; simpl. by destruct (f a).
Qed.

Lemma outcome_bind {A B : Type} (m : io A) (f : A -> io B) (a : A) :
  outcome m = Ok a -> outcome (m ≫= f) = outcome (f a).
Proof.
  destruct m as [l r]; simpl; intros ->.
  unfold outcome; simpl. by destruct (f a).
Qed.

Lemma events_bind_raise {A B : Type} (m : io A) (f : A -> io B) (e : exn) :
  outcome m = Raise e -> events (m ≫= f) = events m.
Proof. destruct m as [l r]; simpl; by intros ->. Qed.

Lemma outcome_bind_raise {A B : Type} (m : io A) (f : A -> io B) (e : exn) :
  outcome m = Raise e -> outcome (m ≫= f) = Raise e.
Proof. destruct m as [l r]; simpl; by intros ->. Qed.

Lemma Forall_events_bind {A B : Type} (P : event -> Prop) (m : io A)
    (f : A -> io B) :
  Forall P (events m) ->
  (forall a, outcome m = Ok a -> Forall P (events (f a))) ->
  Forall P (events (m ≫= f)).
Proof.
  intros Hm Hf. destruct (outcome m) as [a|e] eqn:Ho.
  - rewrite (events_bind m f a Ho). apply Forall_app; split; [done|by apply Hf].
  - by rewrite (events_bind_raise m f e Ho).
Qed.

Lemma submitted_app (l1 l2 : list event) :
  submitted (l1 ++ l2) = submitted l1 ++ submitted l2.
Proof. apply omap_app. Qed.

Lemma submitted_plain (l : list event) : Forall plain l -> submitted l = [].
Proof.
  induction 1 as [|e l He _ IH]; [done|].
  destruct e as [m|j]; [|done]. exact IH.
Qed.

Lemma warning_not_plain (l : list event) (a b : Z) :
  Forall plain l -> Printed (MsgWarningAdjust a b) ∉ l.
Proof.
  intros Hl Hin. rewrite Forall_forall in Hl. exact (Hl _ Hin).
Qed.

Section FetchFacts.

Variable E : env.
Variable cli : NexaCLI.

Lemma run_command_plain (command : str) :
  Forall plain (events (run_command E cli command)).
Proof.
  unfold run_command. destruct (node E _) as [out err|e]; simpl.
  - destruct (str_truthy out); [constructor|].
    destruct (str_truthy err); repeat constructor.
  - repeat constructor.
Qed.

Lemma run_command_silent (command : str) :
  node E (full_command cli command) = Completed [] [] ->
  run_command E cli command = ([], Ok None).
Proof. intros Hn. unfold run_command. by rewrite Hn. Qed.

Lemma run_command_never_raises (command : str) :
  exists r, outcome (run_command E cli command) = Ok r.
Proof.
  unfold run_command. destruct (node E _) as [out err|e]; simpl; [|by eexists].
  destruct (str_truthy out); [by eexists|].
  destruct (str_truthy err); by eexists.
Qed.

Lemma int_digits_nonneg (s : str) (acc z : Z) :
  0 <= acc -> int_digits E acc s = Some z -> 0 <= z.
Proof.
  revert acc. induction s as [|c s IH]; simpl; intros acc Hacc Hz.
  - by simplify_eq.
  - destruct (decimal_cp E c) as [d|]; [|done].
    apply (IH (10 * acc + Z.of_N d)); [lia|done].
Qed.

Lemma py_int_nonneg (s : str) (z : Z) :
  outcome (py_int E s) = Ok z -> 0 <= z.
Proof.
  unfold py_int. repeat case_match; io_simpl; intros; simplify_eq.
  all: match goal with
       | H : context [decimal_cp E ?c] |- _ =>
           match type of H with
           | context [int_digits E _ ?r] =>
               exact (int_digits_nonneg (c :: r) 0 z (Z.le_refl 0) H)
           end
       end.
Qed.

Lemma py_int_plain (s : str) : Forall plain (events (py_int E s)).
Proof.
  unfold py_int. repeat case_match; constructor.
Qed.

Lemma get_latest_block_height_plain :
  Forall plain (events (get_latest_block_height E cli)).
Proof.
  unfold get_latest_block_height.
  apply Forall_events_bind; [apply run_command_plain|].
  intros [output|] _; [|constructor].
  destruct (isdigit E output).
  - apply Forall_events_bind; [apply py_int_plain|]. intros; constructor.
  - repeat constructor.
Qed.

(** A height that the query returns is not negative. *)
Lemma get_latest_block_height_nonneg (H : Z) :
  outcome (get_latest_block_height E cli) = Ok (Some H) -> 0 <= H.
Proof.
  unfold get_latest_block_height.
  destruct (run_command_never_raises (lit "getblockcount")) as [r Hr].
  rewrite (outcome_bind _ _ r Hr).
  destruct r as [output|]; [|done].
  destruct (isdigit E output); [|done].
  destruct (outcome (py_int E (strip output))) as [z|e] eqn:Hz.
  - rewrite (outcome_bind _ _ z Hz). simpl. intros [= <-].
    by apply (py_int_nonneg (strip output)).
  - by rewrite (outcome_bind_raise _ _ e Hz).
Qed.

Lemma get_block_data_plain (h : Z) :
  Forall plain (events (get_block_data E cli h)).
Proof.
  unfold get_block_data.
  apply Forall_events_bind; [apply run_command_plain|].
  intros [s|] _; [|constructor].
  simpl. destruct (negb (str_truthy (strip s))); [repeat constructor|].
  apply Forall_events_bind; [apply run_command_plain|].
  intros [out|] _; [|constructor].
  destruct (json_loads E out) as [v|[]]; repeat constructor.
Qed.

(** A fetched block is filed under the height it was asked for, and one
    fetch gives at most one entry. *)
Lemma get_block_data_entries (h : Z) (d : dict) :
  outcome (get_block_data E cli h) = Ok d ->
  d = [] \/ exists b, d = [(h, b)].
Proof.
  unfold get_block_data.
  destruct (run_command_never_raises (lit "getblockhash " ++ str_of_Z h))
    as [r Hr].
  rewrite (outcome_bind _ _ r Hr). destruct r as [s|]; [|done].
  simpl. destruct (negb (str_truthy (strip s))); [simpl; intros [= <-]; by left|].
  destruct (run_command_never_raises (lit "getblock " ++ strip s ++ lit " 1"))
    as [r' Hr'].
  rewrite (outcome_bind _ _ r' Hr'). destruct r' as [out|]; [|done].
  destruct (json_loads E out) as [v|[]]; simpl; intros [= <-]; eauto.
Qed.

End FetchFacts.

Lemma latest_heights_seq (H : Z) (s k : nat) :
  map (fun i => H - i) ((fun i : nat => Z.of_nat i + 0) <$> seq s k)
  = latest_heights (H - Z.of_nat s) k.
Proof.
  revert s. induction k as [|k IH]; intros s; [done|].
  simpl. f_equal; [lia|].
  rewrite IH. f_equal. lia.
Qed.

Lemma latest_heights_range (H n : Z) :
  map (fun i => H - i) (range n) = latest_heights H (Z.to_nat n).
Proof.
  unfold range, seqZ. rewrite latest_heights_seq. f_equal. lia.
Qed.

Lemma length_latest_heights (H : Z) (k : nat) :
  length (latest_heights H k) = k.
Proof. revert H. induction k as [|k IH]; intros H; simpl; [done|by rewrite IH]. Qed.

Lemma executor_submit_eq {A : Type} (j : job) (work : io A) :
  executor_submit j work = (Submitted j :: events work, Ok (outcome work)).
Proof. reflexivity. Qed.

(** Submitting one job per element runs every job: the futures hold the
    jobs' outcomes in submission order, whatever these outcomes are. *)
Lemma submit_all_eq {A B : Type} (j : A -> job) (work : A -> io B)
    (l : list A) :
  submit_all (fun x => executor_submit (j x) (work x)) l
  = (flat_map (fun x => Submitted (j x) :: events (work x)) l,
     Ok (map (fun x => outcome (work x)) l)).
Proof.
  induction l as [|x l IH]; [done|].
  simpl. rewrite IH. cbn. by rewrite app_nil_r.
Qed.

Lemma submitted_flat_map {A : Type} (j : A -> job) (evs : A -> list event)
    (l : list A) :
  (forall x, Forall plain (evs x)) ->
  submitted (flat_map (fun x => Submitted (j x) :: evs x) l) = map j l.
Proof.
  intros Hp. induction l as [|x l IH]; [done|].
  simpl. change (Submitted (j x) :: evs x ++ ?r)
    with ([Submitted (j x)] ++ evs x ++ r).
  rewrite !submitted_app, IH, (submitted_plain _ (Hp x)). done.
Qed.

Lemma flat_map_no_warning {A : Type} (j : A -> job) (evs : A -> list event)
    (l : list A) (a b : Z) :
  (forall x, Forall plain (evs x)) ->
  Printed (MsgWarningAdjust a b)
    ∉ flat_map (fun x => Submitted (j x) :: evs x) l.
Proof.
  intros Hp. induction l as [|x l IH]; simpl; [by intros ?%elem_of_nil|].
  rewrite elem_of_cons, elem_of_app. intros [?|[Hin|?]]; [done| |done].
  by apply (warning_not_plain _ a b (Hp x)).
Qed.

Section BlockFetcher.

Variable E : env.
Variable cli : NexaCLI.

Lemma blocks_loop_cons (total i : Z) (fut : future dict)
    (rest : list (future dict)) (d : dict) :
  blocks_loop total i (fut :: rest) d
  = (block_data ← future_result fut;
     (if ((i + 1) mod 10 =? 0) || (i + 1 =? total) then
        k ← first_key block_data;
        print (MsgRetrievedBlock k (i + 1) total)
      else mret tt);;
     blocks_loop total (i + 1) rest (dict_update d block_data)).
Proof. reflexivity. Qed.

Lemma blocks_loop_plain (total i : Z) (completed : list (future dict))
    (d : dict) :
  Forall plain (events (blocks_loop total i completed d)).
Proof.
  revert i d. induction completed as [|fut rest IH]; intros i d;
    [constructor|].
  rewrite blocks_loop_cons.
  apply Forall_events_bind; [constructor|]. intros block_data _.
  apply Forall_events_bind; [|intros; apply IH].
  destruct (_ || _); [|constructor].
  unfold first_key. destruct (keys block_data); repeat constructor.
Qed.

(** [get_latest_n_blocks] once the height query has returned [H] and the
    pool is open: the events are those of the query, the clamp warning when
    the count is cut, the start line, each submission with what its job
    printed, and those of the collecting loop. *)
Lemma get_latest_n_blocks_run (n H : Z) (p : option Z) :
  outcome (get_latest_block_height E cli) = Ok (Some H) ->
  pool_accepts E p = true ->
  let n' := if n >? H + 1 then H + 1 else n in
  let block_heights := map (fun i => H - i) (range n') in
  let futures := map (fun h => outcome (get_block_data E cli h)) block_heights in
  let loop :=
    blocks_loop (Z.of_nat (length block_heights)) 0
      (as_completed E _ futures) [] in
  get_latest_n_blocks E cli n p
  = (events (get_latest_block_height E cli)
       ++ (if n >? H + 1 then [Printed (MsgWarningAdjust n (H + 1))] else [])
       ++ [Printed (MsgStartBlocks p)]
       ++ flat_map (fun h => Submitted (FetchBlock h)
                             :: events (get_block_data E cli h)) block_heights
       ++ events loop,
     outcome loop).
Proof.
  intros HH Hp n' block_heights futures loop.
  unfold get_latest_n_blocks.
  rewrite (io_eta (get_latest_block_height E cli)), HH.
  unfold open_pool. rewrite Hp.
  subst loop futures block_heights n'.
  cbn -[executor_submit submit_all blocks_loop].
  destruct (n >? H + 1); cbn -[executor_submit submit_all blocks_loop];
    rewrite submit_all_eq; cbn -[blocks_loop];
    match goal with |- context [blocks_loop ?t ?i ?c ?d] =>
      rewrite (io_eta (blocks_loop t i c d)) end; cbn -[blocks_loop];
    by rewrite ?app_nil_r.
Qed.

End BlockFetcher.

(** C1.  For every requested count [n] and every chain height [H] that the
    height query returns (the pool accepting the worker count): if
    [n > H + 1] the clamp warning is printed and exactly [H + 1] block
    fetches are submitted, for the heights [H], [H-1], ..., [0]; otherwise no
    warning is printed and the fetches submitted are those of the most
    recent [n] heights [H], [H-1], ..., [H-n+1], in this order. *)
Theorem get_latest_n_blocks_clamps_to_available (E : env) (cli : NexaCLI)
    (n H : Z) (p : option Z) :
  pool_accepts E p = true ->
  outcome (get_latest_block_height E cli) = Ok (Some H) ->
  let evs := events (get_latest_n_blocks E cli n p) in
  (n > H + 1 ->
     Printed (MsgWarningAdjust n (H + 1)) ∈ evs
     /\ submitted evs = map FetchBlock (latest_heights H (Z.to_nat (H + 1)))
     /\ Z.of_nat (length (submitted evs)) = H + 1)
  /\ (n <= H + 1 ->
     (forall a b, Printed (MsgWarningAdjust a b) ∉ evs)
     /\ submitted evs = map FetchBlock (latest_heights H (Z.to_nat n))).
Proof.
  intros Hp HH evs.
  pose proof (get_latest_block_height_nonneg E cli H HH) as Hnn.
  pose proof (get_latest_block_height_plain E cli) as Hq.
  assert (Hsub : forall k,
    submitted
      (flat_map (fun h => Submitted (FetchBlock h)
                          :: events (get_block_data E cli h))
         (map (fun i => H - i) (range k)))
    = map FetchBlock (latest_heights H (Z.to_nat k))).
  { intros k. rewrite submitted_flat_map by apply get_block_data_plain.
    by rewrite latest_heights_range. }
  subst evs. rewrite (get_latest_n_blocks_run E cli n H p HH Hp). cbn [events fst].
  destruct (Z.gtb_spec n (H + 1)) as [Hgt|Hle]; split; intros Hn; try lia.
  - split; [|split].
    + rewrite !elem_of_app. right; left. apply list_elem_of_singleton. done.
    + rewrite !submitted_app, Hsub, (submitted_plain _ Hq).
      rewrite (submitted_plain _ (blocks_loop_plain _ _ _ _)).
      by rewrite app_nil_r.
    + rewrite !submitted_app, Hsub, (submitted_plain _ Hq).
      rewrite (submitted_plain _ (blocks_loop_plain _ _ _ _)).
      cbn. rewrite app_nil_r, length_map, length_latest_heights. lia.
  - split.
    + intros a b. rewrite !elem_of_app.
      intros [Hin|[Hin|[Hin|[Hin|Hin]]]].
      * by apply (warning_not_plain _ a b Hq).
      * by apply elem_of_nil in Hin.
      * apply list_elem_of_singleton in Hin. done.
      * revert Hin. apply flat_map_no_warning. apply get_block_data_plain.
      * revert Hin. apply warning_not_plain, blocks_loop_plain.
    + rewrite !submitted_app, Hsub, (submitted_plain _ Hq).
      rewrite (submitted_plain _ (blocks_loop_plain _ _ _ _)).
      by rewrite app_nil_r.
Qed.

Lemma get_latest_n_blocks_clamps_witness :
  Printed (MsgWarningAdjust 5 3)
    ∈ events (get_latest_n_blocks demo_env demo_cli 5 (Some 8))
  /\ submitted (events (get_latest_n_blocks demo_env demo_cli 5 (Some 8)))
     = [FetchBlock 2; FetchBlock 1; FetchBlock 0].
Proof.
  destruct (get_latest_n_blocks_clamps_to_available demo_env demo_cli 5 2
              (Some 8) ltac:(reflexivity) ltac:(vm_compute; reflexivity))
    as [Hclamp _].
  destruct (Hclamp ltac:(lia)) as (Hwarn & Hsub & _).
  split; [exact Hwarn|exact Hsub].
Defined.

(** C3.  [run_command] does not always return a string: when the process
    writes to neither stream, no [return] is reached and the caller receives
    [None], with nothing logged. *)
Theorem run_command_silent_process_returns_None (E : env) (cli : NexaCLI)
    (command : str) :
  node E (full_command cli command) = Completed [] [] ->
  run_command E cli command = ([], Ok None).
Proof. apply run_command_silent. Qed.

Lemma run_command_silent_process_witness :
  run_command (with_node demo_env silent_node) demo_cli (lit "getblockcount")
  = ([], Ok None).
Proof.
  apply (run_command_silent_process_returns_None
           (with_node demo_env silent_node) demo_cli (lit "getblockcount")).
  reflexivity.
Defined.

(** C10.  When the process behind the height query writes nothing at all,
    the query's result is [None] rather than a string, [isdigit] is looked up
    on it, and [get_latest_n_blocks] ends with [AttributeError]: nothing is
    logged and no mapping is returned. *)
Theorem get_latest_n_blocks_silent_height_query (E : env) (cli : NexaCLI)
    (n : Z) (p : option Z) :
  node E (full_command cli (lit "getblockcount")) = Completed [] [] ->
  get_latest_n_blocks E cli n p = ([], Raise AttributeError).
Proof.
  intros Hn. unfold get_latest_n_blocks, get_latest_block_height.
  by rewrite (run_command_silent E cli _ Hn).
Qed.

Lemma get_latest_n_blocks_silent_height_query_witness :
  get_latest_n_blocks (with_node demo_env silent_node) demo_cli 100 (Some 8)
  = ([], Raise AttributeError).
Proof.
  apply (get_latest_n_blocks_silent_height_query
           (with_node demo_env silent_node) demo_cli 100 (Some 8)).
  reflexivity.
Defined.

(** X2.  The height query on a string that is not made of digits: the
    failure is logged, the empty mapping is returned and no fetch is
    submitted. *)
Lemma get_latest_n_blocks_height_not_digits (E : env) (cli : NexaCLI)
    (n : Z) (p : option Z) (l : list event) (output : str) :
  run_command E cli (lit "getblockcount") = (l, Ok (Some output)) ->
  isdigit E output = false ->
  get_latest_n_blocks E cli n p
  = (l ++ [Printed (MsgFailedBlockCount output)], Ok [])
  /\ submitted (events (get_latest_n_blocks E cli n p)) = [].
Proof.
  intros Hr Hd.
  assert (Heq : get_latest_n_blocks E cli n p
                = (l ++ [Printed (MsgFailedBlockCount output)], Ok [])).
  { unfold get_latest_n_blocks, get_latest_block_height.
    rewrite Hr. cbn. rewrite Hd. cbn. by rewrite app_nil_r. }
  split; [done|]. rewrite Heq. cbn [events fst].
  rewrite submitted_app. rewrite (submitted_plain l); [done|].
  pose proof (run_command_plain E cli (lit "getblockcount")) as Hp.
  by rewrite Hr in Hp.
Qed.

Lemma get_latest_n_blocks_height_not_digits_witness :
  get_latest_n_blocks (with_node demo_env (fun _ => Completed (lit "n/a") []))
    demo_cli 100 (Some 8)
  = ([Printed (MsgFailedBlockCount (lit "n/a"))], Ok []).
Proof.
  apply (get_latest_n_blocks_height_not_digits
           (with_node demo_env (fun _ => Completed (lit "n/a") []))
           demo_cli 100 (Some 8) [] (lit "n/a"));
    vm_compute; reflexivity.
Defined.

Section TransactionFetcher.

Variable E : env.
Variable cli : NexaCLI.

Lemma transactions_loop_cons (total i : Z) (fut : future json)
    (rest : list (future json)) (acc : list json) :
  transactions_loop total i (fut :: rest) acc
  = (tx_data ← future_result fut;
     (if i mod 10 =? 0 then print (MsgProcessedTransaction (i + 1) total)
      else mret tt);;
     transactions_loop total (i + 1) rest
       (if truthy tx_data then acc ++ [tx_data] else acc)).
Proof. reflexivity. Qed.

(** The collecting loop returns when every future returns; the list is then
    made of the truthy results, in completion order. *)
Lemma transactions_loop_returns (total i : Z) (vals : list json)
    (acc : list json) :
  outcome (transactions_loop total i (map Ok vals) acc)
  = Ok (acc ++ filter (fun v => truthy v = true) vals).
Proof.
  revert i acc. induction vals as [|v vals IH]; intros i acc.
  - simpl. by rewrite app_nil_r.
  - change (map Ok (v :: vals)) with (Ok v :: map Ok vals).
    rewrite transactions_loop_cons.
    rewrite (outcome_bind _ _ v) by done.
    rewrite (outcome_bind _ _ tt) by (by destruct (_ =? _)).
    rewrite IH. rewrite filter_cons.
    destruct (truthy v) eqn:Hv.
    + rewrite decide_True by done. by rewrite <- app_assoc.
    + rewrite decide_False by done. done.
Qed.

Lemma transactions_loop_inv (total i : Z) (completed : list (future json))
    (acc txs : list json) :
  outcome (transactions_loop total i completed acc) = Ok txs ->
  exists vals, completed = map Ok vals
    /\ txs = acc ++ filter (fun v => truthy v = true) vals.
Proof.
  revert i acc. induction completed as [|fut rest IH]; intros i acc.
  - simpl. intros [= <-]. exists []. by rewrite app_nil_r.
  - rewrite transactions_loop_cons. destruct fut as [v|e]; [|done].
    rewrite (outcome_bind _ _ v) by done.
    rewrite (outcome_bind _ _ tt) by (by destruct (_ =? _)).
    intros (vals & -> & ->)%IH. exists (v :: vals). split; [done|].
    rewrite filter_cons. destruct (truthy v) eqn:Hv.
    + rewrite decide_True by done. by rewrite <- app_assoc.
    + rewrite decide_False by done. done.
Qed.

Lemma get_all_transactions_run (blocks_dict : dict) (p : option Z)
    (txids : list json) :
  all_txids (values blocks_dict) = Ok txids ->
  pool_accepts E p = true ->
  let futures := map (fun t => outcome (get_transaction_data E cli t)) txids in
  let loop :=
    transactions_loop (Z.of_nat (length txids)) 0
      (as_completed E _ futures) [] in
  get_all_transactions E cli blocks_dict p
  = ([Printed (MsgStartTransactions p)]
       ++ flat_map (fun t => Submitted (FetchTransaction t)
                             :: events (get_transaction_data E cli t)) txids
       ++ events loop,
     outcome loop).
Proof.
  intros Ht Hp futures loop. unfold get_all_transactions.
  rewrite Ht. unfold open_pool. rewrite Hp.
  subst loop futures.
  cbn -[executor_submit submit_all transactions_loop].
  rewrite submit_all_eq. cbn -[transactions_loop].
  match goal with |- context [transactions_loop ?t ?i ?c ?d] =>
    rewrite (io_eta (transactions_loop t i c d)) end.
  done.
Qed.

End TransactionFetcher.

Lemma as_completed_singleton (E : env) {A : Type} (x : A) :
  (forall (B : Type) (l : list B), Permutation (as_completed E B l) l) ->
  as_completed E A [x] = [x].
Proof. intros Hperm. apply Permutation_singleton_r, Hperm. Qed.

Lemma demo_as_completed_perm (nd : str -> proc) (A : Type) (l : list A) :
  Permutation (as_completed (with_node demo_env nd) A l) l.
Proof. symmetry. apply Permutation_rev. Qed.

Lemma demo_env_as_completed_perm (A : Type) (l : list A) :
  Permutation (as_completed demo_env A l) l.
Proof. symmetry. apply Permutation_rev. Qed.

(** C4.  A failed fetch does not always leave [get_latest_n_blocks] to
    complete: when one block is requested and its fetch yields no entry (the
    empty dict of a failed hash lookup or of a JSON parse error), the progress
    line of the last iteration reads the first key of that empty dict and
    [IndexError] ends the call; no mapping is returned. *)
Theorem get_latest_n_blocks_failed_fetch_raises (E : env) (cli : NexaCLI)
    (H : Z) (p : option Z) :
  (forall (A : Type) (l : list A), Permutation (as_completed E A l) l) ->
  pool_accepts E p = true ->
  outcome (get_latest_block_height E cli) = Ok (Some H) ->
  outcome (get_block_data E cli H) = Ok [] ->
  outcome (get_latest_n_blocks E cli 1 p) = Raise IndexError.
Proof.
  intros Hperm Hp HH Hfetch.
  pose proof (get_latest_block_height_nonneg E cli H HH) as Hnn.
  rewrite (get_latest_n_blocks_run E cli 1 H p HH Hp). cbn [outcome snd].
  destruct (Z.gtb_spec 1 (H + 1)) as [?|_]; [lia|].
  change (range 1) with [0]. cbn [map length].
  rewrite Z.sub_0_r, Hfetch, (as_completed_singleton E _ Hperm).
  reflexivity.
Qed.

Lemma get_latest_n_blocks_failed_fetch_witness :
  outcome (get_latest_n_blocks (with_node demo_env failing_hash_node)
             demo_cli 1 (Some 8))
  = Raise IndexError.
Proof.
  apply (get_latest_n_blocks_failed_fetch_raises
           (with_node demo_env failing_hash_node) demo_cli 2 (Some 8)).
  - apply demo_as_completed_perm.
  - reflexivity.
  - vm_compute. reflexivity.
  - vm_compute. reflexivity.
Defined.

(** C7.  A lookup whose process writes nothing is not skipped: its result is
    [None], the test for the error code is applied to it, and
    [get_all_transactions] ends with [TypeError] instead of returning a list
    no longer than the block's transaction count. *)
Theorem get_all_transactions_silent_lookup_raises (E : env) (cli : NexaCLI)
    (h : Z) (block txid : json) (p : option Z) :
  (forall (A : Type) (l : list A), Permutation (as_completed E A l) l) ->
  pool_accepts E p = true ->
  block_txids block = Ok [txid] ->
  node E (full_command cli
            (lit "getrawtransaction " ++ format_value E txid ++ lit " 1"))
  = Completed [] [] ->
  outcome (get_all_transactions E cli [(h, block)] p) = Raise TypeError.
Proof.
  intros Hperm Hp Hids Hn.
  assert (Hall : all_txids (values [(h, block)]) = Ok [txid]).
  { cbn. by rewrite Hids. }
  rewrite (get_all_transactions_run E cli _ p [txid] Hall Hp).
  cbn [outcome snd map length].
  assert (Hget : outcome (get_transaction_data E cli txid) = Raise TypeError).
  { unfold get_transaction_data.
    by rewrite (run_command_silent E cli _ Hn). }
  rewrite Hget, (as_completed_singleton E _ Hperm). reflexivity.
Qed.

Lemma get_all_transactions_silent_lookup_witness :
  outcome (get_all_transactions (with_node demo_env mute_after_count)
             demo_cli [(2, demo_block_json)] (Some 8))
  = Raise TypeError.
Proof.
  apply (get_all_transactions_silent_lookup_raises
           (with_node demo_env mute_after_count) demo_cli 2 demo_block_json
           (JStr (lit "aa")) (Some 8)).
  - apply demo_as_completed_perm.
  - reflexivity.
  - reflexivity.
  - vm_compute. reflexivity.
Defined.

(** ** The height-keyed mapping *)

Lemma elem_of_dict_set (d : dict) (k : Z) (v : json) (h : Z) (b : json) :
  (h, b) ∈ dict_set d k v -> (h, b) = (k, v) \/ (h, b) ∈ d.
Proof.
  induction d as [|[k' v'] d IH]; simpl.
  - rewrite list_elem_of_singleton. by left.
  - destruct (k' =? k); rewrite !elem_of_cons; intros [?|?]; auto.
    destruct IH as [?|?]; auto.
Qed.

Lemma keys_dict_set_subseteq (d : dict) (k : Z) (v : json) (h : Z) :
  h ∈ keys (dict_set d k v) -> h = k \/ h ∈ keys d.
Proof.
  unfold keys. induction d as [|[k' v'] d IH]; simpl.
  - rewrite list_elem_of_singleton. by left.
  - destruct (k' =? k); simpl; rewrite !elem_of_cons; intros [?|?]; auto.
    destruct IH as [?|?]; auto.
Qed.

Lemma NoDup_keys_dict_set (d : dict) (k : Z) (v : json) :
  NoDup (keys d) -> NoDup (keys (dict_set d k v)).
Proof.
  unfold keys. induction d as [|[k' v'] d IH]; simpl; intros Hnd.
  - apply NoDup_singleton.
  - apply NoDup_cons in Hnd as [Hk' Hnd].
    destruct (Z.eqb_spec k' k) as [->|Hne]; simpl.
    + by apply NoDup_cons.
    + apply NoDup_cons. split; [|by apply IH].
      intros [?|?]%keys_dict_set_subseteq; [congruence|done].
Qed.

Lemma dict_update_inv (d other : dict) :
  NoDup (keys d) ->
  NoDup (keys (dict_update d other))
  /\ forall h b, (h, b) ∈ dict_update d other -> (h, b) ∈ other \/ (h, b) ∈ d.
Proof.
  unfold dict_update. revert d.
  induction other as [|[k v] other IH]; intros d Hnd; simpl.
  - split; [done|]. intros h b ?. by right.
  - destruct (IH (dict_set d k v) (NoDup_keys_dict_set d k v Hnd)) as [H1 H2].
    split; [done|]. intros h b [Hin|Hin]%H2.
    + left. by apply elem_of_cons; right.
    + apply elem_of_dict_set in Hin as [->|Hin]; [|by right].
      left. apply elem_of_cons. by left.
Qed.

(** What the collecting loop returns holds each key once, and every entry
    comes from the dict it started with or from the dict of a future. *)
Lemma blocks_loop_inv (total i : Z) (completed : list (future dict))
    (d0 d : dict) :
  outcome (blocks_loop total i completed d0) = Ok d ->
  NoDup (keys d0) ->
  NoDup (keys d)
  /\ forall h b, (h, b) ∈ d ->
       (h, b) ∈ d0 \/ exists dd, Ok dd ∈ completed /\ (h, b) ∈ dd.
Proof.
  revert i d0. induction completed as [|fut rest IH]; intros i d0.
  - simpl. intros [= <-] Hnd. split; [done|]. intros h b ?. by left.
  - rewrite blocks_loop_cons. destruct fut as [bd|e]; [|done].
    rewrite (outcome_bind _ _ bd) by done.
    match goal with |- outcome (?m ≫= _) = _ -> _ =>
      destruct (outcome m) as [[]|e] eqn:Hprog end.
    + rewrite (outcome_bind _ _ tt Hprog). intros Hloop Hnd.
      destruct (dict_update_inv d0 bd Hnd) as [Hnd' Hin'].
      destruct (IH _ _ Hloop Hnd') as [Hnd'' Hin''].
      split; [done|]. intros h b [Hin|(dd & Hdd & Hin)]%Hin''.
      * apply Hin' in Hin as [Hin|Hin]; [|by left].
        right. exists bd. split; [apply elem_of_cons; by left|done].
      * right. exists dd. split; [apply elem_of_cons; by right|done].
    + by rewrite (outcome_bind_raise _ _ e Hprog).
Qed.

Lemma Forall2_filter_r {A B : Type} (R : A -> B -> Prop) (P : B -> Prop)
    `{!forall y, Decision (P y)} (l : list A) (k : list B) :
  Forall2 R l k ->
  exists kept, sublist kept l /\ Forall2 R kept (filter P k).
Proof.
  induction 1 as [|x y l k Hxy _ (kept & Hsub & Hkept)].
  - exists []. split; [done|constructor].
  - rewrite filter_cons. destruct (decide (P y)).
    + exists (x :: kept). split; [by apply sublist_skip|by constructor].
    + exists kept. split; [by apply sublist_cons|done].
Qed.

(** C9.  Within one fetch batch, for every completion order: the mapping
    that [get_latest_n_blocks] returns holds each height once, each entry
    under a height that was submitted and with the block fetched for that
    height; and when the blocks list each transaction id at most once, the
    list that [get_all_transactions] returns holds one record per id of a
    duplicate-free selection of the listed ids, each record being the one
    fetched for its id. *)
Theorem fetch_batch_keys_unique (E : env) (cli : NexaCLI) :
  (forall (A : Type) (l : list A), Permutation (as_completed E A l) l) ->
  (forall n p d,
      outcome (get_latest_n_blocks E cli n p) = Ok d ->
      NoDup (keys d)
      /\ forall h b, (h, b) ∈ d ->
           FetchBlock h ∈ submitted (events (get_latest_n_blocks E cli n p))
           /\ outcome (get_block_data E cli h) = Ok [(h, b)])
  /\ (forall blocks_dict p txids txs,
      all_txids (values blocks_dict) = Ok txids ->
      NoDup txids ->
      outcome (get_all_transactions E cli blocks_dict p) = Ok txs ->
      exists kept,
        NoDup kept /\ kept ⊆ txids
        /\ Forall2 (fun t r => outcome (get_transaction_data E cli t) = Ok r)
             kept txs).
Proof.
  intros Hperm. split.
  - intros n p d Hd.
    destruct (outcome (get_latest_block_height E cli)) as [[H|]|e] eqn:HH.
    2:{ revert Hd. unfold get_latest_n_blocks.
        rewrite (outcome_bind _ _ None HH). simpl. intros [= <-].
        split; [constructor|]. intros h b Hin. by apply elem_of_nil in Hin. }
    2:{ revert Hd. unfold get_latest_n_blocks.
        by rewrite (outcome_bind_raise _ _ e HH). }
    destruct (pool_accepts E p) eqn:Hp.
    2:{ revert Hd. unfold get_latest_n_blocks.
        rewrite (outcome_bind _ _ (Some H) HH).
        unfold open_pool. rewrite Hp. by destruct (n >? H + 1). }
    revert Hd. rewrite (get_latest_n_blocks_run E cli n H p HH Hp).
    cbn [outcome events fst snd].
    set (hs := map (fun i => H - i) (range (if n >? H + 1 then H + 1 else n))).
    intros Hloop.
    destruct (blocks_loop_inv _ _ _ [] d Hloop) as [Hnd Hin]; [constructor|].
    split; [done|]. intros h b [Hin0|(dd & Hdd & Hhb)]%Hin.
    { by apply elem_of_nil in Hin0. }
    rewrite (Hperm _ _) in Hdd.
    apply list_elem_of_fmap in Hdd as (h' & Hh' & Hmem).
    symmetry in Hh'.
    destruct (get_block_data_entries E cli h' dd Hh') as [->|[b' ->]].
    { by apply elem_of_nil in Hhb. }
    apply list_elem_of_singleton in Hhb as [= -> ->]. split; [|done].
    rewrite !submitted_app.
    rewrite (submitted_flat_map FetchBlock) by apply get_block_data_plain.
    rewrite !elem_of_app. right; right; right; left.
    apply list_elem_of_fmap. by exists h'.
  - intros blocks_dict p txids txs Hids Hnd Htxs.
    destruct (pool_accepts E p) eqn:Hp.
    2:{ revert Htxs. unfold get_all_transactions. rewrite Hids.
        unfold open_pool. by rewrite Hp. }
    revert Htxs. rewrite (get_all_transactions_run E cli _ p txids Hids Hp).
    cbn [outcome snd]. intros (vals & Hvals & ->)%transactions_loop_inv.
    pose proof (Hperm _ (map (fun t => outcome (get_transaction_data E cli t))
                           txids)) as Hp'.
    apply Permutation_map_inv in Hp' as (txids' & Hcompleted & Hperm').
    rewrite Hcompleted in Hvals.
    assert (HF : Forall2 (fun t r => outcome (get_transaction_data E cli t)
                                     = Ok r) txids' vals).
    { clear -Hvals. revert vals Hvals.
      induction txids' as [|t l IH]; intros [|v vals]; simpl; try done.
      intros [= Ht Hl]. constructor; [done|by apply IH]. }
    destruct (Forall2_filter_r _ (fun v => truthy v = true) _ _ HF)
      as (kept & Hsub & Hkept).
    exists kept. split; [|split; [|done]].
    + apply (sublist_NoDup kept txids'); [by rewrite <- Hperm'|done].
    + intros t Ht. rewrite Hperm'. by apply (elem_of_sublist kept txids').
Qed.

Lemma fetch_batch_keys_unique_witness :
  exists d txs,
    outcome (get_latest_n_blocks demo_env demo_cli 2 (Some 8)) = Ok d
    /\ NoDup (keys d)
    /\ outcome (get_all_transactions demo_env demo_cli d (Some 8)) = Ok txs
    /\ exists kept,
         NoDup kept
         /\ Forall2 (fun t r =>
                       outcome (get_transaction_data demo_env demo_cli t) = Ok r)
              kept txs.
Proof.
  destruct (fetch_batch_keys_unique demo_env demo_cli
              demo_env_as_completed_perm) as [Hblocks Htxs].
  eexists; eexists.
  split; [vm_compute; reflexivity|].
  split; [apply (Hblocks 2 (Some 8)); vm_compute; reflexivity|].
  split; [vm_compute; reflexivity|].
  edestruct (Htxs [(1, demo_json_block_1); (2, demo_json_block_2)]
    (Some 8) [JStr (lit "cc"); JStr (lit "aa"); JStr (lit "bb")])
    as (kept & Hnd & _ & Hkept).
  - reflexivity.
  - repeat apply NoDup_cons_2; try apply NoDup_nil_2;
      rewrite ?elem_of_cons, elem_of_nil; intros H;
      repeat destruct H as [H|H]; try discriminate H; exact H.
  - vm_compute; reflexivity.
  - exists kept. split; [exact Hnd|exact Hkept].
Defined.

(** * Facts about the hourly aggregation *)

Lemma hour_of_interval (t h : Z) :
  hour_of t = h <-> 3600 * h <= t < 3600 * h + 3600.
Proof.
  unfold hour_of. pose proof (Z.div_mod t 3600 ltac:(lia)) as Hdm.
  pose proof (Z.mod_pos_bound t 3600 ltac:(lia)) as Hmod.
  split; [intros <-; lia|intros Hb].
  symmetry. apply (Z.div_unique t 3600 h (t - 3600 * h)); lia.
Qed.

Lemma hour_of_mono (t1 t2 : Z) : t1 <= t2 -> hour_of t1 <= hour_of t2.
Proof. intros H. apply Z.div_le_mono; lia. Qed.

Lemma fold_min_spec (t0 : Z) (l : list Z) :
  let m := fold_right Z.min t0 l in
  m ∈ t0 :: l /\ Forall (fun t => m <= t) (t0 :: l).
Proof.
  induction l as [|t l [IHin IHle]]; simpl.
  - split; [apply elem_of_cons; by left|]. repeat constructor. lia.
  - apply Forall_cons in IHle as [IH0 IHl]. split.
    + destruct (Z.min_spec t (fold_right Z.min t0 l)) as [[_ ->]|[_ ->]].
      * apply elem_of_cons; right. apply elem_of_cons; by left.
      * apply elem_of_cons in IHin as [->|?];
          [apply elem_of_cons; by left|].
        apply elem_of_cons; right. apply elem_of_cons; by right.
    + repeat apply Forall_cons_2; [lia|lia|].
      eapply Forall_impl; [exact IHl|]. simpl. intros; lia.
Qed.

Lemma fold_max_spec (t0 : Z) (l : list Z) :
  let m := fold_right Z.max t0 l in
  m ∈ t0 :: l /\ Forall (fun t => t <= m) (t0 :: l).
Proof.
  induction l as [|t l [IHin IHle]]; simpl.
  - split; [apply elem_of_cons; by left|]. repeat constructor. lia.
  - apply Forall_cons in IHle as [IH0 IHl]. split.
    + destruct (Z.max_spec t (fold_right Z.max t0 l)) as [[_ ->]|[_ ->]].
      * apply elem_of_cons in IHin as [->|?];
          [apply elem_of_cons; by left|].
        apply elem_of_cons; right. apply elem_of_cons; by right.
      * apply elem_of_cons; right. apply elem_of_cons; by left.
    + repeat apply Forall_cons_2; [lia|lia|].
      eapply Forall_impl; [exact IHl|]. simpl. intros; lia.
Qed.

Section Resample.

Context {R : Type}.

(** A bin of [resample('H')] is labelled with the start of an hour and holds
    the rows whose timestamp lies in the hour that starts there. *)
Lemma resample_H_bin (df : frame R) (label : Z) (rows : list R) :
  (label, rows) ∈ resample_H df ->
  (3600 | label)
  /\ rows = map snd (filter (fun p => label <= p.1 < label + 3600) df).
Proof.
  destruct df as [|[t0 r0] df']; [by intros ?%elem_of_nil|].
  unfold resample_H. intros (h & [= -> ->] & _)%list_elem_of_fmap.
  split; [by exists h; lia|]. f_equal. apply list_filter_iff. intros p.
  rewrite <- hour_of_interval. split; [intros ?%Is_true_true%Z.eqb_eq|];
    [done|intros ->; apply Is_true_true, Z.eqb_refl].
Qed.

Lemma resample_H_labels_NoDup (df : frame R) :
  NoDup (map fst (resample_H df)).
Proof.
  destruct df as [|[t0 r0] df']; [constructor|].
  unfold resample_H. rewrite map_map. simpl.
  assert (Inj (=) (=) (fun h : Z => 3600 * h)) by (intros x y ?; lia).
  apply (NoDup_fmap_2 (fun h => 3600 * h)), NoDup_seqZ.
Qed.

(** Every row falls in a bin: the one of its hour. *)
Lemma resample_H_covers (df : frame R) (t : Z) (r : R) :
  (t, r) ∈ df ->
  (3600 * hour_of t,
   map snd (filter (fun p => hour_of p.1 =? hour_of t) df)) ∈ resample_H df.
Proof.
  destruct df as [|[t0 r0] df']; [by intros ?%elem_of_nil|]. intros Hin.
  unfold resample_H. apply list_elem_of_fmap. exists (hour_of t).
  split; [done|]. apply elem_of_seqZ.
  destruct (fold_min_spec t0 (map fst df')) as [_ Hmin].
  destruct (fold_max_spec t0 (map fst df')) as [_ Hmax].
  assert (Ht : t ∈ t0 :: map fst df').
  { change (t0 :: map fst df') with (map fst ((t0, r0) :: df')).
    apply list_elem_of_fmap. by exists (t, r). }
  rewrite Forall_forall in Hmin, Hmax.
  pose proof (hour_of_mono _ _ (Hmin t Ht)).
  pose proof (hour_of_mono _ _ (Hmax t Ht)). lia.
Qed.

End Resample.

(** C6.  For every transaction frame, [calculate_transactions_per_hour]
    gives each hour bin one row, every record falls in a bin, and the
    [transactions_per_hour] of the bin labelled [label] is the number of
    records whose timestamp lies in the hour from [label] to
    [label + 3600]. *)
Theorem transactions_per_hour_counts_records {cell : Type}
    (df : frame (@transaction_row cell)) :
  NoDup (map fst (calculate_transactions_per_hour df))
  /\ (forall t r, (t, r) ∈ df ->
        exists c, (3600 * hour_of t, c) ∈ calculate_transactions_per_hour df)
  /\ (forall label c,
        (label, c) ∈ calculate_transactions_per_hour df ->
        c = length (filter (fun p => label <= p.1 < label + 3600) df)).
Proof.
  unfold calculate_transactions_per_hour. split; [|split].
  - rewrite map_map. simpl. apply (resample_H_labels_NoDup df).
  - intros t r Hin. eexists. apply list_elem_of_fmap.
    eexists. split; [|apply (resample_H_covers df t r Hin)]. done.
  - intros label c ([l rows] & [= -> ->] & Hbin)%list_elem_of_fmap.
    apply resample_H_bin in Hbin as [_ ->]. simpl. by rewrite length_map.
Qed.

(** A frame whose timestamps all lie in one hour has exactly one bin, with
    all its rows. *)
Lemma resample_H_one_hour {R : Type} (df : frame R) (h : Z) :
  df <> [] ->
  Forall (fun p => hour_of p.1 = h) df ->
  resample_H df = [(3600 * h, map snd df)].
Proof.
  intros Hne Hall. destruct df as [|[t0 r0] df']; [done|].
  assert (Hts : Forall (fun t => hour_of t = h) (t0 :: map fst df')).
  { change (t0 :: map fst df') with (map fst ((t0, r0) :: df')).
    by apply Forall_fmap. }
  rewrite Forall_forall in Hts.
  destruct (fold_min_spec t0 (map fst df')) as [Hmin _].
  destruct (fold_max_spec t0 (map fst df')) as [Hmax _].
  unfold resample_H. rewrite (Hts _ Hmin), (Hts _ Hmax).
  replace (h - h + 1) with 1 by lia. change (seqZ h 1) with [h].
  simpl map at 1. do 3 f_equal.
  clear -Hall. revert Hall. generalize ((t0, r0) :: df') as l. intros l.
  induction 1 as [|p l Hp _ IH]; [done|].
  rewrite filter_cons, decide_True; [by rewrite IH|].
  apply Is_true_true, Z.eqb_eq, Hp.
Qed.

(** ** The insertion sort is an ascending sort *)

Lemma insert_by_time_perm {R : Type} (x : Z * R) (l : frame R) :
  Permutation (insert_by_time x l) (x :: l).
Proof.
  induction l as [|y l IH]; simpl; [done|].
  destruct (x.1 <=? y.1); [done|].
  rewrite IH. apply perm_swap.
Qed.

Lemma insertion_sort_index_perm (R : Type) (df : frame R) :
  Permutation (insertion_sort_index R df) df.
Proof.
  unfold insertion_sort_index. induction df as [|x df IH]; simpl; [done|].
  by rewrite insert_by_time_perm, IH.
Qed.

Lemma insert_by_time_sorted {R : Type} (x : Z * R) (l : frame R) :
  StronglySorted (fun a b => a.1 <= b.1) l ->
  StronglySorted (fun a b => a.1 <= b.1) (insert_by_time x l).
Proof.
  induction 1 as [|y l Hl IH Hy]; simpl; [repeat constructor|].
  destruct (Z.leb_spec x.1 y.1) as [Hle|Hgt].
  - constructor; [by constructor|]. constructor; [done|].
    eapply Forall_impl; [exact Hy|]. simpl. intros; lia.
  - constructor; [done|]. rewrite insert_by_time_perm.
    constructor; [lia|done].
Qed.

Lemma insertion_sort_index_sorted (R : Type) (df : frame R) :
  Sorted (fun a b => a.1 <= b.1) (insertion_sort_index R df).
Proof.
  apply StronglySorted_Sorted. unfold insertion_sort_index.
  induction df as [|x df IH]; simpl; [constructor|].
  by apply insert_by_time_sorted.
Qed.

Lemma StronglySorted_filter {A : Type} (R : relation A) (P : A -> Prop)
    `{!forall x, Decision (P x)} (l : list A) :
  StronglySorted R l -> StronglySorted R (filter P l).
Proof.
  induction 1 as [|x l Hl IH Hx]; [constructor|].
  rewrite filter_cons. destruct (decide (P x)); [|done].
  constructor; [done|]. rewrite Forall_forall in Hx |- *.
  intros y [_ Hy]%list_elem_of_filter. by apply Hx.
Qed.

Section Closing.

Context {cell : Type}.
Variable isna : cell -> bool.
Variable sort_index : forall R : Type, frame R -> frame R.

Hypothesis sort_index_perm :
  forall (R : Type) (df : frame R), Permutation (sort_index R df) df.
Hypothesis sort_index_sorted :
  forall (R : Type) (df : frame R),
    Sorted (fun a b => a.1 <= b.1) (sort_index R df).

Lemma last_valid_snoc (column : list cell) (x : cell) :
  last_valid isna (column ++ [x])
  = if isna x then last_valid isna column else Some x.
Proof. unfold last_valid. by rewrite fold_left_app. Qed.

(** What the [last] reducer picks: a value that is not missing and after
    which the bin holds missing values only; nothing exactly when the whole
    bin is missing. *)
Lemma last_valid_map {X : Type} (f : X -> cell) (l : list X) :
  match last_valid isna (map f l) with
  | Some d =>
      exists l1 x l2,
        l = l1 ++ x :: l2 /\ f x = d /\ isna d = false
        /\ Forall (fun y => isna (f y) = true) l2
  | None => Forall (fun y => isna (f y) = true) l
  end.
Proof.
  induction l as [|x l IH] using rev_ind; [constructor|].
  rewrite map_app. simpl map. rewrite last_valid_snoc.
  destruct (isna (f x)) eqn:Hx.
  - destruct (last_valid isna (map f l)) as [d|].
    + destruct IH as (l1 & y & l2 & -> & Hy & Hd & Hl2).
      exists l1, y, (l2 ++ [x]). rewrite <- app_assoc. split; [done|].
      split; [done|]. split; [done|].
      apply Forall_app. split; [done|]. by constructor.
    + apply Forall_app. split; [done|]. by constructor.
  - exists l, x, []. by repeat split.
Qed.

(** The value of a row of the table: the difficulty of a block of that hour
    whose difficulty is not missing and after which, in time, every block of
    the hour has a missing difficulty; the missing value when no block of the
    hour has one; the difficulty of the block of the hour that comes last in
    time whenever that block has one. *)
Lemma closing_difficulty_of_row
    (block_data : list (@block_record cell)) (label : Z) (v : option cell) :
  (label, v) ∈ calculate_hourly_closing_difficulty isna
                 (process_block_data sort_index block_data) ->
  match v with
  | Some d =>
      isna d = false
      /\ exists r,
           r ∈ block_data /\ label <= b_time r < label + 3600
           /\ b_difficulty r = d
           /\ forall r', r' ∈ block_data ->
                label <= b_time r' < label + 3600 ->
                b_time r < b_time r' -> isna (b_difficulty r') = true
  | None =>
      forall r, r ∈ block_data -> label <= b_time r < label + 3600 ->
                isna (b_difficulty r) = true
  end
  /\ (forall r,
        r ∈ block_data -> label <= b_time r < label + 3600 ->
        (forall r', r' ∈ block_data -> label <= b_time r' < label + 3600 ->
                    r' = r \/ b_time r' < b_time r) ->
        isna (b_difficulty r) = false ->
        v = Some (b_difficulty r)).
Proof.
  unfold calculate_hourly_closing_difficulty, process_block_data.
  set (df := sort_index _ (map block_indexed block_data)).
  intros ([l rows] & [= <- ->] & Hbin)%list_elem_of_fmap. simpl.
  apply resample_H_bin in Hbin as [_ ->].
  set (P := fun p : Z * @block_row cell => label <= p.1 < label + 3600).
  set (F := filter P df).
  assert (Hdf : forall p, p ∈ df <-> exists r, r ∈ block_data /\ p = block_indexed r).
  { intros p. subst df. rewrite (sort_index_perm _ _), list_elem_of_fmap.
    split; intros (r & ? & ?); by exists r. }
  assert (HF : forall r, r ∈ block_data -> label <= b_time r < label + 3600 ->
                         block_indexed r ∈ F).
  { intros r Hr Hb. apply list_elem_of_filter. split; [done|].
    apply Hdf. by exists r. }
  assert (Hsorted : StronglySorted (fun a b : Z * @block_row cell => a.1 <= b.1) F).
  { apply StronglySorted_filter, Sorted_StronglySorted, sort_index_sorted.
    intros a b c ??. simpl in *. lia. }
  rewrite map_map.
  pose proof (last_valid_map (fun p : Z * @block_row cell => difficulty p.2) F)
    as Hlast.
  assert (Hfirst :
    match last_valid isna (map (fun p : Z * @block_row cell => difficulty p.2) F) with
    | Some d =>
        isna d = false
        /\ exists r,
             r ∈ block_data /\ label <= b_time r < label + 3600
             /\ b_difficulty r = d
             /\ forall r', r' ∈ block_data ->
                  label <= b_time r' < label + 3600 ->
                  b_time r < b_time r' -> isna (b_difficulty r') = true
    | None =>
        forall r, r ∈ block_data -> label <= b_time r < label + 3600 ->
                  isna (b_difficulty r) = true
    end).
  { destruct (last_valid isna _) as [d|].
    - destruct Hlast as (l1 & x & l2 & HFeq & Hx & Hd & Hl2).
      split; [done|].
      assert (Hxin : x ∈ F) by (rewrite HFeq, elem_of_app, elem_of_cons; auto).
      apply list_elem_of_filter in Hxin as [HPx [r [Hr ->]]%Hdf].
      exists r. split; [done|]. split; [exact HPx|]. split; [exact Hx|].
      intros r' Hr' Hb' Hlt.
      pose proof (HF r' Hr' Hb') as Hin. rewrite HFeq in Hin, Hsorted.
      apply elem_of_app in Hin as [Hin|Hin].
      + pose proof (StronglySorted_app_1_elem_of _ _ _ _ _ Hsorted Hin
                      (list_elem_of_here _ _)) as Hle.
        simpl in Hle. lia.
      + apply elem_of_cons in Hin as [Heq|Hin].
        * apply (f_equal fst) in Heq. simpl in Heq. lia.
        * rewrite Forall_forall in Hl2. exact (Hl2 _ Hin).
    - intros r Hr Hb. rewrite Forall_forall in Hlast.
      exact (Hlast _ (HF r Hr Hb)). }
  split; [exact Hfirst|].
  intros r Hr Hb Hmax Hna.
  destruct (last_valid isna _) as [d|].
  - destruct Hfirst as (_ & r0 & Hr0 & Hb0 & <- & Hlater).
    destruct (Hmax r0 Hr0 Hb0) as [->|Hlt]; [done|].
    rewrite (Hlater r Hr Hb Hlt) in Hna. discriminate.
  - rewrite (Hfirst r Hr Hb) in Hna. discriminate.
Qed.

End Closing.

(** C5, as the specification words it, fails: of two blocks in one hour, the
    later without a difficulty, the bin gets the difficulty of the earlier
    block, not the (missing) one of the block that comes last. *)
Lemma closing_difficulty_skips_missing_counterexample :
  ~ closing_is_difficulty_of_last_block demo_isna insertion_sort_index
      [demo_block 10 (Some 1); demo_block 20 None].
Proof.
  intros Hclaim.
  specialize (Hclaim 0 (Some (Some 1)) (demo_block 20 None)).
  assert (Hv : Some (Some 1) = cell_value demo_isna (b_difficulty (demo_block 20 None))).
  { apply Hclaim.
    - vm_compute. apply list_elem_of_here.
    - apply elem_of_cons; right. apply list_elem_of_here.
    - simpl. lia.
    - intros r' Hr' _.
      apply elem_of_cons in Hr' as [->|Hr']; [right; simpl; lia|].
      apply list_elem_of_singleton in Hr' as ->. by left. }
  discriminate Hv.
Qed.

(** * Facts about persistence *)










(** * Further facts about the fetchers *)

(** The three soft misses of [get_transaction_data]: on an output that holds
    the error code, on an empty output and on an output the parser rejects,
    the result is [None]. *)
Lemma get_transaction_data_skips (E : env) (cli : NexaCLI) (txid : json)
    (l : list event) (output : str) :
  run_command E cli
    (lit "getrawtransaction " ++ format_value E txid ++ lit " 1")
  = (l, Ok (Some output)) ->
  contains (lit "error code: -5") output = true
  \/ output = []
  \/ json_loads E output = Raise JSONDecodeError ->
  outcome (get_transaction_data E cli txid) = Ok JNull.
Proof.
  intros Hr Hcase. unfold get_transaction_data. rewrite Hr.
  cbn -[lit contains].
  destruct (contains (lit "error code: -5") output) eqn:Hc; [done|].
  destruct Hcase as [?|[->|Hj]]; [done|done|].
  destruct output as [|c output]; [done|]. cbn -[lit]. by rewrite Hj.
Qed.

Lemma Forall_exists_Forall2 {A B : Type} (R : A -> B -> Prop) (l : list A) :
  Forall (fun x => exists y, R x y) l -> exists k, Forall2 R l k.
Proof.
  induction 1 as [|x l [y Hy] _ [k Hk]]; [by exists []|].
  exists (y :: k). by constructor.
Qed.

(** X3.  When every lookup of a block's listed ids returns, the list that
    [get_all_transactions] returns for that block is no longer than the
    block's declared transaction count (taken to be the number of listed
    ids); it holds truthy records only, each the result of the lookup of a
    listed id. *)
Theorem get_all_transactions_at_most_declared_count (E : env) (cli : NexaCLI)
    (h : Z) (kv : list (str * json)) (ids : list json) (c : Z)
    (p : option Z) :
  (forall (A : Type) (l : list A), Permutation (as_completed E A l) l) ->
  pool_accepts E p = true ->
  assoc (lit "txid") kv = Some (JArr ids) ->
  assoc (lit "txcount") kv = Some (JInt c) ->
  c = Z.of_nat (length ids) ->
  Forall (fun t => exists r, outcome (get_transaction_data E cli t) = Ok r)
    ids ->
  exists txs,
    outcome (get_all_transactions E cli [(h, JObj kv)] p) = Ok txs
    /\ Z.of_nat (length txs) <= c
    /\ Forall (fun v => truthy v = true) txs
    /\ forall r, r ∈ txs ->
         exists t, t ∈ ids /\ outcome (get_transaction_data E cli t) = Ok r.
Proof.
  intros Hperm Hp Hids _ -> Hall.
  assert (Htx : all_txids (values [(h, JObj kv)]) = Ok ids).
  { cbn -[lit assoc]. rewrite Hids. cbn. by rewrite app_nil_r. }
  rewrite (get_all_transactions_run E cli _ p ids Htx Hp). cbn [outcome snd].
  destruct (Forall_exists_Forall2 _ _ Hall) as [vals Hvals].
  assert (Hfut : map (fun t => outcome (get_transaction_data E cli t)) ids
                 = map Ok vals).
  { clear -Hvals. induction Hvals as [|t v l k Htv _ IH]; [done|].
    simpl. by rewrite Htv, IH. }
  rewrite Hfut.
  pose proof (Hperm _ (map Ok vals)) as Hc.
  apply Permutation_map_inv in Hc as (vals' & -> & Hperm').
  rewrite transactions_loop_returns. eexists. split; [reflexivity|].
  simpl. split; [|split].
  - apply Nat2Z.inj_le. etrans; [apply length_filter|].
    by rewrite <- Hperm', <- (Forall2_length _ _ _ Hvals).
  - apply Forall_forall. by intros v [? _]%list_elem_of_filter.
  - intros r [_ Hr]%list_elem_of_filter. rewrite <- Hperm' in Hr.
    apply list_elem_of_lookup in Hr as [i Hi].
    destruct (Forall2_lookup_r _ _ _ _ _ Hvals Hi) as (t & Ht & Htr).
    exists t. split; [by eapply list_elem_of_lookup_2|done].
Qed.

Lemma dict_set_fresh (d : dict) (k : Z) (v : json) :
  k ∉ keys d -> dict_set d k v = d ++ [(k, v)].
Proof.
  unfold keys. induction d as [|[k' v'] d IH]; simpl; [done|].
  rewrite not_elem_of_cons. intros [Hne Hk].
  destruct (Z.eqb_spec k' k) as [->|_]; [done|]. by rewrite IH.
Qed.

(** With keys that are all new, the collecting loop appends: what it returns
    is the dict it started with followed by the dicts of the futures, in
    completion order. *)
Lemma blocks_loop_collects (total i : Z) (hs : list Z) (ds : list dict)
    (d0 d : dict) :
  Forall2 (fun h dd => dd = [] \/ exists b, dd = [(h, b)]) hs ds ->
  NoDup (keys d0 ++ hs) ->
  outcome (blocks_loop total i (map Ok ds) d0) = Ok d ->
  d = d0 ++ mjoin ds.
Proof.
  intros HF. revert i d0.
  induction HF as [|h dd hs ds Hdd _ IH]; intros i d0 Hnd.
  - simpl. intros [= <-]. by rewrite app_nil_r.
  - change (map Ok (dd :: ds)) with (Ok dd :: map Ok ds).
    rewrite blocks_loop_cons, (outcome_bind _ _ dd) by done.
    match goal with |- outcome (?m ≫= _) = _ -> _ =>
      destruct (outcome m) as [[]|e] eqn:Hprog end;
      [|by rewrite (outcome_bind_raise _ _ e Hprog)].
    rewrite (outcome_bind _ _ tt Hprog).
    apply NoDup_app in Hnd as (Hd0 & Hdisj & Hhs).
    apply NoDup_cons in Hhs as [Hh Hhs].
    assert (Hfresh : h ∉ keys d0).
    { intros Hin. apply (Hdisj h Hin). apply elem_of_cons. by left. }
    assert (Hupd : dict_update d0 dd = d0 ++ dd).
    { destruct Hdd as [->|[b ->]]; [by rewrite app_nil_r|].
      by apply dict_set_fresh. }
    rewrite Hupd. intros Hloop. apply IH in Hloop.
    + rewrite Hloop. simpl. by rewrite <- app_assoc.
    + unfold keys. rewrite map_app. fold (keys d0) (keys dd).
      apply NoDup_app. split; [|split; [|done]].
      * apply NoDup_app. split; [done|]. split.
        -- intros k Hk Hk'.
           destruct Hdd as [->|[b ->]]; [by apply elem_of_nil in Hk'|].
           apply list_elem_of_singleton in Hk' as ->. done.
        -- destruct Hdd as [->|[b ->]]; [constructor|apply NoDup_singleton].
      * intros k [Hk|Hk]%elem_of_app Hk'.
        -- apply (Hdisj k Hk). apply elem_of_cons. by right.
        -- destruct Hdd as [->|[b ->]]; [by apply elem_of_nil in Hk|].
           apply list_elem_of_singleton in Hk as ->. done.
Qed.

Lemma blocks_loop_all_returned (total i : Z) (completed : list (future dict))
    (d0 d : dict) :
  outcome (blocks_loop total i completed d0) = Ok d ->
  exists ds, completed = map Ok ds.
Proof.
  revert i d0. induction completed as [|fut rest IH]; intros i d0.
  - by exists [].
  - rewrite blocks_loop_cons. destruct fut as [bd|e]; [|done].
    rewrite (outcome_bind _ _ bd) by done.
    match goal with |- outcome (?m ≫= _) = _ -> _ =>
      destruct (outcome m) as [[]|e] eqn:Hprog end;
      [|by rewrite (outcome_bind_raise _ _ e Hprog)].
    rewrite (outcome_bind _ _ tt Hprog). intros [ds ->]%IH.
    by exists (bd :: ds).
Qed.

Lemma NoDup_block_heights (H n : Z) :
  NoDup (map (fun i => H - i) (range n)).
Proof.
  assert (Inj (=) (=) (fun i : Z => H - i)) by (intros x y ?; lia).
  apply (NoDup_fmap_2 (fun i => H - i)), NoDup_seqZ.
Qed.

(** X4.  When [get_latest_n_blocks] returns, the mapping holds exactly the
    entries of the submitted fetches that returned one: a height is a key,
    with a block as its value, if and only if its fetch was submitted and
    returned that block. *)
Theorem get_latest_n_blocks_returns_fetched_entries (E : env) (cli : NexaCLI)
    (n : Z) (p : option Z) (d : dict) :
  (forall (A : Type) (l : list A), Permutation (as_completed E A l) l) ->
  outcome (get_latest_n_blocks E cli n p) = Ok d ->
  forall h b,
    (h, b) ∈ d
    <-> FetchBlock h ∈ submitted (events (get_latest_n_blocks E cli n p))
        /\ outcome (get_block_data E cli h) = Ok [(h, b)].
Proof.
  intros Hperm Hd h b.
  destruct (outcome (get_latest_block_height E cli)) as [[H|]|e] eqn:HH.
  2:{ pose proof (get_latest_block_height_plain E cli) as Hq.
      revert Hd. unfold get_latest_n_blocks.
      rewrite (outcome_bind _ _ None HH), (events_bind _ _ None HH).
      simpl. intros [= <-]. rewrite app_nil_r, (submitted_plain _ Hq).
      split; [by intros ?%elem_of_nil|by intros [?%elem_of_nil _]]. }
  2:{ revert Hd. unfold get_latest_n_blocks.
      by rewrite (outcome_bind_raise _ _ e HH). }
  destruct (pool_accepts E p) eqn:Hp.
  2:{ revert Hd. unfold get_latest_n_blocks.
      rewrite (outcome_bind _ _ (Some H) HH).
      unfold open_pool. rewrite Hp. by destruct (n >? H + 1). }
  revert Hd. rewrite (get_latest_n_blocks_run E cli n H p HH Hp).
  cbn [outcome events fst snd].
  set (hs := map (fun i => H - i) (range (if n >? H + 1 then H + 1 else n))).
  intros Hloop.
  rewrite !submitted_app.
  rewrite (submitted_flat_map FetchBlock) by apply get_block_data_plain.
  rewrite (submitted_plain _ (get_latest_block_height_plain E cli)).
  rewrite (submitted_plain _ (blocks_loop_plain _ _ _ _)).
  assert (Hnone : submitted
            (if n >? H + 1 then [Printed (MsgWarningAdjust n (H + 1))] else [])
          = []) by (by destruct (n >? H + 1)).
  rewrite Hnone.
  change (submitted [Printed (MsgStartBlocks p)]) with (@nil job).
  rewrite app_nil_r. cbn [app].
  destruct (blocks_loop_all_returned _ _ _ _ _ Hloop) as [ds Hds].
  pose proof (Hperm _ (map (fun h => outcome (get_block_data E cli h)) hs))
    as Hc.
  apply Permutation_map_inv in Hc as (hs' & Hcompleted & Hperm').
  rewrite Hds in Hcompleted, Hloop.
  assert (HF : Forall2 (fun h dd => outcome (get_block_data E cli h) = Ok dd)
                 hs' ds).
  { clear -Hcompleted. revert ds Hcompleted.
    induction hs' as [|x l IH]; intros [|dd ds]; simpl; try done.
    intros [= Hx Hl]. constructor; [done|by apply IH]. }
  apply blocks_loop_collects with (hs := hs') in Hloop.
  2:{ eapply Forall2_impl; [exact HF|]. intros x dd Hx.
      by apply (get_block_data_entries E cli). }
  2:{ simpl. rewrite <- Hperm'. apply NoDup_block_heights. }
  simpl in Hloop. subst d.
  rewrite list_elem_of_fmap. setoid_rewrite Hperm'.
  split.
  - intros (dd & Hin & Hdd)%list_elem_of_join.
    apply list_elem_of_lookup in Hdd as [i Hi].
    destruct (Forall2_lookup_r _ _ _ _ _ HF Hi) as (x & Hx & Hfetch).
    destruct (get_block_data_entries E cli x dd Hfetch) as [->|[b' ->]];
      [by apply elem_of_nil in Hin|].
    apply list_elem_of_singleton in Hin as [= -> ->].
    split; [|done]. exists x. split; [done|by eapply list_elem_of_lookup_2].
  - intros [(x & [= <-] & Hx) Hfetch].
    apply list_elem_of_lookup in Hx as [i Hi].
    destruct (Forall2_lookup_l _ _ _ _ _ HF Hi) as (dd & Hdd & Hfetch').
    rewrite Hfetch in Hfetch'. injection Hfetch' as <-.
    apply list_elem_of_join. exists [(h, b)].
    split; [apply list_elem_of_here|by eapply list_elem_of_lookup_2].
Qed.

Lemma get_all_transactions_at_most_declared_count_witness :
  exists txs,
    outcome (get_all_transactions demo_env demo_cli
               [(2, demo_json_block_2)] (Some 8)) = Ok txs
    /\ Z.of_nat (length txs) <= 2.
Proof.
  destruct (get_all_transactions_at_most_declared_count demo_env demo_cli 2
              [(lit "height", JInt 2); (lit "txcount", JInt 2);
               (lit "txid", JArr [JStr (lit "aa"); JStr (lit "bb")])]
              [JStr (lit "aa"); JStr (lit "bb")] 2 (Some 8)
              demo_env_as_completed_perm)
    as (txs & Htxs & Hlen & _).
  - reflexivity.
  - reflexivity.
  - reflexivity.
  - reflexivity.
  - repeat constructor; eexists; vm_compute; reflexivity.
  - exists txs. split; [exact Htxs|exact Hlen].
Defined.

Lemma get_latest_n_blocks_returns_fetched_entries_witness :
  (1, demo_json_block_1)
    ∈ [(1, demo_json_block_1); (2, demo_json_block_2)]
  <-> FetchBlock 1
        ∈ submitted (events (get_latest_n_blocks demo_env demo_cli 2 (Some 8)))
      /\ outcome (get_block_data demo_env demo_cli 1)
         = Ok [(1, demo_json_block_1)].
Proof.
  apply (get_latest_n_blocks_returns_fetched_entries demo_env demo_cli 2
           (Some 8)).
  - apply demo_env_as_completed_perm.
  - vm_compute. reflexivity.
Defined.

(** * More on the command executor and the height query *)

Lemma lstrip_head (s : str) :
  forall c, head (lstrip s) = Some c -> isspace c = false.
Proof.
  induction s as [|a s IH]; simpl; [done|].
  destruct (isspace a) eqn:Ha; [done|]. simpl. by intros c [= <-].
Qed.

Lemma lstrip_id (s : str) :
  (forall c, head s = Some c -> isspace c = false) -> lstrip s = s.
Proof.
  destruct s as [|a s]; [done|]. simpl. intros Hh. by rewrite (Hh a).
Qed.

Lemma lstrip_snoc (s : str) (c : N) :
  isspace c = false -> lstrip (s ++ [c]) = lstrip s ++ [c].
Proof.
  intros Hc. induction s as [|a s IH]; simpl; [by rewrite Hc|].
  by destruct (isspace a).
Qed.

Lemma rstrip_cons (c : N) (s : str) :
  isspace c = false -> rstrip (c :: s) = c :: rstrip s.
Proof.
  intros Hc. unfold rstrip. simpl.
  by rewrite (lstrip_snoc _ _ Hc), rev_app_distr.
Qed.

Lemma head_rev {A : Type} (l : list A) : head (rev l) = last l.
Proof.
  induction l as [|x l IH] using rev_ind; [done|].
  by rewrite rev_app_distr, last_snoc.
Qed.

Lemma last_rev {A : Type} (l : list A) : last (rev l) = head l.
Proof. by rewrite <- head_rev, rev_involutive. Qed.

Lemma strip_ends (s : str) (c : N) :
  head (strip s) = Some c \/ last (strip s) = Some c -> isspace c = false.
Proof.
  unfold strip. intros [Hh|Hl].
  - pose proof (lstrip_head s) as Hs.
    destruct (lstrip s) as [|a t]; [done|].
    rewrite (rstrip_cons a t) in Hh by (by apply Hs).
    injection Hh as <-. by apply Hs.
  - unfold rstrip in Hl. rewrite last_rev in Hl.
    by apply (lstrip_head (rev (lstrip s))).
Qed.

Lemma strip_id (s : str) :
  (forall c, head s = Some c \/ last s = Some c -> isspace c = false) ->
  strip s = s.
Proof.
  intros Hs. unfold strip.
  rewrite (lstrip_id s) by (intros c ?; apply Hs; by left).
  unfold rstrip. rewrite lstrip_id, rev_involutive; [done|].
  intros c Hc. apply Hs. right. by rewrite <- head_rev.
Qed.

Lemma strip_idemp (s : str) : strip (strip s) = strip s.
Proof. apply strip_id, strip_ends. Qed.

Lemma run_command_trimmed (E : env) (cli : NexaCLI) (command s : str) :
  outcome (run_command E cli command) = Ok (Some s) ->
  strip s = s
  /\ forall c, head s = Some c \/ last s = Some c -> isspace c = false.
Proof.
  intros Hs.
  assert (Hends : forall c, head s = Some c \/ last s = Some c ->
                            isspace c = false).
  { revert Hs. unfold run_command.
    destruct (node E _) as [out err|e]; simpl.
    - destruct (str_truthy out); simpl.
      + intros [= <-]. apply strip_ends.
      + destruct (str_truthy err); simpl; intros [= <-] c [?|?]; done.
    - intros [= <-] c [?|?]; done. }
  split; [by apply strip_id|done].
Qed.

(** X5.  Whenever [run_command] returns a string, the string is trimmed: it
    neither starts nor ends with a whitespace character, so that stripping
    it again, as [get_latest_block_height] and [get_block_data] do, leaves
    it unchanged. *)
Theorem run_command_returns_trimmed_text (E : env) (cli : NexaCLI)
    (command s : str) :
  outcome (run_command E cli command) = Ok (Some s) ->
  strip s = s
  /\ forall c, head s = Some c \/ last s = Some c -> isspace c = false.
Proof. apply run_command_trimmed. Qed.

Lemma run_command_returns_trimmed_text_witness :
  strip (lit "h2") = lit "h2".
Proof.
  destruct (run_command_returns_trimmed_text demo_env demo_cli
              (lit "getblockhash 2") (lit "h2")) as [Hstrip _].
  - vm_compute. reflexivity.
  - exact Hstrip.
Defined.

Lemma lit_String (c : ascii) (s : string) :
  lit (String c s) = N_of_ascii c :: lit s.
Proof. reflexivity. Qed.

Lemma pretty_N_char_digit (E : env) (d : N) :
  (d < 10)%N ->
  isdigit_cp E (N_of_ascii (pretty_N_char d)) = true
  /\ decimal_cp E (N_of_ascii (pretty_N_char d)) = Some d.
Proof.
  intros Hd.
  assert (Hcases : (d = 0 \/ d = 1 \/ d = 2 \/ d = 3 \/ d = 4 \/ d = 5
                    \/ d = 6 \/ d = 7 \/ d = 8 \/ d = 9)%N) by lia.
  repeat destruct Hcases as [->|Hcases]; try subst d; by split.
Qed.

(** The digits that [pretty] writes for a natural number are ASCII digits,
    and reading them from left to right gives the number back. *)
Lemma pretty_N_go_digits (E : env) (x : N) :
  forall s, exists ds,
    lit (pretty_N_go x s) = ds ++ lit s
    /\ forallb (isdigit_cp E) ds = true
    /\ ((0 < x)%N -> ds <> [])
    /\ forall acc r,
         int_digits E acc (ds ++ r)
         = int_digits E (acc * 10 ^ Z.of_nat (length ds) + Z.of_N x) r.
Proof.
  induction x as [x IH] using (well_founded_induction N.lt_wf_0). intros s.
  destruct (decide (0 < x)%N) as [Hx|Hx].
  - rewrite (pretty_N_go_step x s Hx).
    destruct (IH (x `div` 10)%N (N.div_lt x 10 Hx eq_refl)
                (String (pretty_N_char (x `mod` 10)) s))
      as (ds & Hlit & Hdig & _ & Hint).
    destruct (pretty_N_char_digit E (x `mod` 10)%N) as [Hc1 Hc2];
      [by apply N.mod_lt|].
    exists (ds ++ [N_of_ascii (pretty_N_char (x `mod` 10))]).
    split; [|split; [|split]].
    + by rewrite Hlit, lit_String, <- app_assoc.
    + rewrite forallb_app, Hdig. simpl. by rewrite Hc1.
    + intros _. by destruct ds.
    + intros acc r. rewrite <- app_assoc, Hint. simpl. rewrite Hc2.
      f_equal. rewrite length_app. simpl length.
      rewrite Nat2Z.inj_add, Z.pow_add_r by lia.
      pose proof (N.div_mod x 10 ltac:(done)) as Hdm.
      change (10 ^ Z.of_nat 1) with 10. lia.
  - assert (x = 0%N) as -> by lia. rewrite pretty_N_go_0.
    exists []. split; [done|]. split; [done|]. split; [lia|].
    intros acc r. simpl. f_equal. lia.
Qed.

(** The decimal numeral of a height that is not negative: ASCII digits, at
    least one, that [int] reads as the height. *)
Lemma str_of_Z_digits (E : env) (H : Z) :
  0 <= H ->
  str_of_Z H <> []
  /\ forallb (isdigit_cp E) (str_of_Z H) = true
  /\ int_digits E 0 (str_of_Z H) = Some H.
Proof.
  intros HH. unfold str_of_Z.
  destruct H as [|q|q]; [by repeat split| |lia].
  change (pretty (Z.pos q)) with (pretty (N.pos q)).
  unfold pretty, pretty_N. rewrite decide_False by done.
  destruct (pretty_N_go_digits E (N.pos q) "") as (ds & Hlit & Hdig & Hne & Hint).
  change (lit "") with (@nil N) in Hlit. rewrite app_nil_r in Hlit.
  rewrite Hlit. split; [by apply Hne|]. split; [done|].
  specialize (Hint 0 []). rewrite app_nil_r in Hint. rewrite Hint.
  simpl. f_equal.
Qed.

(** X6.  The height query reads the node's answer as a decimal numeral:
    when the process prints the decimal digits of a height [H] that is not
    negative, with any whitespace around them (and no more digits than [int]
    accepts), [get_latest_block_height] returns [H] and prints nothing. *)
Theorem get_latest_block_height_reads_decimal (E : env) (cli : NexaCLI)
    (H : Z) (stdout stderr : str) :
  0 <= H ->
  node E (full_command cli (lit "getblockcount")) = Completed stdout stderr ->
  strip stdout = str_of_Z H ->
  match int_max_str_digits E with
  | Some m => (length (str_of_Z H) <= m)%nat
  | None => True
  end ->
  get_latest_block_height E cli = ([], Ok (Some H)).
Proof.
  intros HH Hn Hs Hmax.
  destruct (str_of_Z_digits E H HH) as (Hne & Hdig & Hint).
  assert (Hout : str_truthy stdout = true).
  { destruct stdout; [|done]. by rewrite <- Hs in Hne. }
  unfold get_latest_block_height, run_command. rewrite Hn, Hout.
  cbn -[lit strip]. rewrite strip_idemp, Hs.
  unfold isdigit. rewrite Hdig.
  destruct (str_of_Z H) as [|c s] eqn:Hstr; [done|].
  cbn -[lit]. unfold py_int.
  assert (Hlim : match int_max_str_digits E with
                 | Some m => (m <? length (c :: s))%nat
                 | None => false
                 end = false).
  { destruct (int_max_str_digits E); [|done]. by apply Nat.ltb_ge. }
  rewrite Hlim, Hint. reflexivity.
Qed.

Lemma get_latest_block_height_reads_decimal_witness :
  get_latest_block_height demo_env demo_cli = ([], Ok (Some 2)).
Proof.
  apply (get_latest_block_height_reads_decimal demo_env demo_cli 2
           (lit "2" ++ nl) []).
  - lia.
  - reflexivity.
  - reflexivity.
  - vm_compute. lia.
Defined.

(** * Which heights are requested *)

Lemma elem_of_block_heights (H n h : Z) :
  h ∈ map (fun i => H - i) (range n) <-> H - n < h <= H.
Proof.
  rewrite list_elem_of_fmap. unfold range. split.
  - intros (i & -> & Hi%elem_of_seqZ). lia.
  - intros Hh. exists (H - h). split; [lia|]. apply elem_of_seqZ. lia.
Qed.

Lemma length_block_heights (H n : Z) :
  Z.of_nat (length (map (fun i => H - i) (range n))) = Z.max 0 n.
Proof. unfold range. rewrite length_map, length_seqZ. lia. Qed.

Lemma submitted_get_latest_n_blocks (E : env) (cli : NexaCLI) (n H : Z)
    (p : option Z) :
  pool_accepts E p = true ->
  outcome (get_latest_block_height E cli) = Ok (Some H) ->
  submitted (events (get_latest_n_blocks E cli n p))
  = map FetchBlock
      (map (fun i => H - i) (range (if n >? H + 1 then H + 1 else n))).
Proof.
  intros Hp HH.
  rewrite (get_latest_n_blocks_run E cli n H p HH Hp). cbn [events fst].
  rewrite !submitted_app.
  rewrite (submitted_flat_map FetchBlock) by apply get_block_data_plain.
  rewrite (submitted_plain _ (get_latest_block_height_plain E cli)).
  rewrite (submitted_plain _ (blocks_loop_plain _ _ _ _)).
  destruct (n >? H + 1); cbn; by rewrite app_nil_r.
Qed.

(** X7.  Once the height query has returned [H], [get_latest_n_blocks] asks
    only for heights of the chain: every fetch it submits is for a height
    between [0] and [H] among the last [n], no height is asked for twice, and
    the number of fetches is [min n (H + 1)], or none when [n] is not
    positive. *)
Theorem get_latest_n_blocks_requests_existing_heights (E : env)
    (cli : NexaCLI) (n H : Z) (p : option Z) :
  pool_accepts E p = true ->
  outcome (get_latest_block_height E cli) = Ok (Some H) ->
  let jobs := submitted (events (get_latest_n_blocks E cli n p)) in
  0 <= H
  /\ (forall j, j ∈ jobs ->
        exists h, j = FetchBlock h /\ 0 <= h <= H /\ H - n < h)
  /\ NoDup jobs
  /\ Z.of_nat (length jobs) = Z.max 0 (Z.min n (H + 1)).
Proof.
  intros Hp HH jobs.
  pose proof (get_latest_block_height_nonneg E cli H HH) as Hnn.
  subst jobs. rewrite (submitted_get_latest_n_blocks E cli n H p Hp HH).
  split; [done|]. split; [|split].
  - intros j (h & -> & Hh%elem_of_block_heights)%list_elem_of_fmap.
    exists h. split; [done|].
    destruct (Z.gtb_spec n (H + 1)); lia.
  - assert (Inj (=) (=) FetchBlock) by (intros x y [= ->]; done).
    apply (NoDup_fmap_2 FetchBlock), NoDup_block_heights.
  - rewrite length_map, length_block_heights.
    destruct (Z.gtb_spec n (H + 1)); lia.
Qed.

Lemma get_latest_n_blocks_requests_existing_heights_witness :
  NoDup (submitted (events (get_latest_n_blocks demo_env demo_cli 100 (Some 8))))
  /\ Z.of_nat (length (submitted
                         (events (get_latest_n_blocks demo_env demo_cli 100
                                    (Some 8)))))
     = Z.max 0 (Z.min 100 (2 + 1)).
Proof.
  destruct (get_latest_n_blocks_requests_existing_heights demo_env demo_cli
              100 2 (Some 8) ltac:(reflexivity) ltac:(vm_compute; reflexivity))
    as (_ & _ & Hnd & Hlen).
  split; [exact Hnd|exact Hlen].
Defined.

(** X8.  A requested count that is not positive: after the height query and
    the start line, the pool is opened with nothing to do and the empty
    mapping is returned; no warning is printed and no progress line is
    reached. *)
Theorem get_latest_n_blocks_nonpositive_count (E : env) (cli : NexaCLI)
    (n H : Z) (p : option Z) :
  (forall (A : Type) (l : list A), Permutation (as_completed E A l) l) ->
  pool_accepts E p = true ->
  outcome (get_latest_block_height E cli) = Ok (Some H) ->
  n <= 0 ->
  get_latest_n_blocks E cli n p
  = (events (get_latest_block_height E cli) ++ [Printed (MsgStartBlocks p)],
     Ok []).
Proof.
  intros Hperm Hp HH Hn.
  pose proof (get_latest_block_height_nonneg E cli H HH) as Hnn.
  rewrite (get_latest_n_blocks_run E cli n H p HH Hp).
  destruct (Z.gtb_spec n (H + 1)) as [?|_]; [lia|].
  assert (Hr : range n = []).
  { unfold range, seqZ. replace (Z.to_nat n) with O by lia. done. }
  rewrite Hr. cbn [map flat_map length].
  rewrite (proj1 (Permutation_nil_r _) (Hperm _ [])). reflexivity.
Qed.

Lemma get_latest_n_blocks_nonpositive_count_witness :
  get_latest_n_blocks demo_env demo_cli 0 (Some 8)
  = ([Printed (MsgStartBlocks (Some 8))], Ok []).
Proof.
  apply (get_latest_n_blocks_nonpositive_count demo_env demo_cli 0 2 (Some 8)).
  - apply demo_env_as_completed_perm.
  - reflexivity.
  - vm_compute. reflexivity.
  - lia.
Defined.

(** * When the collecting loop of the blocks fails *)

Lemma blocks_loop_raises (total i : Z) (ds : list dict) (d0 : dict) :
  (exists k, ds !! k = Some []
     /\ ((i + Z.of_nat k + 1) mod 10 = 0 \/ i + Z.of_nat k + 1 = total)) ->
  outcome (blocks_loop total i (map Ok ds) d0) = Raise IndexError.
Proof.
  revert i d0. induction ds as [|dd ds IH]; intros i d0 (k & Hk & Hrep);
    [by rewrite lookup_nil in Hk|].
  change (map Ok (dd :: ds)) with (Ok dd :: map Ok ds).
  rewrite blocks_loop_cons, (outcome_bind _ _ dd) by done.
  match goal with |- outcome (?m ≫= _) = _ =>
    destruct (outcome m) as [[]|e] eqn:Hprog end.
  - rewrite (outcome_bind _ _ tt Hprog).
    destruct k as [|k].
    + exfalso. simpl in Hk. injection Hk as ->.
      replace (i + Z.of_nat 0 + 1) with (i + 1) in Hrep by lia.
      assert (Hc : ((i + 1) mod 10 =? 0) || (i + 1 =? total) = true).
      { apply orb_true_iff. destruct Hrep; [left|right]; by apply Z.eqb_eq. }
      rewrite Hc in Hprog. discriminate Hprog.
    + apply IH. exists k. split; [done|].
      replace (i + 1 + Z.of_nat k + 1) with (i + Z.of_nat (S k) + 1) by lia.
      done.
  - rewrite (outcome_bind_raise _ _ e Hprog). f_equal.
    revert Hprog. destruct (_ || _); [|done].
    unfold first_key. destruct (keys dd); [by intros [= <-]|done].
Qed.

Lemma blocks_loop_returns (total i : Z) (ds : list dict) (d0 : dict) :
  (forall k, ds !! k = Some [] ->
     ~ ((i + Z.of_nat k + 1) mod 10 = 0 \/ i + Z.of_nat k + 1 = total)) ->
  exists d, outcome (blocks_loop total i (map Ok ds) d0) = Ok d.
Proof.
  revert i d0. induction ds as [|dd ds IH]; intros i d0 Hok; [by eexists|].
  change (map Ok (dd :: ds)) with (Ok dd :: map Ok ds).
  rewrite blocks_loop_cons, (outcome_bind _ _ dd) by done.
  assert (Hprog : outcome
            (if ((i + 1) mod 10 =? 0) || (i + 1 =? total)
             then k ← first_key dd; print (MsgRetrievedBlock k (i + 1) total)
             else mret tt) = Ok tt).
  { destruct (_ || _) eqn:Hc; [|done].
    destruct dd as [|[k v] dd]; [|done].
    exfalso. apply (Hok O eq_refl).
    replace (i + Z.of_nat 0 + 1) with (i + 1) by lia.
    apply orb_true_iff in Hc as [Hc|Hc]; apply Z.eqb_eq in Hc; auto. }
  rewrite (outcome_bind _ _ tt Hprog).
  apply IH. intros k Hk.
  replace (i + 1 + Z.of_nat k + 1) with (i + Z.of_nat (S k) + 1) by lia.
  by apply Hok.
Qed.

(** X9.  When every fetch has returned, what decides whether
    [get_latest_n_blocks] returns is the progress line alone: the call fails
    with [IndexError] exactly when a fetch that returned the empty dict
    completes in a position that is reported (the 10th, 20th, ... or the
    last), and returns a mapping otherwise. *)
Theorem get_latest_n_blocks_fails_on_reported_empty_fetch (E : env)
    (cli : NexaCLI) (n H : Z) (p : option Z) (ds : list dict) :
  pool_accepts E p = true ->
  outcome (get_latest_block_height E cli) = Ok (Some H) ->
  let block_heights :=
    map (fun i => H - i) (range (if n >? H + 1 then H + 1 else n)) in
  as_completed E _ (map (fun h => outcome (get_block_data E cli h))
                      block_heights)
  = map Ok ds ->
  let reported (k : nat) :=
    (Z.of_nat k + 1) mod 10 = 0
    \/ Z.of_nat k + 1 = Z.of_nat (length block_heights) in
  ((exists k, ds !! k = Some [] /\ reported k) ->
     outcome (get_latest_n_blocks E cli n p) = Raise IndexError)
  /\ ((forall k, ds !! k = Some [] -> ~ reported k) ->
      exists d, outcome (get_latest_n_blocks E cli n p) = Ok d).
Proof.
  intros Hp HH block_heights Hds reported.
  rewrite (get_latest_n_blocks_run E cli n H p HH Hp). cbn [outcome snd].
  fold block_heights. rewrite Hds. split.
  - intros (k & Hk & Hrep). apply blocks_loop_raises. by exists k.
  - intros Hok. apply blocks_loop_returns. intros k Hk. by apply Hok.
Qed.

Lemma get_latest_n_blocks_fails_on_reported_empty_fetch_witness :
  exists d, outcome (get_latest_n_blocks demo_env demo_cli 100 (Some 8)) = Ok d.
Proof.
  destruct (get_latest_n_blocks_fails_on_reported_empty_fetch demo_env
              demo_cli 100 2 (Some 8)
              [[]; [(1, demo_json_block_1)]; [(2, demo_json_block_2)]]
              ltac:(reflexivity) ltac:(vm_compute; reflexivity)
              ltac:(vm_compute; reflexivity))
    as [_ Hret].
  apply Hret. intros [|[|[|k]]] Hk; try discriminate Hk.
  intros [Hrep|Hrep]; vm_compute in Hrep; discriminate Hrep.
Defined.

(** X10.  When the fetch of every requested height returns its block,
    [get_latest_n_blocks] returns, whatever the completion order, and the
    mapping has exactly the requested heights as keys, each with the block
    fetched for it. *)
Theorem get_latest_n_blocks_all_fetched (E : env) (cli : NexaCLI)
    (n H : Z) (p : option Z) :
  (forall (A : Type) (l : list A), Permutation (as_completed E A l) l) ->
  pool_accepts E p = true ->
  outcome (get_latest_block_height E cli) = Ok (Some H) ->
  let block_heights :=
    map (fun i => H - i) (range (if n >? H + 1 then H + 1 else n)) in
  (forall h, h ∈ block_heights ->
     exists b, outcome (get_block_data E cli h) = Ok [(h, b)]) ->
  exists d,
    outcome (get_latest_n_blocks E cli n p) = Ok d
    /\ Permutation (keys d) block_heights
    /\ forall h b, (h, b) ∈ d -> outcome (get_block_data E cli h) = Ok [(h, b)].
Proof.
  intros Hperm Hp HH block_heights Hall.
  rewrite (get_latest_n_blocks_run E cli n H p HH Hp). cbn [outcome snd].
  fold block_heights.
  pose proof (Hperm _ (map (fun h => outcome (get_block_data E cli h))
                         block_heights)) as Hc.
  apply Permutation_map_inv in Hc as (hs' & Hcompleted & Hperm').
  rewrite Hcompleted.
  assert (Hall' : Forall (fun h => exists b,
                    outcome (get_block_data E cli h) = Ok [(h, b)]) hs').
  { apply Forall_forall. intros h Hh. apply Hall. by rewrite Hperm'. }
  destruct (Forall_exists_Forall2 _ _ Hall') as [bs Hbs].
  set (ds := zip_with (fun h b => [(h, b)]) hs' bs).
  assert (Hfut : map (fun h => outcome (get_block_data E cli h)) hs'
                 = map Ok ds).
  { subst ds. clear -Hbs. induction Hbs as [|h b hs bs Hhb _ IH]; [done|].
    simpl. by rewrite Hhb, IH. }
  rewrite Hfut.
  assert (HF : Forall2 (fun h dd => dd = [] \/ exists b, dd = [(h, b)]) hs' ds).
  { subst ds. clear -Hbs. induction Hbs as [|h b hs bs _ _ IH];
      constructor; [right; by exists b|done]. }
  destruct (blocks_loop_returns (Z.of_nat (length block_heights)) 0 ds [])
    as [d Hd].
  { intros k Hk. exfalso. subst ds.
    apply lookup_zip_with_Some in Hk as (h & b & ? & _). done. }
  exists d. split; [done|].
  assert (Hd' : d = [] ++ mjoin ds).
  { apply (blocks_loop_collects (Z.of_nat (length block_heights)) 0 hs' ds
             [] d HF); [|done].
    simpl. rewrite <- Hperm'. apply NoDup_block_heights. }
  rewrite Hd'. simpl. split.
  - rewrite Hperm'. subst ds. clear -Hbs.
    induction Hbs as [|h b hs bs _ _ IH]; [done|]. simpl. by rewrite IH.
  - intros h b (dd & Hin & Hdd)%list_elem_of_join. subst ds.
    apply list_elem_of_lookup in Hdd as [i Hi].
    apply lookup_zip_with_Some in Hi as (h' & b' & -> & Hh' & Hb').
    apply list_elem_of_singleton in Hin as [= -> ->].
    by destruct (Forall2_lookup_lr _ _ _ _ _ _ Hbs Hh' Hb').
Qed.

Lemma get_latest_n_blocks_all_fetched_witness :
  exists d,
    outcome (get_latest_n_blocks demo_env demo_cli 2 (Some 8)) = Ok d
    /\ Permutation (keys d) [2; 1].
Proof.
  destruct (get_latest_n_blocks_all_fetched demo_env demo_cli 2 2 (Some 8)
              demo_env_as_completed_perm ltac:(reflexivity)
              ltac:(vm_compute; reflexivity))
    as (d & Hd & Hkeys & _).
  - intros h Hh.
    apply elem_of_cons in Hh as [->|Hh]; [eexists; vm_compute; reflexivity|].
    apply elem_of_cons in Hh as [->|Hh]; [eexists; vm_compute; reflexivity|].
    by apply elem_of_nil in Hh.
  - exists d. split; [exact Hd|exact Hkeys].
Defined.

(** * When a fetch raises *)

Lemma run_command_outcome_None (E : env) (cli : NexaCLI) (command : str) :
  outcome (run_command E cli command) = Ok None
  <-> node E (full_command cli command) = Completed [] [].
Proof.
  unfold run_command. destruct (node E _) as [[|c out] [|c' err]|e]; simpl;
    split; intros H; try done.
Qed.

(** X11.  The only ways [get_block_data] can raise: [AttributeError] when the
    process of the hash lookup writes nothing; [TypeError] when a hash was
    found and the process of the block lookup writes nothing; and any
    exception of [json.loads] other than [JSONDecodeError], which is not
    caught.  Every other failure is logged and gives the empty dict. *)
Theorem get_block_data_raises_iff (E : env) (cli : NexaCLI) (h : Z)
    (e : exn) :
  outcome (get_block_data E cli h) = Raise e
  <-> (node E (full_command cli (lit "getblockhash " ++ str_of_Z h))
       = Completed [] []
       /\ e = AttributeError)
      \/ exists block_hash,
           outcome (run_command E cli (lit "getblockhash " ++ str_of_Z h))
           = Ok (Some block_hash)
           /\ block_hash <> []
           /\ ((node E (full_command cli
                          (lit "getblock " ++ block_hash ++ lit " 1"))
                = Completed [] []
                /\ e = TypeError)
               \/ exists out,
                    outcome (run_command E cli
                               (lit "getblock " ++ block_hash ++ lit " 1"))
                    = Ok (Some out)
                    /\ json_loads E out = Raise e
                    /\ e <> JSONDecodeError).
Proof.
  unfold get_block_data.
  destruct (run_command_never_raises E cli (lit "getblockhash " ++ str_of_Z h))
    as [r Hr].
  rewrite (outcome_bind _ _ r Hr).
  destruct r as [s|].
  - destruct (run_command_trimmed E cli _ s Hr) as [Hs _].
    rewrite Hs. destruct s as [|c s].
    { split; [done|]. intros [[Hn _]|(bh & Hbh & Hne & _)].
      - apply run_command_outcome_None in Hn. congruence.
      - rewrite Hr in Hbh. by injection Hbh as <-. }
    cbn [str_truthy negb].
    destruct (run_command_never_raises E cli
                (lit "getblock " ++ (c :: s) ++ lit " 1")) as [r' Hr'].
    rewrite (outcome_bind _ _ r' Hr'). split.
    + intros Hraise. right. exists (c :: s). split; [done|]. split; [done|].
      destruct r' as [out|].
      * right. exists out. split; [done|].
        destruct (json_loads E out) as [v|[]]; simpl in Hraise; try done;
          by injection Hraise as <-.
      * left. split; [by apply run_command_outcome_None|].
        by injection Hraise as <-.
    + intros [[Hn _]|(bh & Hbh & _ & Hcase)].
      { apply run_command_outcome_None in Hn. congruence. }
      rewrite Hr in Hbh. injection Hbh as <-.
      destruct Hcase as [[Hn ->]|(out & Hout & Hj & Hne)].
      * apply run_command_outcome_None in Hn.
        rewrite Hr' in Hn. by injection Hn as ->.
      * rewrite Hr' in Hout. injection Hout as ->. rewrite Hj.
        by destruct e.
  - split.
    + intros [= <-]. left. split; [by apply run_command_outcome_None|done].
    + intros [[_ ->]|(bh & Hbh & _)]; [done|]. congruence.
Qed.

Lemma get_block_data_raises_iff_witness :
  outcome (get_block_data (with_node demo_env mute_after_count) demo_cli 1)
  = Raise AttributeError.
Proof.
  apply (get_block_data_raises_iff (with_node demo_env mute_after_count)
           demo_cli 1 AttributeError).
  left. split; [vm_compute; reflexivity|reflexivity].
Defined.

(** X12.  The only ways [get_transaction_data] can raise: [TypeError] when
    the process of the lookup writes nothing, and any exception of
    [json.loads] other than [JSONDecodeError] on an output that is not empty
    and does not hold the error code. *)
Theorem get_transaction_data_raises_iff (E : env) (cli : NexaCLI)
    (txid : json) (e : exn) :
  let command := lit "getrawtransaction " ++ format_value E txid ++ lit " 1" in
  outcome (get_transaction_data E cli txid) = Raise e
  <-> (node E (full_command cli command) = Completed [] [] /\ e = TypeError)
      \/ exists output,
           outcome (run_command E cli command) = Ok (Some output)
           /\ contains (lit "error code: -5") output = false
           /\ output <> []
           /\ json_loads E output = Raise e
           /\ e <> JSONDecodeError.
Proof.
  intros command. unfold get_transaction_data. fold command.
  destruct (run_command_never_raises E cli command) as [r Hr].
  rewrite (outcome_bind _ _ r Hr).
  destruct r as [output|].
  - split.
    + intros Hraise. right. exists output. split; [done|].
      destruct (contains (lit "error code: -5") output); [done|].
      split; [done|]. destruct output as [|c output]; [done|].
      split; [done|]. cbn [str_truthy negb] in Hraise.
      destruct (json_loads E (c :: output)) as [v|[]]; simpl in Hraise;
        try done; by injection Hraise as <-.
    + intros [[Hn _]|(out & Hout & Hc & Hne & Hj & He)].
      { apply run_command_outcome_None in Hn. congruence. }
      rewrite Hr in Hout. injection Hout as <-. rewrite Hc.
      destruct output as [|c output]; [done|]. cbn [str_truthy negb].
      rewrite Hj. by destruct e.
  - split.
    + intros [= <-]. left. split; [by apply run_command_outcome_None|done].
    + intros [[_ ->]|(out & Hout & _)]; [done|]. congruence.
Qed.

Lemma get_transaction_data_raises_iff_witness :
  outcome (get_transaction_data (with_node demo_env silent_lookup_node)
             demo_cli (JStr (lit "aa")))
  = Raise TypeError.
Proof.
  apply (get_transaction_data_raises_iff
           (with_node demo_env silent_lookup_node) demo_cli (JStr (lit "aa"))
           TypeError).
  left. split; [vm_compute; reflexivity|reflexivity].
Defined.

Lemma contains_nil_r (sub : str) : sub <> [] -> contains sub [] = false.
Proof. by destruct sub. Qed.

(** X13.  The soft miss of an unindexed transaction is recognised on the
    standard output only: [get_transaction_data] prints its "not indexed"
    line exactly when the trimmed standard output holds "error code: -5".
    When the client reports the error on its error stream alone, whatever
    the text, the error text and "No output" are logged instead, and [None]
    is returned. *)
Theorem get_transaction_data_error_code_on_stdout_only (E : env)
    (cli : NexaCLI) (txid : json) :
  let command := lit "getrawtransaction " ++ format_value E txid ++ lit " 1" in
  (Printed (MsgTxNotIndexed txid) ∈ events (get_transaction_data E cli txid)
   <-> exists stdout stderr,
         node E (full_command cli command) = Completed stdout stderr
         /\ contains (lit "error code: -5") (strip stdout) = true)
  /\ (forall stderr,
        node E (full_command cli command) = Completed [] stderr ->
        stderr <> [] ->
        get_transaction_data E cli txid
        = ([Printed (MsgError (strip stderr)); Printed (MsgTxNoOutput txid)],
           Ok JNull)).
Proof.
  intros command.
  assert (Hnone : forall l : list event,
            Forall (fun ev => ev <> Printed (MsgTxNotIndexed txid)) l ->
            Printed (MsgTxNotIndexed txid) ∉ l).
  { intros l Hl Hin. rewrite Forall_forall in Hl. by apply (Hl _ Hin). }
  split.
  - unfold get_transaction_data, run_command. fold command.
    destruct (node E (full_command cli command)) as [[|c out] err|e].
    + split.
      * intros Hin. exfalso. revert Hin. apply Hnone.
        destruct err; repeat constructor; done.
      * intros (stdout & stderr & [= <- <-] & Hc).
        by rewrite contains_nil_r in Hc.
    + cbn -[lit contains strip].
      destruct (contains (lit "error code: -5") (strip (c :: out))) eqn:Hc.
      * split; [|intros _; apply list_elem_of_here].
        intros _. by exists (c :: out), err.
      * split; [|intros (stdout & stderr & [= <- <-] & Hc'); congruence].
        intros Hin. exfalso. revert Hin. apply Hnone.
        destruct (negb (str_truthy (strip (c :: out))));
          [repeat constructor; done|].
        destruct (json_loads E (strip (c :: out))) as [v|[]];
          repeat constructor; done.
    + split; [|by intros (stdout & stderr & ? & _)].
      intros Hin. exfalso. revert Hin. apply Hnone. repeat constructor; done.
  - intros stderr Hn Hne. unfold get_transaction_data, run_command.
    fold command. rewrite Hn.
    destruct stderr as [|c stderr]; [done|]. reflexivity.
Qed.

Lemma get_transaction_data_error_code_on_stdout_only_witness :
  get_transaction_data demo_env demo_cli (JStr (lit "bb"))
  = ([Printed (MsgError (lit "error code: -5"));
      Printed (MsgTxNoOutput (JStr (lit "bb")))],
     Ok JNull).
Proof.
  destruct (get_transaction_data_error_code_on_stdout_only demo_env demo_cli
              (JStr (lit "bb"))) as [_ Hstderr].
  apply (Hstderr (lit "error code: -5" ++ nl)).
  - vm_compute. reflexivity.
  - discriminate.
Defined.

(** * The transaction fetcher: what it looks up, and when it returns *)

Lemma get_transaction_data_plain (E : env) (cli : NexaCLI) (txid : json) :
  Forall plain (events (get_transaction_data E cli txid)).
Proof.
  unfold get_transaction_data.
  apply Forall_events_bind; [apply run_command_plain|].
  intros [output|] _; [|constructor].
  destruct (contains _ output); [repeat constructor|].
  destruct (negb (str_truthy output)); [repeat constructor|].
  destruct (json_loads E output) as [v|[]]; repeat constructor.
Qed.

(** A block that [get_all_transactions] cannot read its ids from: a value
    that is not an object, or an object whose ['txid'] is a number, a
    boolean or null. *)
Lemma all_txids_raises (blocks : list json) (v : json) :
  v ∈ blocks ->
  match v with
  | JObj kv =>
      match assoc (lit "txid") kv with
      | Some (JNull | JBool _ | JInt _ | JFloat _) => True
      | _ => False
      end
  | _ => True
  end ->
  exists e, all_txids blocks = Raise e /\ (e = AttributeError \/ e = TypeError).
Proof.
  intros Hin Hbad. induction blocks as [|b blocks IH];
    [by apply elem_of_nil in Hin|].
  apply elem_of_cons in Hin as [<-|Hin].
  - cbn -[lit assoc]. destruct v as [| | | | | |kv]; try (by eexists; eauto).
    cbn -[lit assoc].
    destruct (assoc (lit "txid") kv) as [[| | | | | |]|]; try done;
      by eexists; eauto.
  - destruct (IH Hin) as (e & He & Hcase). cbn -[lit assoc].
    destruct (block_txids b) as [ids|e'] eqn:Hb.
    + rewrite He. by exists e.
    + exists e'. split; [done|]. revert Hb. unfold block_txids.
      destruct b as [| | | | | |kv]; try (intros [= <-]; by left).
      destruct (assoc (lit "txid") kv) as [[| | | | | |]|]; cbn;
        intros [= <-]; by right.
Qed.

(** X14.  [get_all_transactions] does not skip a malformed block: when a
    value of the mapping is not an object, or is an object whose ['txid'] is
    a number, a boolean or null, the call ends with [AttributeError] or
    [TypeError] while it collects the ids, before it prints or submits
    anything. *)
Theorem get_all_transactions_rejects_malformed_block (E : env)
    (cli : NexaCLI) (blocks_dict : dict) (p : option Z) (h : Z) (v : json) :
  (h, v) ∈ blocks_dict ->
  match v with
  | JObj kv =>
      match assoc (lit "txid") kv with
      | Some (JNull | JBool _ | JInt _ | JFloat _) => True
      | _ => False
      end
  | _ => True
  end ->
  exists e,
    get_all_transactions E cli blocks_dict p = ([], Raise e)
    /\ (e = AttributeError \/ e = TypeError).
Proof.
  intros Hin Hbad.
  destruct (all_txids_raises (values blocks_dict) v) as (e & He & Hcase);
    [|done|].
  { unfold values. apply list_elem_of_fmap. by exists (h, v). }
  exists e. split; [|done]. unfold get_all_transactions. by rewrite He.
Qed.

Lemma get_all_transactions_rejects_malformed_block_witness :
  exists e,
    get_all_transactions demo_env demo_cli
      [(2, demo_json_block_2); (1, JNull)] (Some 8)
    = ([], Raise e)
    /\ (e = AttributeError \/ e = TypeError).
Proof.
  apply (get_all_transactions_rejects_malformed_block demo_env demo_cli
           [(2, demo_json_block_2); (1, JNull)] (Some 8) 1 JNull).
  - apply elem_of_cons; right. apply list_elem_of_here.
  - exact I.
Defined.

Lemma all_txids_listed (blocks : list json) (idss : list (list json)) :
  Forall2 (fun b ids =>
             exists kv, b = JObj kv
               /\ match assoc (lit "txid") kv with
                  | Some v => v = JArr ids
                  | None => ids = []
                  end) blocks idss ->
  all_txids blocks = Ok (mjoin idss).
Proof.
  induction 1 as [|b ids blocks idss (kv & -> & Hkv) _ IH]; [done|].
  cbn -[lit assoc]. rewrite IH.
  destruct (assoc (lit "txid") kv) as [v|]; [by subst v|by subst ids].
Qed.

(** X15.  For blocks that are objects whose ['txid'], if present, is a list,
    [get_all_transactions] submits one lookup per listed id, in the order of
    the blocks in the mapping and of the ids in each list; an id listed twice
    is looked up twice, and a block without ['txid'] contributes none. *)
Theorem get_all_transactions_looks_up_every_listed_id (E : env)
    (cli : NexaCLI) (blocks_dict : dict) (p : option Z)
    (idss : list (list json)) :
  pool_accepts E p = true ->
  Forall2 (fun b ids =>
             exists kv, b = JObj kv
               /\ match assoc (lit "txid") kv with
                  | Some v => v = JArr ids
                  | None => ids = []
                  end) (values blocks_dict) idss ->
  submitted (events (get_all_transactions E cli blocks_dict p))
  = map FetchTransaction (mjoin idss).
Proof.
  intros Hp Hids.
  rewrite (get_all_transactions_run E cli blocks_dict p (mjoin idss)
             (all_txids_listed _ _ Hids) Hp).
  cbn [events fst]. rewrite !submitted_app.
  rewrite (submitted_flat_map FetchTransaction)
    by apply get_transaction_data_plain.
  change (submitted [Printed (MsgStartTransactions p)]) with (@nil job).
  rewrite (submitted_plain (events _)); [by rewrite app_nil_r|].
  generalize (Z.of_nat (length (mjoin idss))) as total.
  generalize 0 as i. generalize (@nil json) as acc.
  generalize (as_completed E _ (map (fun t => outcome (get_transaction_data E cli t))
                (mjoin idss))) as completed.
  induction completed as [|fut rest IH]; intros acc i total; [constructor|].
  rewrite transactions_loop_cons.
  apply Forall_events_bind; [constructor|]. intros tx_data _.
  apply Forall_events_bind; [|intros; apply IH].
  destruct (_ =? _); repeat constructor.
Qed.

Lemma get_all_transactions_looks_up_every_listed_id_witness :
  submitted (events (get_all_transactions demo_env demo_cli
                       [(2, demo_json_block_2); (1, demo_json_block_1);
                        (3, demo_json_block_1); (0, JObj [])] (Some 8)))
  = map FetchTransaction
      [JStr (lit "aa"); JStr (lit "bb"); JStr (lit "cc"); JStr (lit "cc")].
Proof.
  apply (get_all_transactions_looks_up_every_listed_id demo_env demo_cli
           [(2, demo_json_block_2); (1, demo_json_block_1);
            (3, demo_json_block_1); (0, JObj [])] (Some 8)
           [[JStr (lit "aa"); JStr (lit "bb")]; [JStr (lit "cc")];
            [JStr (lit "cc")]; []]).
  - reflexivity.
  - repeat constructor; eexists; (split; [reflexivity|]); reflexivity.
Defined.

(** X16.  Once the ids are collected and the pool is open,
    [get_all_transactions] returns a list if and only if every lookup
    returns: the collecting loop has no failure of its own, in any completion
    order. *)
Theorem get_all_transactions_returns_iff (E : env) (cli : NexaCLI)
    (blocks_dict : dict) (p : option Z) (txids : list json) :
  (forall (A : Type) (l : list A), Permutation (as_completed E A l) l) ->
  pool_accepts E p = true ->
  all_txids (values blocks_dict) = Ok txids ->
  (exists txs, outcome (get_all_transactions E cli blocks_dict p) = Ok txs)
  <-> Forall (fun t => exists r, outcome (get_transaction_data E cli t) = Ok r)
        txids.
Proof.
  intros Hperm Hp Hids.
  rewrite (get_all_transactions_run E cli _ p txids Hids Hp).
  cbn [outcome snd].
  pose proof (Hperm _ (map (fun t => outcome (get_transaction_data E cli t))
                         txids)) as Hc.
  split.
  - intros [txs (vals & Hvals & _)%transactions_loop_inv].
    apply Forall_forall. intros t Ht.
    assert (Hin : outcome (get_transaction_data E cli t) ∈ map Ok vals).
    { rewrite <- Hvals, Hc. apply list_elem_of_fmap. by exists t. }
    apply list_elem_of_fmap in Hin as (r & Hr & _). by exists r.
  - intros Hall.
    destruct (Forall_exists_Forall2 _ _ Hall) as [vals Hvals].
    assert (Hfut : map (fun t => outcome (get_transaction_data E cli t)) txids
                   = map Ok vals).
    { clear -Hvals. induction Hvals as [|t v l k Htv _ IH]; [done|].
      simpl. by rewrite Htv, IH. }
    rewrite Hfut in Hc |- *.
    apply Permutation_map_inv in Hc as (vals' & -> & _).
    rewrite transactions_loop_returns. by eexists.
Qed.

Lemma get_all_transactions_returns_iff_witness :
  (exists txs,
     outcome (get_all_transactions demo_env demo_cli
                [(2, demo_json_block_2)] (Some 8)) = Ok txs)
  <-> Forall (fun t => exists r,
                outcome (get_transaction_data demo_env demo_cli t) = Ok r)
        [JStr (lit "aa"); JStr (lit "bb")].
Proof.
  apply (get_all_transactions_returns_iff demo_env demo_cli
           [(2, demo_json_block_2)] (Some 8)).
  - apply demo_env_as_completed_perm.
  - reflexivity.
  - reflexivity.
Defined.

(** * More on the hourly aggregation *)

Lemma join_bins_nil {A B : Type} (hs : list B) :
  mjoin (map (fun _ : B => @nil A) hs) = [].
Proof. induction hs as [|h hs IH]; [done|]. simpl. exact IH. Qed.

Lemma join_bins_cons {A : Type} (g : Z -> list A) (x : Z) (a : A)
    (hs : list Z) :
  NoDup hs -> x ∈ hs ->
  Permutation
    (mjoin (map (fun h => if decide (x = h) then a :: g h else g h) hs))
    (a :: mjoin (map g hs)).
Proof.
  intros Hnd Hx. induction Hnd as [|h hs Hh Hnd IH];
    [by apply elem_of_nil in Hx|].
  simpl. destruct (decide (x = h)) as [->|Hne].
  - simpl. apply Permutation_skip. apply Permutation_app_head.
    assert (Heq : map (fun h' => if decide (h = h') then a :: g h' else g h') hs
                  = map g hs).
    { apply map_ext_in. intros h' Hh'%list_elem_of_In.
      destruct (decide (h = h')) as [<-|_]; [done|done]. }
    by rewrite Heq.
  - apply elem_of_cons in Hx as [?|Hx]; [done|].
    rewrite (IH Hx). symmetry. apply Permutation_middle.
Qed.

Section ResamplePartition.

Context {R : Type}.

Lemma hours_partition (hs : list Z) (df : frame R) :
  NoDup hs ->
  Forall (fun p => hour_of p.1 ∈ hs) df ->
  Permutation
    (mjoin (map (fun h => filter (fun p : Z * R => hour_of p.1 =? h) df) hs))
    df.
Proof.
  intros Hnd. induction 1 as [|p df Hp _ IH].
  - clear. induction hs as [|h hs IH]; [done|exact IH].
  - etrans; [|apply Permutation_skip, IH].
    etrans;
      [|apply (join_bins_cons
                 (fun h => filter (fun p : Z * R => hour_of p.1 =? h) df)
                 (hour_of p.1) p hs Hnd Hp)].
    match goal with |- ?a ≡ₚ ?b => replace a with b; [done|] end.
    f_equal. apply map_ext. intros h.
    rewrite filter_cons.
    destruct (decide (hour_of p.1 = h)) as [Heq|Hne].
    + rewrite decide_True; [done|]. by apply Is_true_true, Z.eqb_eq.
    + rewrite decide_False; [done|].
      intros Hh%Is_true_true%Z.eqb_eq. done.
Qed.

Lemma resample_H_hours (df : frame R) (t0 : Z) (r0 : R) (df' : frame R) :
  df = (t0, r0) :: df' ->
  Forall (fun p => hour_of p.1
                   ∈ seqZ (hour_of (fold_right Z.min t0 (map fst df')))
                       (hour_of (fold_right Z.max t0 (map fst df'))
                        - hour_of (fold_right Z.min t0 (map fst df')) + 1))
    df.
Proof.
  intros ->. apply Forall_forall. intros [t r] Hin. simpl.
  apply elem_of_seqZ.
  destruct (fold_min_spec t0 (map fst df')) as [_ Hmin].
  destruct (fold_max_spec t0 (map fst df')) as [_ Hmax].
  assert (Ht : t ∈ t0 :: map fst df').
  { change (t0 :: map fst df') with (map fst ((t0, r0) :: df')).
    apply list_elem_of_fmap. by exists (t, r). }
  rewrite Forall_forall in Hmin, Hmax.
  pose proof (hour_of_mono _ _ (Hmin t Ht)).
  pose proof (hour_of_mono _ _ (Hmax t Ht)). lia.
Qed.

(** Every row is in exactly one bin: the bins, put end to end, hold the rows
    of the frame, each once. *)
Lemma resample_H_partition (df : frame R) :
  Permutation (mjoin (map snd (resample_H df))) (map snd df).
Proof.
  destruct df as [|[t0 r0] df']; [done|].
  unfold resample_H. rewrite map_map. simpl fst; simpl snd.
  set (hs := seqZ _ _). set (df := (t0, r0) :: df').
  etrans; [|apply Permutation_map, (hours_partition hs df)].
  - match goal with |- ?a ≡ₚ ?b => replace a with b; [done|] end.
    clear. induction hs as [|h hs IH]; [done|].
    simpl. by rewrite map_app, IH.
  - apply NoDup_seqZ.
  - by apply (resample_H_hours df t0 r0 df').
Qed.

(** The labels of the bins are the hours from that of the earliest row to
    that of the latest. *)
Lemma resample_H_labels (df : frame R) (label : Z) :
  label ∈ map fst (resample_H df)
  <-> exists h p1 p2,
        label = 3600 * h /\ p1 ∈ df /\ p2 ∈ df
        /\ hour_of p1.1 <= h <= hour_of p2.1.
Proof.
  destruct df as [|[t0 r0] df'].
  - split; [by intros ?%elem_of_nil|].
    intros (h & p1 & _ & _ & ?%elem_of_nil & _). done.
  - unfold resample_H. rewrite map_map. simpl.
    destruct (fold_min_spec t0 (map fst df')) as [Hmin_in Hmin].
    destruct (fold_max_spec t0 (map fst df')) as [Hmax_in Hmax].
    change (t0 :: map fst df') with (map fst ((t0, r0) :: df'))
      in Hmin_in, Hmax_in, Hmin, Hmax.
    rewrite list_elem_of_fmap. split.
    + intros (h & -> & Hh%elem_of_seqZ).
      apply list_elem_of_fmap in Hmin_in as (p1 & Hp1 & Hin1).
      apply list_elem_of_fmap in Hmax_in as (p2 & Hp2 & Hin2).
      exists h, p1, p2. rewrite <- Hp1, <- Hp2. repeat split; try done; lia.
    + intros (h & p1 & p2 & -> & Hin1 & Hin2 & Hh).
      exists h. split; [done|]. apply elem_of_seqZ.
      rewrite Forall_forall in Hmin, Hmax.
      assert (H1 : p1.1 ∈ map fst ((t0, r0) :: df'))
        by (apply list_elem_of_fmap; by exists p1).
      assert (H2 : p2.1 ∈ map fst ((t0, r0) :: df'))
        by (apply list_elem_of_fmap; by exists p2).
      pose proof (hour_of_mono _ _ (Hmin _ H1)).
      pose proof (hour_of_mono _ _ (Hmax _ H2)). lia.
Qed.

(** An hour between two rows has a bin, with the rows of that hour. *)
Lemma resample_H_between (df : frame R) (h : Z) (p1 p2 : Z * R) :
  p1 ∈ df -> p2 ∈ df -> hour_of p1.1 <= h <= hour_of p2.1 ->
  (3600 * h, map snd (filter (fun p : Z * R => hour_of p.1 =? h) df))
    ∈ resample_H df.
Proof.
  intros Hin1 Hin2 Hh.
  assert (Hl : 3600 * h ∈ map fst (resample_H df)).
  { apply resample_H_labels. by exists h, p1, p2. }
  apply list_elem_of_fmap in Hl as ([l rows] & Hl & Hbin). simpl in Hl.
  subst l. destruct df as [|[t0 r0] df']; [by apply elem_of_nil in Hin1|].
  unfold resample_H in Hbin |- *.
  apply list_elem_of_fmap in Hbin as (h' & [= Hh' ->] & Hseq).
  assert (h' = h) as -> by lia.
  apply list_elem_of_fmap. by exists h.
Qed.

End ResamplePartition.

(** X17.  [calculate_transactions_per_hour] counts every record exactly
    once: the counts of all the hours add up to the number of rows of the
    frame. *)
Theorem transactions_per_hour_counts_each_record_once {cell : Type}
    (df : frame (@transaction_row cell)) :
  sum_list (map snd (calculate_transactions_per_hour df)) = length df.
Proof.
  unfold calculate_transactions_per_hour. rewrite map_map. simpl.
  rewrite <- (length_map snd df), <- (resample_H_partition df), length_join.
  by rewrite <- list_fmap_compose.
Qed.

Lemma resample_H_perm {R : Type} (df df' : frame R) :
  Permutation df df' ->
  Forall2 (fun b b' => b.1 = b'.1 /\ Permutation b.2 b'.2)
    (resample_H df) (resample_H df').
Proof.
  intros Hperm.
  destruct df as [|[t0 r0] l]; [by apply Permutation_nil_l in Hperm as ->|].
  destruct df' as [|[t0' r0'] l'];
    [by apply Permutation_nil_r in Hperm|].
  unfold resample_H.
  destruct (fold_min_spec t0 (map fst l)) as [Hmin_in Hmin].
  destruct (fold_max_spec t0 (map fst l)) as [Hmax_in Hmax].
  destruct (fold_min_spec t0' (map fst l')) as [Hmin_in' Hmin'].
  destruct (fold_max_spec t0' (map fst l')) as [Hmax_in' Hmax'].
  change (t0 :: map fst l) with (map fst ((t0, r0) :: l))
    in Hmin_in, Hmax_in, Hmin, Hmax.
  change (t0' :: map fst l') with (map fst ((t0', r0') :: l'))
    in Hmin_in', Hmax_in', Hmin', Hmax'.
  rewrite <- Hperm in Hmin_in', Hmax_in', Hmin', Hmax'.
  rewrite Forall_forall in Hmin, Hmax, Hmin', Hmax'.
  assert (Emin : fold_right Z.min t0 (map fst l)
                 = fold_right Z.min t0' (map fst l')).
  { pose proof (Hmin _ Hmin_in'). pose proof (Hmin' _ Hmin_in). lia. }
  assert (Emax : fold_right Z.max t0 (map fst l)
                 = fold_right Z.max t0' (map fst l')).
  { pose proof (Hmax _ Hmax_in'). pose proof (Hmax' _ Hmax_in). lia. }
  rewrite <- Emin, <- Emax. apply Forall2_fmap, Forall_Forall2_diag.
  apply Forall_forall. intros h _. simpl. split; [done|].
  apply Permutation_map. by apply filter_Permutation.
Qed.

(** * The closing difficulty, row by row *)

Lemma seqZ_sorted (m n : Z) : StronglySorted Z.lt (seqZ m n).
Proof.
  destruct (Z_le_gt_dec n 0) as [Hn|Hn]; [rewrite seqZ_nil by done; constructor|].
  rewrite <- (Z2Nat.id n) by lia. generalize (Z.to_nat n) as k. clear. intros k.
  revert m. induction k as [|k IH]; intros m.
  - rewrite seqZ_nil by done. constructor.
  - rewrite seqZ_cons by lia. constructor.
    + replace (Z.pred (Z.of_nat (S k))) with (Z.of_nat k) by lia. apply IH.
    + apply Forall_seqZ. intros; lia.
Qed.

Lemma resample_H_labels_sorted {R : Type} (df : frame R) :
  StronglySorted Z.lt (map fst (resample_H df)).
Proof.
  destruct df as [|[t0 r0] df']; [constructor|].
  unfold resample_H. rewrite map_map. simpl.
  apply (StronglySorted_fmap (fun x : Z => 3600 * x) Z.lt Z.lt); [|apply seqZ_sorted].
  intros x y ?. lia.
Qed.

Section ClosingTable.

Context {cell : Type}.
Variable isna : cell -> bool.
Variable sort_index : forall R : Type, frame R -> frame R.

Hypothesis sort_index_perm :
  forall (R : Type) (df : frame R), Permutation (sort_index R df) df.
Hypothesis sort_index_sorted :
  forall (R : Type) (df : frame R),
    Sorted (fun a b => a.1 <= b.1) (sort_index R df).

Theorem closing_difficulty_is_last_valid
    (block_data : list (@block_record cell)) :
  let table := calculate_hourly_closing_difficulty isna
                 (process_block_data sort_index block_data) in
  StronglySorted Z.lt (map fst table)
  /\ (forall label,
        label ∈ map fst table
        <-> exists h r1 r2,
              label = 3600 * h /\ r1 ∈ block_data /\ r2 ∈ block_data
              /\ hour_of (b_time r1) <= h <= hour_of (b_time r2))
  /\ (forall label v,
        (label, v) ∈ table ->
        match v with
        | Some d =>
            isna d = false
            /\ exists r,
                 r ∈ block_data /\ label <= b_time r < label + 3600
                 /\ b_difficulty r = d
                 /\ forall r', r' ∈ block_data ->
                      label <= b_time r' < label + 3600 ->
                      b_time r < b_time r' -> isna (b_difficulty r') = true
        | None =>
            forall r, r ∈ block_data -> label <= b_time r < label + 3600 ->
                      isna (b_difficulty r) = true
        end
        /\ (forall r,
              r ∈ block_data -> label <= b_time r < label + 3600 ->
              (forall r', r' ∈ block_data -> label <= b_time r' < label + 3600 ->
                          r' = r \/ b_time r' < b_time r) ->
              isna (b_difficulty r) = false ->
              v = Some (b_difficulty r))).
Proof.
  intros table.
  assert (Hlabels : map fst table
                    = map fst (resample_H (process_block_data sort_index block_data))).
  { subst table. unfold calculate_hourly_closing_difficulty.
    by rewrite map_map. }
  split; [|split].
  - rewrite Hlabels. apply resample_H_labels_sorted.
  - intros label. rewrite Hlabels, resample_H_labels.
    assert (Hdf : forall p, p ∈ process_block_data sort_index block_data
                    <-> exists r, r ∈ block_data /\ p = block_indexed r).
    { intros p. unfold process_block_data.
      rewrite (sort_index_perm _ _), list_elem_of_fmap.
      split; intros (r & ? & ?); by exists r. }
    split.
    + intros (h & p1 & p2 & -> & [r1 [Hr1 ->]]%Hdf & [r2 [Hr2 ->]]%Hdf & Hh).
      by exists h, r1, r2.
    + intros (h & r1 & r2 & -> & Hr1 & Hr2 & Hh).
      exists h, (block_indexed r1), (block_indexed r2).
      split; [done|]. split; [apply Hdf; by exists r1|].
      split; [apply Hdf; by exists r2|]. exact Hh.
  - intros label v Hrow.
    exact (closing_difficulty_of_row isna sort_index sort_index_perm
             sort_index_sorted block_data label v Hrow).
Qed.

End ClosingTable.

Lemma closing_difficulty_is_last_valid_witness :
  calculate_hourly_closing_difficulty demo_isna
    (process_block_data insertion_sort_index
       [demo_block 10 (Some 1); demo_block 20 None; demo_block 7300 (Some 4)])
  = [(0, Some (Some 1)); (3600, None); (7200, Some (Some 4))]
  /\ StronglySorted Z.lt
       (map fst
          (calculate_hourly_closing_difficulty demo_isna
             (process_block_data insertion_sort_index
                [demo_block 10 (Some 1); demo_block 20 None;
                 demo_block 7300 (Some 4)])))
  /\ (3600
       ∈ map fst
           (calculate_hourly_closing_difficulty demo_isna
              (process_block_data insertion_sort_index
                 [demo_block 10 (Some 1); demo_block 20 None;
                  demo_block 7300 (Some 4)]))
       <-> exists h r1 r2,
             3600 = 3600 * h
             /\ r1 ∈ [demo_block 10 (Some 1); demo_block 20 None;
                      demo_block 7300 (Some 4)]
             /\ r2 ∈ [demo_block 10 (Some 1); demo_block 20 None;
                      demo_block 7300 (Some 4)]
             /\ hour_of (b_time r1) <= h <= hour_of (b_time r2)).
Proof.
  split; [vm_compute; reflexivity|].
  destruct (closing_difficulty_is_last_valid demo_isna insertion_sort_index
              insertion_sort_index_perm insertion_sort_index_sorted
              [demo_block 10 (Some 1); demo_block 20 None;
               demo_block 7300 (Some 4)]) as (Hsorted & Hlabels & _).
  split; [exact Hsorted|exact (Hlabels 3600)].
Defined.

(** * Sums of 64-bit floats *)

(** ** Rounding a value that a float holds *)

Lemma digits2_pos_size (p : positive) : digits2_pos p = Pos.size p.
Proof. induction p as [p IH|p IH|]; simpl; by rewrite ?IH. Qed.

Lemma iter_xO_pow (m d : positive) :
  Zpos (Pos.iter xO m d) = Zpos m * 2 ^ Zpos d.
Proof.
  induction d as [|d IH] using Pos.peano_ind.
  - simpl. lia.
  - rewrite Pos.iter_succ, Pos2Z.inj_xO, IH, Pos2Z.inj_succ, Z.pow_succ_r by lia.
    lia.
Qed.

Lemma size_xO_iter (m d : positive) :
  Zpos (Pos.size (Pos.iter xO m d)) = Zpos (Pos.size m) + Zpos d.
Proof.
  induction d as [|d IH] using Pos.peano_ind.
  - simpl. lia.
  - rewrite Pos.iter_succ. simpl Pos.size. lia.
Qed.

Lemma iter_pos_iter {A : Type} (f : A -> A) (p : positive) (x : A) :
  iter_pos f p x = Pos.iter f x p.
Proof.
  revert x. induction p as [p IH|p IH|]; intros x; simpl; [|by rewrite !IH|done].
  rewrite !IH. by rewrite <- !Pos.iter_swap.
Qed.

Lemma shr_1_iter (M d : positive) :
  iter_pos shr_1 d
    {| shr_m := Zpos (Pos.iter xO M d); shr_r := false; shr_s := false |}
  = {| shr_m := Zpos M; shr_r := false; shr_s := false |}.
Proof.
  rewrite iter_pos_iter.
  induction d as [|d IH] using Pos.peano_ind; [done|].
  rewrite Pos.iter_succ_r. rewrite (Pos.iter_succ d positive xO M). exact IH.
Qed.

Lemma size_log2 (p : positive) : Zpos (Pos.size p) = Z.log2 (Zpos p) + 1.
Proof. destruct p; simpl; lia. Qed.

Lemma shr_fexp_canonical (M : positive) (t : Z) :
  fexp 53 1024 (Zpos (Pos.size M) + t) = t ->
  shr_fexp 53 1024 (Zpos M) t loc_Exact
  = ({| shr_m := Zpos M; shr_r := false; shr_s := false |}, t).
Proof.
  intros Ht. unfold shr_fexp. simpl Zdigits2. rewrite digits2_pos_size, Ht.
  by rewrite Z.sub_diag.
Qed.

Lemma binary_round_aux_canonical (s : bool) (M : positive) (t : Z) :
  fexp 53 1024 (Zpos (Pos.size M) + t) = t -> t <= 971 ->
  binary_round_aux 53 1024 s (Zpos M) t loc_Exact = S754_finite s M t.
Proof.
  intros Ht Hmax. unfold binary_round_aux.
  rewrite (shr_fexp_canonical M t Ht).
  cbn [shr_m loc_of_shr_record round_nearest_even].
  rewrite (shr_fexp_canonical M t Ht). cbn [shr_m].
  change (1024 - 53) with 971.
  by rewrite (proj2 (Z.leb_le t 971) Hmax).
Qed.

(** Rounding a value that a float of the format holds gives that float:
    [m * 2 ^ e] is the value of the float with the canonical mantissa [M] and
    exponent [t] (the values are compared after scaling by [2 ^ L]). *)
Lemma binary_round_exact (s : bool) (m M : positive) (e t L : Z) :
  - L <= e -> - L <= t ->
  fexp 53 1024 (Zpos (Pos.size M) + t) = t ->
  t <= 971 ->
  Zpos m * 2 ^ (e + L) = Zpos M * 2 ^ (t + L) ->
  binary_round 53 1024 s m e = S754_finite s M t.
Proof.
  intros He Ht Hcan Hmax Hval.
  assert (Hsize : Zpos (Pos.size m) + e = Zpos (Pos.size M) + t).
  { apply (f_equal Z.log2) in Hval.
    rewrite !Z.log2_mul_pow2 in Hval by lia. rewrite !size_log2. lia. }
  unfold binary_round. rewrite digits2_pos_size, Hsize, Hcan.
  unfold shl_align.
  destruct (Z.sub t e) as [|d|d] eqn:Hd.
  - assert (t = e) as -> by lia.
    apply Z.mul_cancel_r in Hval; [|apply Z.pow_nonzero; lia].
    injection Hval as ->. by apply binary_round_aux_canonical.
  - replace (t + L) with ((e + L) + Zpos d) in Hval by lia.
    rewrite (Z.pow_add_r 2 (e + L) (Zpos d)), (Z.mul_comm (2 ^ (e + L))), Z.mul_assoc in Hval by lia.
    apply Z.mul_cancel_r in Hval; [|apply Z.pow_nonzero; lia].
    rewrite <- iter_xO_pow in Hval. injection Hval as ->.
    unfold binary_round_aux, shr_fexp at 1. simpl Zdigits2.
    rewrite digits2_pos_size, Hsize, Hcan, Hd. unfold shr, shr_record_of_loc.
    rewrite shr_1_iter. cbn [shr_m loc_of_shr_record round_nearest_even].
    replace (e + Zpos d) with t by lia.
    rewrite (shr_fexp_canonical M t Hcan). cbn [shr_m].
    change (1024 - 53) with 971.
    by rewrite (proj2 (Z.leb_le t 971) Hmax).
  - replace (e + L) with ((t + L) + Zpos d) in Hval by lia.
    rewrite (Z.pow_add_r 2 (t + L) (Zpos d)), (Z.mul_comm (2 ^ (t + L))), Z.mul_assoc in Hval by lia.
    apply Z.mul_cancel_r in Hval; [|apply Z.pow_nonzero; lia].
    rewrite <- iter_xO_pow in Hval. injection Hval as <-.
    by apply binary_round_aux_canonical.
Qed.

(** A whole number of magnitude at most [2 ^ 53] is the value of a float. *)
Lemma whole_canonical (p : positive) :
  Zpos p <= 2 ^ 53 ->
  exists M t,
    -52 <= t <= 1
    /\ fexp 53 1024 (Zpos (Pos.size M) + t) = t
    /\ Zpos M * 2 ^ (t + 52) = Zpos p * 2 ^ 52.
Proof.
  intros Hp.
  assert (Hlog : 0 <= Z.log2 (Zpos p) <= 53).
  { split; [apply Z.log2_nonneg|].
    change 53 with (Z.log2 (2 ^ 53)). by apply Z.log2_le_mono. }
  destruct (Z_le_gt_dec (Z.log2 (Zpos p)) 52) as [Hle|Hgt].
  - set (t := Z.log2 (Zpos p) - 52).
    assert (Hpos : 0 < Zpos p * 2 ^ (- t)) by (apply Z.mul_pos_pos; [lia|apply Z.pow_pos_nonneg; lia]).
    exists (Z.to_pos (Zpos p * 2 ^ (- t))), t.
    rewrite size_log2, Z2Pos.id by done.
    rewrite Z.log2_mul_pow2 by lia.
    split; [lia|]. split.
    + unfold fexp, emin. lia.
    + rewrite <- Z.mul_assoc, <- Z.pow_add_r by lia. f_equal. f_equal. lia.
  - assert (Z.log2 (Zpos p) = 53) as Hl by lia.
    assert (Zpos p = 2 ^ 53) as Heq.
    { pose proof (Z.log2_spec (Zpos p) ltac:(lia)) as [Hlo _].
      rewrite Hl in Hlo. lia. }
    exists (Z.to_pos (2 ^ 52)), 1. rewrite Heq.
    split; [lia|]. split; reflexivity.
Qed.

(** Normalising [m * 2 ^ e] gives the float of the whole number [z] it is
    the value of, when [z] has a magnitude of at most [2 ^ 53]. *)
Lemma binary_normalize_whole (m e z : Z) :
  -52 <= e -> Z.abs z <= 2 ^ 53 ->
  m * 2 ^ (e + 52) = z * 2 ^ 52 ->
  binary_normalize 53 1024 m e false = f64_of_Z z.
Proof.
  intros He Hz Hval.
  assert (Hpow : 0 < 2 ^ (e + 52)) by (apply Z.pow_pos_nonneg; lia).
  assert (Hround : forall s (p q : positive),
    Zpos q <= 2 ^ 53 -> Zpos p * 2 ^ (e + 52) = Zpos q * 2 ^ 52 ->
    binary_round 53 1024 s p e = binary_round 53 1024 s q 0).
  { intros s p q Hq Hpq.
    destruct (whole_canonical q Hq) as (M & t & Ht & Hcan & HM).
    rewrite (binary_round_exact s p M e t 52), (binary_round_exact s q M 0 t 52);
      try done; lia. }
  unfold f64_of_Z.
  destruct z as [|q|q], m as [|p|p]; try (exfalso; nia); simpl.
  - done.
  - apply Hround; [simpl in Hz; lia|exact Hval].
  - apply Hround; [simpl in Hz; lia|].
    change (Zneg p) with (- Zpos p) in Hval.
    change (Zneg q) with (- Zpos q) in Hval. lia.
Qed.

Lemma f64_of_Z_0 : f64_of_Z 0 = f64_zero.
Proof. reflexivity. Qed.

(** The float of a whole number other than zero, of magnitude at most
    [2 ^ 53]. *)
Lemma f64_of_Z_finite (z : Z) :
  z <> 0 -> Z.abs z <= 2 ^ 53 ->
  exists M t,
    f64_of_Z z = S754_finite (z <? 0) M t
    /\ -52 <= t <= 1
    /\ Zpos M * 2 ^ (t + 52) = Z.abs z * 2 ^ 52.
Proof.
  intros Hz Hle.
  assert (Hpos : forall s (q : positive), Zpos q <= 2 ^ 53 ->
    exists M t, binary_round 53 1024 s q 0 = S754_finite s M t
      /\ -52 <= t <= 1 /\ Zpos M * 2 ^ (t + 52) = Zpos q * 2 ^ 52).
  { intros s q Hq. destruct (whole_canonical q Hq) as (M & t & Ht & Hcan & HM).
    exists M, t. split; [|done].
    apply (binary_round_exact s q M 0 t 52); try done; lia. }
  destruct z as [|q|q]; [done|..]; apply Hpos; simpl in Hle; lia.
Qed.

Lemma shl_align_fst (M : positive) (t ez : Z) :
  ez <= t -> Zpos (fst (shl_align M t ez)) = Zpos M * 2 ^ (t - ez).
Proof.
  intros Hle. unfold shl_align. destruct (Z.sub ez t) as [|d|d] eqn:Hd.
  - replace (t - ez) with 0 by lia. simpl. lia.
  - lia.
  - simpl. rewrite iter_xO_pow. do 2 f_equal. lia.
Qed.

(** Float addition is exact on whole numbers as long as the sum has a
    magnitude of at most [2 ^ 53]. *)
Lemma f64_add_whole (a b : Z) :
  Z.abs a <= 2 ^ 53 -> Z.abs b <= 2 ^ 53 -> Z.abs (a + b) <= 2 ^ 53 ->
  f64_add (f64_of_Z a) (f64_of_Z b) = f64_of_Z (a + b).
Proof.
  intros Ha Hb Hab.
  destruct (decide (a = 0)) as [->|Hna].
  { rewrite Z.add_0_l. change (f64_of_Z 0) with (S754_zero false).
    destruct (decide (b = 0)) as [->|Hnb]; [done|].
    destruct (f64_of_Z_finite b Hnb Hb) as (M & t & -> & _). done. }
  destruct (decide (b = 0)) as [->|Hnb].
  { rewrite Z.add_0_r. change (f64_of_Z 0) with (S754_zero false).
    destruct (f64_of_Z_finite a Hna Ha) as (M & t & -> & _). done. }
  destruct (f64_of_Z_finite a Hna Ha) as (Ma & ta & -> & Hta & HMa).
  destruct (f64_of_Z_finite b Hnb Hb) as (Mb & tb & -> & Htb & HMb).
  unfold f64_add, SFadd.
  apply binary_normalize_whole; [lia|done|].
  rewrite !shl_align_fst by lia.
  rewrite Z.mul_add_distr_r, Z.mul_add_distr_r.
  assert (Hs : forall (s : Z) M t, Z.min ta tb <= t -> -52 <= Z.min ta tb ->
    Zpos M * 2 ^ (t + 52) = Z.abs s * 2 ^ 52 ->
    cond_Zopp (s <? 0) (Zpos M * 2 ^ (t - Z.min ta tb)) * 2 ^ (Z.min ta tb + 52)
    = s * 2 ^ 52).
  { intros s M t Hmin Hlow HM.
    assert (Hmag : Zpos M * 2 ^ (t - Z.min ta tb) * 2 ^ (Z.min ta tb + 52)
                   = Z.abs s * 2 ^ 52).
    { rewrite <- Z.mul_assoc, <- Z.pow_add_r by lia.
      replace (t - Z.min ta tb + (Z.min ta tb + 52)) with (t + 52) by lia.
      exact HM. }
    unfold cond_Zopp. destruct (Z.ltb_spec s 0); lia. }
  rewrite (Hs a Ma ta), (Hs b Mb tb) by (done || lia). done.
Qed.

(** ** Sums of whole numbers *)

Lemma total_Z_perm (l1 l2 : list Z) :
  Permutation l1 l2 -> total Z.add 0 l1 = total Z.add 0 l2.
Proof.
  unfold total.
  induction 1 as [|x l1 l2 _ IH|x y l|l1 l2 l3 _ IH1 _ IH2]; simpl; lia.
Qed.

Lemma total_abs_nonneg (values : list Z) :
  0 <= total Z.add 0 (Z.abs <$> values).
Proof.
  induction values as [|x l IH]; [done|].
  change (0 <= Z.abs x + total Z.add 0 (Z.abs <$> l)). lia.
Qed.

Lemma fold_add_whole (values : list Z) (acc : Z) :
  Z.abs acc + total Z.add 0 (Z.abs <$> values) <= 2 ^ 53 ->
  fold_left (fun a x => match x with Some v => f64_add a v | None => a end)
    (Some <$> (f64_of_Z <$> values)) (f64_of_Z acc)
  = f64_of_Z (acc + total Z.add 0 values).
Proof.
  revert acc. induction values as [|z values IH]; intros acc Hle.
  - simpl. by rewrite Z.add_0_r.
  - pose proof (total_abs_nonneg values) as H0.
    change (Z.abs acc + (Z.abs z + total Z.add 0 (Z.abs <$> values)) <= 2 ^ 53)
      in Hle.
    change (fold_left
              (fun a x => match x with Some v => f64_add a v | None => a end)
              (Some <$> (f64_of_Z <$> values))
              (f64_add (f64_of_Z acc) (f64_of_Z z))
            = f64_of_Z (acc + (z + total Z.add 0 values))).
    rewrite f64_add_whole by lia. rewrite IH by lia. f_equal. lia.
Qed.

(** The [sum] reducer is exact on whole numbers whose magnitudes add up to
    at most [2 ^ 53]: no addition rounds. *)
Lemma nansum_whole (column : list (option Z)) :
  total Z.add 0 (Z.abs <$> omap (fun x : option Z => x) column) <= 2 ^ 53 ->
  nansum f64_add f64_zero (map (fun x : option Z => f64_of_Z <$> x) column)
  = f64_of_Z (total Z.add 0 (omap (fun x : option Z => x) column)).
Proof.
  intros Hle. unfold nansum.
  rewrite <- (Z.add_0_l (total Z.add 0 (omap _ column))).
  rewrite <- (fold_add_whole (omap (fun x : option Z => x) column) 0)
    by (simpl; lia).
  change (f64_of_Z 0) with f64_zero. generalize f64_zero as acc.
  clear Hle. induction column as [|[z|] column IH]; intros acc; simpl; [done|..];
    apply IH.
Qed.

Lemma total_abs_sublist (l1 l2 : list Z) :
  sublist l1 l2 ->
  total Z.add 0 (Z.abs <$> l1) <= total Z.add 0 (Z.abs <$> l2).
Proof.
  induction 1 as [|x l1 l2 _ IH|x l1 l2 _ IH]; [done|..].
  - change (Z.abs x + total Z.add 0 (Z.abs <$> l1)
            <= Z.abs x + total Z.add 0 (Z.abs <$> l2)). lia.
  - change (total Z.add 0 (Z.abs <$> l1)
            <= Z.abs x + total Z.add 0 (Z.abs <$> l2)). lia.
Qed.

Lemma abs_total_le (l : list Z) :
  Z.abs (total Z.add 0 l) <= total Z.add 0 (Z.abs <$> l).
Proof.
  induction l as [|x l IH]; [done|].
  change (Z.abs (x + total Z.add 0 l)
          <= Z.abs x + total Z.add 0 (Z.abs <$> l)). lia.
Qed.

Lemma total_Z_app (l1 l2 : list Z) :
  total Z.add 0 (l1 ++ l2) = total Z.add 0 l1 + total Z.add 0 l2.
Proof.
  induction l1 as [|x l1 IH]; [done|].
  change (x + total Z.add 0 (l1 ++ l2)
          = x + total Z.add 0 l1 + total Z.add 0 l2). lia.
Qed.

(** Adding up floats of whole numbers is exact as long as the magnitudes
    add up to at most [2 ^ 53]. *)
Lemma total_whole (values : list Z) :
  total Z.add 0 (Z.abs <$> values) <= 2 ^ 53 ->
  total f64_add f64_zero (f64_of_Z <$> values)
  = f64_of_Z (total Z.add 0 values).
Proof.
  induction values as [|z values IH]; [done|]. intros Hle.
  pose proof (total_abs_nonneg values) as H0.
  pose proof (abs_total_le values) as H1.
  change (Z.abs z + total Z.add 0 (Z.abs <$> values) <= 2 ^ 53) in Hle.
  change (f64_add (f64_of_Z z) (total f64_add f64_zero (f64_of_Z <$> values))
          = f64_of_Z (z + total Z.add 0 values)).
  rewrite IH by lia. apply f64_add_whole; lia.
Qed.

Section FloatSums.

Context {cell : Type}.
Variable to_numeric : cell -> option spec_float.
Variable sort_index : forall R : Type, frame R -> frame R.
(** The whole number that a cell holds, for the cells that hold one. *)
Variable whole : cell -> option Z.

Hypothesis sort_index_perm :
  forall (R : Type) (df : frame R), Permutation (sort_index R df) df.

(** The sum of a column of whole numbers, over rows in any order. *)
Lemma nansum_whole_rows {X : Type} (f : X -> cell) (rows rows' : list X) :
  Permutation rows rows' ->
  (forall r, r ∈ rows' -> to_numeric (f r) = f64_of_Z <$> whole (f r)) ->
  total Z.add 0 (Z.abs <$> omap (fun r => whole (f r)) rows') <= 2 ^ 53 ->
  nansum f64_add f64_zero (map (fun r => to_numeric (f r)) rows)
  = f64_of_Z (total Z.add 0 (omap (fun r => whole (f r)) rows')).
Proof.
  intros Hperm Hnum Hle.
  assert (Hcol : map (fun r => to_numeric (f r)) rows
                 = map (fun x : option Z => f64_of_Z <$> x)
                     (map (fun r => whole (f r)) rows)).
  { rewrite map_map. apply map_ext_in. intros r Hr%list_elem_of_In.
    apply Hnum. by rewrite <- Hperm. }
  assert (Hid : forall l : list X,
            omap (fun x : option Z => x) (map (fun r => whole (f r)) l)
            = omap (fun r => whole (f r)) l).
  { intros l. induction l as [|r l IH]; [done|].
    cbn. destruct (whole (f r)); cbn; by rewrite IH. }
  rewrite Hcol, nansum_whole; rewrite Hid.
  - f_equal. apply total_Z_perm.
    by apply omap_Permutation.
  - rewrite (total_Z_perm _
               (Z.abs <$> omap (fun r => whole (f r)) rows')); [done|].
    by apply fmap_Permutation, omap_Permutation.
Qed.

(** C2.  For every non-empty set of transaction records whose timestamps all
    lie in the hour that starts at [label], and whose numeric [sends] and
    [fee] values are whole numbers with magnitudes that add up to at most
    [2 ^ 53], the aggregation of the processed frame has that single bucket,
    with [hourly_volume] the sum of the numeric [sends] values and
    [hourly_fees] the sum of the numeric [fee] values, as floats; a value
    that [to_numeric] coerces to missing is left out of the sum. *)
Theorem hourly_volume_and_fees_sum_one_hour
    (transaction_data : list (@transaction_record cell)) (label : Z) :
  transaction_data <> [] ->
  (3600 | label) ->
  (forall r, r ∈ transaction_data -> label <= t_time r < label + 3600) ->
  (forall r, r ∈ transaction_data ->
     to_numeric (t_sends r) = f64_of_Z <$> whole (t_sends r)
     /\ to_numeric (t_fee r) = f64_of_Z <$> whole (t_fee r)) ->
  total Z.add 0 (Z.abs <$> omap (fun r => whole (t_sends r)) transaction_data)
    <= 2 ^ 53 ->
  total Z.add 0 (Z.abs <$> omap (fun r => whole (t_fee r)) transaction_data)
    <= 2 ^ 53 ->
  calculate_hourly_volume_and_fees to_numeric f64_add f64_zero
    (process_transaction_data sort_index transaction_data)
  = [(label,
      (f64_of_Z
         (total Z.add 0 (omap (fun r => whole (t_sends r)) transaction_data)),
       f64_of_Z
         (total Z.add 0 (omap (fun r => whole (t_fee r)) transaction_data))))].
Proof.
  intros Hne [h ->] Hwin Hwhole Hsends_le Hfee_le.
  unfold calculate_hourly_volume_and_fees, process_transaction_data.
  set (df := sort_index _ (map transaction_indexed transaction_data)).
  assert (Hperm : Permutation df (map transaction_indexed transaction_data))
    by apply sort_index_perm.
  destruct (Permutation_map_inv _ _ Hperm) as (sorted & Hdf & Hsorted).
  assert (Hbin : resample_H df = [(3600 * h, map snd df)]).
  { apply resample_H_one_hour.
    - intros Hnil. rewrite Hnil in Hperm.
      apply Permutation_nil_l in Hperm.
      by destruct transaction_data.
    - rewrite Hperm. apply Forall_fmap, Forall_forall. intros r Hr. simpl.
      apply hour_of_interval. specialize (Hwin r Hr). lia. }
  rewrite Hbin. simpl. rewrite (Z.mul_comm 3600 h), Hdf, !map_map. simpl.
  symmetry in Hsorted.
  rewrite (nansum_whole_rows t_sends sorted transaction_data),
          (nansum_whole_rows t_fee sorted transaction_data);
    try done; intros r Hr; by apply Hwhole.
Qed.

End FloatSums.

Lemma hourly_volume_and_fees_sum_one_hour_witness :
  calculate_hourly_volume_and_fees (fun c : option Z => f64_of_Z <$> c)
    f64_add f64_zero
    (process_transaction_data insertion_sort_index
       [demo_transaction 3700 (Some 5) (Some 1);
        demo_transaction 3650 None (Some 2);
        demo_transaction 7199 (Some 7) None])
  = [(3600, (f64_of_Z 12, f64_of_Z 3))].
Proof.
  apply (hourly_volume_and_fees_sum_one_hour
           (fun c : option Z => f64_of_Z <$> c) insertion_sort_index
           (fun c : option Z => c) insertion_sort_index_perm
           [demo_transaction 3700 (Some 5) (Some 1);
            demo_transaction 3650 None (Some 2);
            demo_transaction 7199 (Some 7) None] 3600).
  - discriminate.
  - exists 1. reflexivity.
  - intros r Hr. repeat (apply elem_of_cons in Hr as [->|Hr]; [simpl; lia|]).
    by apply elem_of_nil in Hr.
  - intros r Hr. by split.
  - vm_compute. intros H; discriminate H.
  - vm_compute. intros H; discriminate H.
Defined.

(** C2, as the specification words it, fails: of three records of one hour
    that send 0.1, 0.2 and 0.3, the bucket's volume is the float
    0.6000000000000001, which is not the sum of the three values. *)
Lemma hourly_volume_rounds_counterexample :
  ~ hourly_sums_are_exact (fun c : option spec_float => c)
      insertion_sort_index
      [float_transaction 3700 (Some tenth) None;
       float_transaction 3800 (Some fifth) None;
       float_transaction 3900 (Some three_tenths) None] 3600.
Proof.
  intros (volume & fees & Htable & Hvolume & _).
  vm_compute in Htable. injection Htable as <- _.
  vm_compute in Hvolume. discriminate Hvolume.
Qed.

Lemma total_Z_join (ls : list (list Z)) :
  total Z.add 0 (mjoin ls) = total Z.add 0 (total Z.add 0 <$> ls).
Proof.
  induction ls as [|l ls IH]; [done|].
  change (total Z.add 0 (l ++ mjoin ls)
          = total Z.add 0 l + total Z.add 0 (total Z.add 0 <$> ls)).
  rewrite total_Z_app. lia.
Qed.

Lemma total_abs_join (ls : list (list Z)) :
  total Z.add 0 (Z.abs <$> (total Z.add 0 <$> ls))
  <= total Z.add 0 (Z.abs <$> mjoin ls).
Proof.
  induction ls as [|l ls IH]; [done|].
  change (Z.abs (total Z.add 0 l)
          + total Z.add 0 (Z.abs <$> (total Z.add 0 <$> ls))
          <= total Z.add 0 (Z.abs <$> (l ++ mjoin ls))).
  rewrite fmap_app, total_Z_app. pose proof (abs_total_le l). lia.
Qed.

Lemma omap_join {A B : Type} (f : A -> option B) (ls : list (list A)) :
  omap f (mjoin ls) = mjoin (omap f <$> ls).
Proof.
  induction ls as [|l ls IH]; [done|]. simpl. by rewrite omap_app, IH.
Qed.

Lemma sublist_omap {A B : Type} (f : A -> option B) (l1 l2 : list A) :
  sublist l1 l2 -> sublist (omap f l1) (omap f l2).
Proof.
  induction 1 as [|x l1 l2 _ IH|x l1 l2 _ IH]; [done|..]; cbn;
    destruct (f x); cbn; try done; by constructor.
Qed.

Lemma Forall2_impl_elem_of {A B : Type} (P Q : A -> B -> Prop)
    (l : list A) (k : list B) :
  Forall2 P l k ->
  (forall x y, x ∈ l -> y ∈ k -> P x y -> Q x y) ->
  Forall2 Q l k.
Proof.
  induction 1 as [|x y l k Hxy _ IH]; intros Himp; constructor.
  - apply Himp; [apply list_elem_of_here..|done].
  - apply IH. intros x' y' Hx' Hy'. apply Himp; by apply elem_of_cons; right.
Qed.

Section FloatConservation.

Context {cell : Type}.
Variable to_numeric : cell -> option spec_float.
Variable sort_index : forall R : Type, frame R -> frame R.
Variable whole : cell -> option Z.

Hypothesis sort_index_perm :
  forall (R : Type) (df : frame R), Permutation (sort_index R df) df.

(** The sums of the bins of a column of whole numbers. *)
Lemma nansum_whole_bins (g : @transaction_row cell -> cell)
    (df : frame (@transaction_row cell)) :
  (forall p, p ∈ df -> to_numeric (g p.2) = f64_of_Z <$> whole (g p.2)) ->
  total Z.add 0 (Z.abs <$> omap (fun p => whole (g p.2)) df) <= 2 ^ 53 ->
  map (fun bin : Z * list transaction_row =>
         nansum f64_add f64_zero (map (fun r => to_numeric (g r)) bin.2))
    (resample_H df)
  = map (fun bin : Z * list transaction_row =>
           f64_of_Z (total Z.add 0 (omap (fun r => whole (g r)) bin.2)))
      (resample_H df).
Proof.
  intros Hnum Hle. apply map_ext_in. intros [l rows] Hbin%list_elem_of_In.
  apply resample_H_bin in Hbin as [_ ->]. cbn [snd].
  set (F := filter (fun p : Z * transaction_row => l <= p.1 < l + 3600) df).
  assert (Hsub : sublist F df) by apply sublist_filter.
  apply (nansum_whole_rows to_numeric whole g (map snd F) (map snd F));
    [done|..].
  - intros r (p & -> & Hp)%list_elem_of_fmap. apply Hnum.
    by apply (elem_of_sublist _ _ _ Hp Hsub).
  - etrans; [|exact Hle]. apply total_abs_sublist.
    assert (Homap : forall d : frame transaction_row,
              omap (fun r => whole (g r)) (map snd d)
              = omap (fun p : Z * transaction_row => whole (g p.2)) d).
    { intros d. induction d as [|p d IH]; [done|].
      cbn. destruct (whole (g p.2)); cbn; by rewrite IH. }
    rewrite Homap. by apply sublist_omap.
Qed.

(** The hourly volumes (or fees) of whole numbers add up to the sum over the
    whole column. *)
Lemma hourly_column_adds_up (g : @transaction_row cell -> cell)
    (df : frame (@transaction_row cell)) :
  (forall p, p ∈ df -> to_numeric (g p.2) = f64_of_Z <$> whole (g p.2)) ->
  total Z.add 0 (Z.abs <$> omap (fun p => whole (g p.2)) df) <= 2 ^ 53 ->
  total f64_add f64_zero
    (map (fun bin : Z * list transaction_row =>
            nansum f64_add f64_zero (map (fun r => to_numeric (g r)) bin.2))
       (resample_H df))
  = f64_of_Z (total Z.add 0 (omap (fun p => whole (g p.2)) df)).
Proof.
  intros Hnum Hle. rewrite (nansum_whole_bins g df Hnum Hle).
  set (sums := map (fun rows => omap (fun r => whole (g r)) rows)
                 (map snd (resample_H df))).
  assert (Hjoin : Permutation (mjoin sums)
                    (omap (fun p : Z * transaction_row => whole (g p.2)) df)).
  { subst sums. change (map ?f ?l) with (f <$> l).
    rewrite <- omap_join, (resample_H_partition df).
    assert (Homap : forall d : frame transaction_row,
              omap (fun r => whole (g r)) (map snd d)
              = omap (fun p : Z * transaction_row => whole (g p.2)) d).
    { intros d. induction d as [|p d IH]; [done|].
      cbn. destruct (whole (g p.2)); cbn; by rewrite IH. }
    by rewrite Homap. }
  replace (map (fun bin : Z * list transaction_row =>
                  f64_of_Z (total Z.add 0 (omap (fun r => whole (g r)) bin.2)))
             (resample_H df))
    with (f64_of_Z <$> (total Z.add 0 <$> sums)).
  2:{ subst sums. change (map ?f ?l) with (f <$> l).
      rewrite <- !list_fmap_compose. done. }
  rewrite total_whole.
  - f_equal. rewrite <- total_Z_join.
    by apply total_Z_perm.
  - etrans; [apply total_abs_join|]. etrans; [|exact Hle].
    rewrite (total_Z_perm _
               (Z.abs <$> omap (fun p : Z * transaction_row => whole (g p.2)) df));
      [done|].
    by apply fmap_Permutation.
Qed.

(** X18.  [calculate_hourly_volume_and_fees] loses and adds nothing: for a
    frame whose numeric [sends] and [fee] values are whole numbers with
    magnitudes that add up to at most [2 ^ 53], the hourly volumes add up to
    the sum of the numeric [sends] of all the rows of the frame, and the
    hourly fees to the sum of their numeric [fee]. *)
Theorem hourly_volume_and_fees_add_up
    (df : frame (@transaction_row cell)) :
  (forall p, p ∈ df ->
     to_numeric (sends p.2) = f64_of_Z <$> whole (sends p.2)
     /\ to_numeric (fee p.2) = f64_of_Z <$> whole (fee p.2)) ->
  total Z.add 0 (Z.abs <$> omap (fun p => whole (sends p.2)) df) <= 2 ^ 53 ->
  total Z.add 0 (Z.abs <$> omap (fun p => whole (fee p.2)) df) <= 2 ^ 53 ->
  let hourly := calculate_hourly_volume_and_fees to_numeric f64_add f64_zero df in
  total f64_add f64_zero (map (fun r => r.2.1) hourly)
  = f64_of_Z (total Z.add 0 (omap (fun p => whole (sends p.2)) df))
  /\ total f64_add f64_zero (map (fun r => r.2.2) hourly)
     = f64_of_Z (total Z.add 0 (omap (fun p => whole (fee p.2)) df)).
Proof.
  intros Hwhole Hsends Hfee hourly. subst hourly.
  unfold calculate_hourly_volume_and_fees. rewrite !map_map. simpl.
  split.
  - apply (hourly_column_adds_up sends df); [|done].
    intros p Hp. by apply Hwhole.
  - apply (hourly_column_adds_up fee df); [|done].
    intros p Hp. by apply Hwhole.
Qed.

(** X19.  The hourly volume, fees and counts do not depend on the order of
    the records in the data: two data sets with the same records, in any
    order (the fetcher gives them in completion order), are aggregated to the
    same tables, when the numeric [sends] and [fee] values are whole numbers
    with magnitudes that add up to at most [2 ^ 53]; the counts are the same
    whatever the values. *)
Theorem hourly_aggregates_ignore_record_order
    (transaction_data transaction_data' : list (@transaction_record cell)) :
  Permutation transaction_data transaction_data' ->
  calculate_transactions_per_hour
    (process_transaction_data sort_index transaction_data)
  = calculate_transactions_per_hour
      (process_transaction_data sort_index transaction_data')
  /\ ((forall r, r ∈ transaction_data ->
         to_numeric (t_sends r) = f64_of_Z <$> whole (t_sends r)
         /\ to_numeric (t_fee r) = f64_of_Z <$> whole (t_fee r)) ->
      total Z.add 0
        (Z.abs <$> omap (fun r => whole (t_sends r)) transaction_data)
        <= 2 ^ 53 ->
      total Z.add 0
        (Z.abs <$> omap (fun r => whole (t_fee r)) transaction_data)
        <= 2 ^ 53 ->
      calculate_hourly_volume_and_fees to_numeric f64_add f64_zero
        (process_transaction_data sort_index transaction_data)
      = calculate_hourly_volume_and_fees to_numeric f64_add f64_zero
          (process_transaction_data sort_index transaction_data')).
Proof.
  intros Hperm.
  unfold calculate_hourly_volume_and_fees, calculate_transactions_per_hour,
    process_transaction_data.
  set (df := sort_index _ (map transaction_indexed transaction_data)).
  set (df' := sort_index _ (map transaction_indexed transaction_data')).
  assert (Hdf : Permutation df (map transaction_indexed transaction_data))
    by apply sort_index_perm.
  assert (Hdf' : Permutation df' df).
  { subst df df'. by rewrite !sort_index_perm, Hperm. }
  pose proof (resample_H_perm df df' (symmetry Hdf')) as Hbins.
  split.
  - induction Hbins as [|b b' bs bs' [Hl Hrows] _ IH]; [done|].
    simpl. rewrite IH, Hl. do 2 f_equal. by apply Permutation_length.
  - intros Hwhole Hsends Hfee.
    assert (Hcol : forall (g : @transaction_row cell -> cell)
                          (g' : @transaction_record cell -> cell),
      (forall r, g (transaction_indexed r).2 = g' r) ->
      (forall r, r ∈ transaction_data ->
         to_numeric (g' r) = f64_of_Z <$> whole (g' r)) ->
      total Z.add 0 (Z.abs <$> omap (fun r => whole (g' r)) transaction_data)
        <= 2 ^ 53 ->
      forall d : frame (@transaction_row cell), Permutation d df ->
        (forall p, p ∈ d -> to_numeric (g p.2) = f64_of_Z <$> whole (g p.2))
        /\ total Z.add 0 (Z.abs <$> omap (fun p => whole (g p.2)) d) <= 2 ^ 53).
    { intros g g' Hg Hnum Hle d Hd. rewrite Hdf in Hd. split.
      - intros p Hp. rewrite Hd in Hp.
        apply list_elem_of_fmap in Hp as (r & -> & Hr).
        rewrite Hg. by apply Hnum.
      - etrans; [|exact Hle].
        rewrite (total_Z_perm _
                   (Z.abs <$> omap (fun r => whole (g' r)) transaction_data));
          [done|].
        apply fmap_Permutation. rewrite Hd. clear -Hg.
        induction transaction_data as [|r l IH]; [done|].
        cbn. pose proof (Hg r) as Hr. cbn in Hr. rewrite Hr.
        destruct (whole (g' r)); cbn; by rewrite IH. }
    assert (Hsum : forall (g : @transaction_row cell -> cell)
                          (g' : @transaction_record cell -> cell),
      (forall r, g (transaction_indexed r).2 = g' r) ->
      (forall r, r ∈ transaction_data ->
         to_numeric (g' r) = f64_of_Z <$> whole (g' r)) ->
      total Z.add 0 (Z.abs <$> omap (fun r => whole (g' r)) transaction_data)
        <= 2 ^ 53 ->
      Forall2 (fun b b' : Z * list transaction_row =>
                 nansum f64_add f64_zero (map (fun r => to_numeric (g r)) b.2)
                 = nansum f64_add f64_zero (map (fun r => to_numeric (g r)) b'.2))
        (resample_H df) (resample_H df')).
    { intros g g' Hg Hnum Hle.
      destruct (Hcol g g' Hg Hnum Hle df' Hdf') as [Hnum' Hle'].
      eapply Forall2_impl_elem_of; [exact Hbins|].
      intros [l rows] [l' rows'] _ Hin' [_ Hrows]. cbn [snd] in *.
      apply resample_H_bin in Hin' as [_ Hrows'].
      set (F := filter (fun p : Z * transaction_row => l' <= p.1 < l' + 3600) df')
        in Hrows'.
      assert (Hsub : sublist F df') by apply sublist_filter.
      assert (Hr' : forall r, r ∈ rows' ->
                to_numeric (g r) = f64_of_Z <$> whole (g r)).
      { intros r. rewrite Hrows'. intros (p & -> & Hp)%list_elem_of_fmap.
        apply Hnum'. by apply (elem_of_sublist _ _ _ Hp Hsub). }
      assert (Hb' : total Z.add 0 (Z.abs <$> omap (fun r => whole (g r)) rows')
                    <= 2 ^ 53).
      { etrans; [|exact Hle']. apply total_abs_sublist. rewrite Hrows'.
        assert (Homap : forall d : frame transaction_row,
                  omap (fun r => whole (g r)) (map snd d)
                  = omap (fun p : Z * transaction_row => whole (g p.2)) d).
        { intros d. induction d as [|p d IH]; [done|].
          cbn. destruct (whole (g p.2)); cbn; by rewrite IH. }
        rewrite Homap. by apply sublist_omap. }
      rewrite (nansum_whole_rows to_numeric whole g rows rows' Hrows Hr' Hb').
      by rewrite (nansum_whole_rows to_numeric whole g rows' rows'). }
    pose proof (Hsum sends t_sends (fun r => eq_refl)
                  (fun r Hr => proj1 (Hwhole r Hr)) Hsends) as Hs.
    pose proof (Hsum fee t_fee (fun r => eq_refl)
                  (fun r Hr => proj2 (Hwhole r Hr)) Hfee) as Hf.
    clear -Hbins Hs Hf.
    induction Hbins as [|b b' bs bs' [Hl Hrows] _ IH]; [done|].
    apply Forall2_cons_1 in Hs as [Hs1 Hs], Hf as [Hf1 Hf].
    simpl. rewrite (IH Hs Hf), Hl, Hs1, Hf1. done.
Qed.

End FloatConservation.

Lemma hourly_volume_and_fees_add_up_witness :
  total f64_add f64_zero
    (map (fun r => r.2.1)
       (calculate_hourly_volume_and_fees (fun c : option Z => f64_of_Z <$> c)
          f64_add f64_zero
          (process_transaction_data insertion_sort_index
             [demo_transaction 3700 (Some 5) (Some 1);
              demo_transaction 20000 None (Some 2);
              demo_transaction 7300 (Some 7) None])))
  = f64_of_Z 12.
Proof.
  destruct (hourly_volume_and_fees_add_up
              (fun c : option Z => f64_of_Z <$> c) (fun c : option Z => c)
              (process_transaction_data insertion_sort_index
                 [demo_transaction 3700 (Some 5) (Some 1);
                  demo_transaction 20000 None (Some 2);
                  demo_transaction 7300 (Some 7) None]))
    as [Hvolume _].
  - intros p Hp. by split.
  - vm_compute. intros H; discriminate H.
  - vm_compute. intros H; discriminate H.
  - exact Hvolume.
Defined.

Lemma hourly_aggregates_ignore_record_order_witness :
  calculate_hourly_volume_and_fees (fun c : option Z => f64_of_Z <$> c)
    f64_add f64_zero
    (process_transaction_data insertion_sort_index
       [demo_transaction 3700 (Some 5) (Some 1);
        demo_transaction 3800 (Some 7) (Some 2)])
  = calculate_hourly_volume_and_fees (fun c : option Z => f64_of_Z <$> c)
      f64_add f64_zero
      (process_transaction_data insertion_sort_index
         [demo_transaction 3800 (Some 7) (Some 2);
          demo_transaction 3700 (Some 5) (Some 1)]).
Proof.
  destruct (hourly_aggregates_ignore_record_order
              (fun c : option Z => f64_of_Z <$> c) insertion_sort_index
              (fun c : option Z => c) insertion_sort_index_perm
              [demo_transaction 3700 (Some 5) (Some 1);
               demo_transaction 3800 (Some 7) (Some 2)]
              [demo_transaction 3800 (Some 7) (Some 2);
               demo_transaction 3700 (Some 5) (Some 1)]
              (perm_swap _ _ _)) as [_ Hsums].
  apply Hsums.
  - intros r Hr. by split.
  - vm_compute. intros H; discriminate H.
  - vm_compute. intros H; discriminate H.
Defined.

(** X20.  An hour without any record, between the hours of two records, is
    not left out: it has a row in each hourly table, with a volume and fees
    of zero, a count of zero, and a missing closing difficulty. *)
Theorem hours_without_records_are_reported {cell num : Type}
    (to_numeric : cell -> option num) (add : num -> num -> num) (zero : num)
    (isna : cell -> bool) (h : Z) :
  (forall (df : frame (@transaction_row cell)) p1 p2,
      p1 ∈ df -> p2 ∈ df -> hour_of p1.1 <= h <= hour_of p2.1 ->
      (forall p, p ∈ df -> hour_of p.1 <> h) ->
      (3600 * h, (zero, zero))
        ∈ calculate_hourly_volume_and_fees to_numeric add zero df
      /\ (3600 * h, 0%nat) ∈ calculate_transactions_per_hour df)
  /\ (forall (df : frame (@block_row cell)) p1 p2,
        p1 ∈ df -> p2 ∈ df -> hour_of p1.1 <= h <= hour_of p2.1 ->
        (forall p, p ∈ df -> hour_of p.1 <> h) ->
        (3600 * h, None) ∈ calculate_hourly_closing_difficulty isna df).
Proof.
  assert (Hempty : forall (R : Type) (df : frame R),
    (forall p, p ∈ df -> hour_of p.1 <> h) ->
    filter (fun p : Z * R => hour_of p.1 =? h) df = []).
  { intros R df Hnone. induction df as [|p df IH]; [done|].
    rewrite filter_cons, decide_False.
    - apply IH. intros q Hq. apply Hnone. by apply elem_of_cons; right.
    - intros Hp%Is_true_true%Z.eqb_eq. revert Hp. apply Hnone.
      apply list_elem_of_here. }
  split.
  - intros df p1 p2 H1 H2 Hh Hnone.
    pose proof (resample_H_between df h p1 p2 H1 H2 Hh) as Hbin.
    rewrite (Hempty _ df Hnone) in Hbin.
    unfold calculate_hourly_volume_and_fees, calculate_transactions_per_hour.
    split; apply list_elem_of_fmap; exists (3600 * h, []); by split.
  - intros df p1 p2 H1 H2 Hh Hnone.
    pose proof (resample_H_between df h p1 p2 H1 H2 Hh) as Hbin.
    rewrite (Hempty _ df Hnone) in Hbin.
    unfold calculate_hourly_closing_difficulty.
    apply list_elem_of_fmap; exists (3600 * h, []); by split.
Qed.

Lemma hours_without_records_are_reported_witness :
  (7200, (0, 0))
    ∈ calculate_hourly_volume_and_fees (fun c : option Z => c) Z.add 0
        (process_transaction_data insertion_sort_index
           [demo_transaction 3700 (Some 5) (Some 1);
            demo_transaction 11000 (Some 7) None])
  /\ (7200, 0%nat)
       ∈ calculate_transactions_per_hour
           (process_transaction_data insertion_sort_index
              [demo_transaction 3700 (Some 5) (Some 1);
               demo_transaction 11000 (Some 7) None]).
Proof.
  destruct (hours_without_records_are_reported (fun c : option Z => c) Z.add 0
              demo_isna 2) as [Htransactions _].
  apply (Htransactions _
           (transaction_indexed (demo_transaction 3700 (Some 5) (Some 1)))
           (transaction_indexed (demo_transaction 11000 (Some 7) None))).
  - vm_compute. apply list_elem_of_here.
  - vm_compute. apply elem_of_cons; right. apply list_elem_of_here.
  - vm_compute. split; intros H; discriminate H.
  - intros p Hp. vm_compute in Hp.
    apply elem_of_cons in Hp as [->|Hp]; [vm_compute; discriminate|].
    apply list_elem_of_singleton in Hp as ->. vm_compute. discriminate.
Defined.

(** * The closing difficulty is determined when timestamps are distinct *)

Lemma sorted_by_distinct_times_unique {R : Type} (l1 l2 : frame R) :
  Sorted (fun a b => a.1 <= b.1) l1 ->
  Sorted (fun a b => a.1 <= b.1) l2 ->
  NoDup (map fst l1) ->
  Permutation l1 l2 ->
  l1 = l2.
Proof.
  intros Hs1 Hs2 Hnd Hperm.
  assert (Htrans : Transitive (fun a b : Z * R => a.1 <= b.1))
    by (intros a b c ??; simpl in *; lia).
  assert (Hstrict : forall l : frame R,
    Sorted (fun a b => a.1 <= b.1) l -> NoDup (map fst l) ->
    StronglySorted (fun a b : Z * R => a.1 < b.1) l).
  { intros l Hl%Sorted_StronglySorted; [|done].
    induction Hl as [|x l Hl IH Hx]; intros Hn; [constructor|].
    simpl in Hn. apply NoDup_cons in Hn as [Hx' Hn].
    constructor; [by apply IH|].
    rewrite Forall_forall in Hx |- *. intros y Hy.
    pose proof (Hx y Hy) as Hle.
    destruct (decide (x.1 = y.1)) as [Heq|Hne]; [|lia].
    exfalso. apply Hx'. rewrite Heq. apply list_elem_of_fmap. by exists y. }
  assert (AntiSymm (=) (fun a b : Z * R => a.1 < b.1))
    by (intros a b ??; lia).
  apply (StronglySorted_unique (fun a b : Z * R => a.1 < b.1));
    [by apply Hstrict| |done].
  apply Hstrict; [done|]. by rewrite <- Hperm.
Qed.

(** X21.  When the blocks have pairwise distinct timestamps, the processed
    block frame and the hourly closing difficulty do not depend on the order
    of the records in the data, whichever ascending sort is used. *)
Theorem closing_difficulty_ignores_record_order {cell : Type}
    (isna : cell -> bool) (sort_index : forall R : Type, frame R -> frame R)
    (block_data block_data' : list (@block_record cell)) :
  (forall (R : Type) (df : frame R), Permutation (sort_index R df) df) ->
  (forall (R : Type) (df : frame R),
      Sorted (fun a b => a.1 <= b.1) (sort_index R df)) ->
  NoDup (map b_time block_data) ->
  Permutation block_data block_data' ->
  process_block_data sort_index block_data
  = process_block_data sort_index block_data'
  /\ calculate_hourly_closing_difficulty isna
       (process_block_data sort_index block_data)
     = calculate_hourly_closing_difficulty isna
         (process_block_data sort_index block_data').
Proof.
  intros Hperm Hsorted Hnd Hdata.
  assert (Heq : process_block_data sort_index block_data
                = process_block_data sort_index block_data').
  { unfold process_block_data. apply sorted_by_distinct_times_unique.
    - apply Hsorted.
    - apply Hsorted.
    - rewrite (Hperm _ _), map_map. exact Hnd.
    - by rewrite !Hperm, Hdata. }
  split; [done|]. by rewrite Heq.
Qed.

Lemma closing_difficulty_ignores_record_order_witness :
  calculate_hourly_closing_difficulty demo_isna
    (process_block_data insertion_sort_index
       [demo_block 10 (Some 1); demo_block 20 (Some 2)])
  = calculate_hourly_closing_difficulty demo_isna
      (process_block_data insertion_sort_index
         [demo_block 20 (Some 2); demo_block 10 (Some 1)]).
Proof.
  destruct (closing_difficulty_ignores_record_order demo_isna
              insertion_sort_index
              [demo_block 10 (Some 1); demo_block 20 (Some 2)]
              [demo_block 20 (Some 2); demo_block 10 (Some 1)]
              insertion_sort_index_perm insertion_sort_index_sorted)
    as [_ Hclosing].
  - apply (bool_decide_unpack (NoDup _)). vm_compute. exact I.
  - apply perm_swap.
  - exact Hclosing.
Defined.

(** * More on persistence *)








(** * Facts about the two scripts *)

Lemma get_latest_n_blocks_no_height (E : env) (cli : NexaCLI) (n : Z)
    (p : option Z) (l : list event) (output : str) :
  run_command E cli (lit "getblockcount") = (l, Ok (Some output)) ->
  isdigit E output = false ->
  get_latest_n_blocks E cli n p
  = (l ++ [Printed (MsgFailedBlockCount output)], Ok []).
Proof.
  intros Hr Hd. unfold get_latest_n_blocks, get_latest_block_height.
  rewrite Hr. cbn. rewrite Hd. cbn. by rewrite app_nil_r.
Qed.

Lemma get_all_transactions_no_blocks (E : env) (cli : NexaCLI) (p : option Z) :
  (forall (A : Type) (l : list A), Permutation (as_completed E A l) l) ->
  pool_accepts E p = true ->
  get_all_transactions E cli [] p = ([Printed (MsgStartTransactions p)], Ok []).
Proof.
  intros Hperm Hp.
  rewrite (get_all_transactions_run E cli [] p [] eq_refl Hp).
  cbn [map flat_map length].
  by rewrite (proj1 (Permutation_nil_r _) (Hperm _ [])).
Qed.

(** X23.  A run of the fetch script whose height query fails (the client
    answers with something that is not a number) still saves: both files are
    overwritten with an empty array, whatever they held.  The processing
    script, run on the files left, reads both, finds them empty, and ends
    without processing or plotting anything. *)
Theorem fetch_main_without_height_empties_both_files (E : env)
    (from_dict : dict -> result DataFrame) {cell num : Type}
    (to_numeric : cell -> option num) (add : num -> num -> num) (zero : num)
    (isna : cell -> bool) (sort_index : forall R : Type, frame R -> frame R)
    (block_columns : json -> result (list (@block_record cell)))
    (transaction_columns : json -> result (list (@transaction_record cell)))
    (files : gmap string file) (l : list event) (output : str) :
  (forall (A : Type) (l : list A), Permutation (as_completed E A l) l) ->
  pool_accepts E (Some 8) = true ->
  run_command E main_cli (lit "getblockcount") = (l, Ok (Some output)) ->
  isdigit E output = false ->
  from_dict [] = Ok {| df_columns := []; df_rows := [] |} ->
  let emptied :=
    <[transactions_file := Document (JArr [])]>
      (<[blocks_file := Document (JArr [])]> files) in
  fetch_main E from_dict files
  = (map FetchEvent l
       ++ [FetchEvent (Printed (MsgFailedBlockCount output));
           PrintedBlocks {| df_columns := []; df_rows := [] |};
           FetchEvent (Printed (MsgSaved blocks_file));
           FetchEvent (Printed (MsgStartTransactions (Some 8)));
           FetchEvent (Printed (MsgSaved transactions_file))],
     emptied, Ok tt)
  /\ process_main to_numeric add zero isna sort_index block_columns
       transaction_columns emptied
     = ([ProcessEvent (Printed (MsgReadOk blocks_file));
         ProcessEvent (Printed (MsgReadOk transactions_file))],
        emptied, Ok tt).
Proof.
  intros Hperm Hp Hr Hd Hfrom emptied. split.
  - unfold fetch_main, call, step, show, writing, mbind, script_bind.
    rewrite (get_latest_n_blocks_no_height E main_cli 100 (Some 8) l output Hr Hd).
    cbn -[get_all_transactions main_cli]. rewrite Hfrom.
    cbn -[get_all_transactions main_cli].
    rewrite (get_all_transactions_no_blocks E main_cli (Some 8) Hperm Hp).
    unfold outcome, events. cbn. rewrite map_app, <- app_assoc. reflexivity.
  - unfold process_main, reading, read_json_file, emptied, mbind, script_bind.
    rewrite lookup_insert_ne by done. rewrite lookup_insert_eq.
    cbn -[blocks_file transactions_file].
    rewrite lookup_insert_eq. reflexivity.
Qed.

Lemma fetch_main_without_height_empties_both_files_witness :
  files_left (fetch_main (with_node demo_env (fun _ => Completed (lit "n/a") []))
                demo_from_dict ∅)
  = <[transactions_file := Document (JArr [])]>
      (<[blocks_file := Document (JArr [])]> ∅)
  /\ ended (process_main demo_to_numeric Z.add 0 demo_json_isna
              insertion_sort_index demo_block_columns demo_transaction_columns
              (<[transactions_file := Document (JArr [])]>
                 (<[blocks_file := Document (JArr [])]> ∅)))
     = Ok tt.
Proof.
  destruct (fetch_main_without_height_empties_both_files
              (with_node demo_env (fun _ => Completed (lit "n/a") []))
              demo_from_dict demo_to_numeric Z.add 0 demo_json_isna
              insertion_sort_index demo_block_columns demo_transaction_columns
              ∅ [] (lit "n/a")) as [Hfetch Hprocess].
  - apply demo_as_completed_perm.
  - reflexivity.
  - vm_compute. reflexivity.
  - vm_compute. reflexivity.
  - reflexivity.
  - split; [by rewrite Hfetch|by rewrite Hprocess].
Defined.

(** X24.  The fetch script saves the blocks before it fetches the
    transactions: when [get_all_transactions] raises, the script ends with
    that exception, the block file holds the new blocks and the transaction
    file is left as it was. *)
Theorem fetch_main_failed_lookup_leaves_blocks_saved (E : env)
    (from_dict : dict -> result DataFrame) (files : gmap string file)
    (blocks_dict : dict) (df_blocks : DataFrame) (doc : json) (e : exn) :
  outcome (get_latest_n_blocks E main_cli 100 (Some 8)) = Ok blocks_dict ->
  from_dict blocks_dict = Ok df_blocks ->
  to_json_records df_blocks = Ok doc ->
  outcome (get_all_transactions E main_cli blocks_dict (Some 8)) = Raise e ->
  let run := fetch_main E from_dict files in
  ended run = Raise e
  /\ files_left run = <[blocks_file := Document doc]> files
  /\ files_left run !! transactions_file = files !! transactions_file.
Proof.
  intros Hd Hfrom Hdoc He run.
  assert (Hrun : ended run = Raise e
                 /\ files_left run = <[blocks_file := Document doc]> files).
  { subst run.
    unfold fetch_main, call, step, show, writing, save_block_data, mbind,
      script_bind.
    rewrite Hd, Hfrom, Hdoc, He. by split. }
  destruct Hrun as [Hend Hfiles]. split; [done|]. split; [done|].
  rewrite Hfiles. by apply lookup_insert_ne.
Qed.

Lemma fetch_main_failed_lookup_leaves_blocks_saved_witness :
  ended (fetch_main (with_node demo_env silent_lookup_node) demo_from_dict ∅)
  = Raise TypeError
  /\ files_left (fetch_main (with_node demo_env silent_lookup_node)
                   demo_from_dict ∅) !! transactions_file
     = None.
Proof.
  edestruct (fetch_main_failed_lookup_leaves_blocks_saved
               (with_node demo_env silent_lookup_node) demo_from_dict ∅)
    as (Hend & _ & Hkept).
  - vm_compute. reflexivity.
  - vm_compute. reflexivity.
  - vm_compute. reflexivity.
  - vm_compute. reflexivity.
  - split; [exact Hend|exact Hkept].
Defined.

(** X25.  The processing script cannot plot without block data: when the
    block file is missing, unreadable or holds an empty document while the
    transaction file holds data, the script processes and prints the
    transaction tables and then ends with [NameError], the closing difficulty
    it passes to [plot_time_series] having never been bound; nothing is
    plotted. *)
Theorem process_main_fails_without_block_data {cell num : Type}
    (to_numeric : cell -> option num) (add : num -> num -> num) (zero : num)
    (isna : cell -> bool) (sort_index : forall R : Type, frame R -> frame R)
    (block_columns : json -> result (list (@block_record cell)))
    (transaction_columns : json -> result (list (@transaction_record cell)))
    (files : gmap string file) (transaction_data : json)
    (records : list (@transaction_record cell)) :
  match files !! blocks_file with
  | Some (Document block_data) => truthy block_data = false
  | _ => True
  end ->
  files !! transactions_file = Some (Document transaction_data) ->
  truthy transaction_data = true ->
  transaction_columns transaction_data = Ok records ->
  let run :=
    process_main to_numeric add zero isna sort_index block_columns
      transaction_columns files in
  let df := process_transaction_data sort_index records in
  ended run = Raise NameError
  /\ files_left run = files
  /\ exists line,
       shown run
       = [ProcessEvent (Printed line);
          ProcessEvent (Printed (MsgReadOk transactions_file));
          PrintedHeading HeadingTransactions;
          PrintedTransactionFrame df;
          PrintedHeading HeadingAggregation;
          PrintedAggregation
            (calculate_hourly_volume_and_fees to_numeric add zero df);
          PrintedHeading HeadingPerHour;
          PrintedPerHour (calculate_transactions_per_hour df)].
Proof.
  intros Hblocks Htx Htruthy Hrecords run df. subst run df.
  unfold process_main, reading, read_json_file, step, show, mbind,
    script_bind.
  destruct (files !! blocks_file) as [[block_data|]|];
    cbn -[blocks_file transactions_file];
    rewrite ?Hblocks; cbn -[blocks_file transactions_file];
    rewrite Htx; cbn -[blocks_file transactions_file];
    rewrite Htruthy, Hrecords; cbn -[blocks_file transactions_file];
    (split; [done|]); (split; [done|]); by eexists.
Qed.

Lemma process_main_fails_without_block_data_witness :
  ended (process_main demo_to_numeric Z.add 0 demo_json_isna
           insertion_sort_index demo_block_columns demo_transaction_columns
           {[ transactions_file := Document demo_transactions_document ]})
  = Raise NameError.
Proof.
  edestruct (process_main_fails_without_block_data demo_to_numeric Z.add 0
               demo_json_isna insertion_sort_index demo_block_columns
               demo_transaction_columns
               {[ transactions_file := Document demo_transactions_document ]}
               demo_transactions_document)
    as (Hend & _).
  - rewrite lookup_singleton_ne by done. exact I.
  - apply lookup_singleton_eq.
  - reflexivity.
  - vm_compute. reflexivity.
  - exact Hend.
Defined.

(** X26.  With block data that loads, the processing script plots exactly
    when the transaction file holds data: the figure then shows the hourly
    volume and fees, the hourly counts and the hourly closing difficulty
    computed from the two files, and it is the last thing the script does;
    without transaction data the closing difficulty is printed and nothing
    is plotted. *)
Theorem process_main_plots_the_three_aggregates {cell num : Type}
    (to_numeric : cell -> option num) (add : num -> num -> num) (zero : num)
    (isna : cell -> bool) (sort_index : forall R : Type, frame R -> frame R)
    (block_columns : json -> result (list (@block_record cell)))
    (transaction_columns : json -> result (list (@transaction_record cell)))
    (files : gmap string file) (block_data : json)
    (block_records : list (@block_record cell)) :
  files !! blocks_file = Some (Document block_data) ->
  truthy block_data = true ->
  block_columns block_data = Ok block_records ->
  let run :=
    process_main to_numeric add zero isna sort_index block_columns
      transaction_columns files in
  let closing :=
    calculate_hourly_closing_difficulty isna
      (process_block_data sort_index block_records) in
  (forall transaction_data transaction_records,
      files !! transactions_file = Some (Document transaction_data) ->
      truthy transaction_data = true ->
      transaction_columns transaction_data = Ok transaction_records ->
      let df := process_transaction_data sort_index transaction_records in
      ended run = Ok tt
      /\ last (shown run)
         = Some (Plotted
                   (plot_time_series
                      (calculate_hourly_volume_and_fees to_numeric add zero df)
                      (calculate_transactions_per_hour df) closing)))
  /\ (match files !! transactions_file with
      | Some (Document transaction_data) => truthy transaction_data = false
      | _ => True
      end ->
      ended run = Ok tt
      /\ PrintedClosingDifficulty closing ∈ shown run
      /\ forall fig, Plotted fig ∉ shown run).
Proof.
  intros Hblocks Htruthy Hrecords run closing. subst run closing.
  unfold process_main, reading, read_json_file, step, show, mbind,
    script_bind.
  rewrite Hblocks. cbn -[blocks_file transactions_file].
  rewrite Htruthy, Hrecords. cbn -[blocks_file transactions_file].
  split.
  - intros transaction_data transaction_records Htx Ht Hr. rewrite Htx.
    cbn -[blocks_file transactions_file]. rewrite Ht, Hr. by split.
  - intros Htx.
    destruct (files !! transactions_file) as [[transaction_data|]|];
      cbn -[blocks_file transactions_file];
      rewrite ?Htx; cbn -[blocks_file transactions_file];
      (split; [done|]); (split; [set_solver|]);
      intros fig Hin; repeat (apply elem_of_cons in Hin as [Hin|Hin];
                              [discriminate Hin|]);
      by apply elem_of_nil in Hin.
Qed.

Lemma process_main_plots_the_three_aggregates_witness :
  ended (process_main demo_to_numeric Z.add 0 demo_json_isna
           insertion_sort_index demo_block_columns demo_transaction_columns
           {[ blocks_file := Document demo_blocks_document;
              transactions_file := Document demo_transactions_document ]})
  = Ok tt
  /\ last (shown (process_main demo_to_numeric Z.add 0 demo_json_isna
                    insertion_sort_index demo_block_columns
                    demo_transaction_columns
                    {[ blocks_file := Document demo_blocks_document;
                       transactions_file := Document demo_transactions_document ]}))
     = Some (Plotted {| volume_line := [(3600, 12)];
                        fees_line := [(3600, 3)];
                        count_bars := [(3600, 2%nat)];
                        difficulty_line := [(3600, Some (JInt 9))] |}).
Proof.
  edestruct (process_main_plots_the_three_aggregates demo_to_numeric Z.add 0
               demo_json_isna insertion_sort_index demo_block_columns
               demo_transaction_columns
               {[ blocks_file := Document demo_blocks_document;
                  transactions_file := Document demo_transactions_document ]}
               demo_blocks_document)
    as [Hplot _].
  - apply lookup_insert_eq.
  - reflexivity.
  - vm_compute. reflexivity.
  - edestruct (Hplot demo_transactions_document) as [Hend Hlast].
    + rewrite lookup_insert_ne by done. apply lookup_singleton_eq.
    + reflexivity.
    + vm_compute. reflexivity.
    + split; [exact Hend|exact Hlast].
Defined.

(** * Facts about the connection test *)

Lemma utf8_decode_ascii (bs : list N) :
  Forall (fun b => (b < 128)%N) bs -> utf8_decode bs = Some bs.
Proof.
  induction 1 as [|b bs Hb _ IH]; [done|].
  simpl. rewrite (proj2 (N.ltb_lt _ _) Hb), IH. done.
Qed.

Lemma utf8_decode_length (n : nat) :
  forall bs s, (length bs <= n)%nat -> utf8_decode bs = Some s ->
    (length s <= length bs)%nat /\ (bs <> [] -> s <> []).
Proof.
  induction n as [|n IH]; intros bs s Hn Hs.
  - destruct bs; [|simpl in Hn; lia]. by injection Hs as <-.
  - destruct bs as [|b0 r0]; [by injection Hs as <-|].
    assert (Hstep : forall c r, (length r < length (b0 :: r0))%nat ->
              cons c <$> utf8_decode r = Some s ->
              (length s <= length (b0 :: r0))%nat /\ (b0 :: r0 <> [] -> s <> [])).
    { intros c r Hr Hd. destruct (utf8_decode r) as [s'|] eqn:Hs'; [|done].
      injection Hd as <-. destruct (IH r s') as [Hl _]; [simpl in *; lia|done|].
      split; [simpl in *; lia|done]. }
    simpl in Hs.
    destruct (b0 <? 128)%N; [refine (Hstep _ r0 _ Hs); simpl; lia|].
    destruct ((194 <=? b0)%N && (b0 <=? 223)%N).
    { destruct r0 as [|b1 r1]; [done|].
      destruct (continuation b1); [|done].
      refine (Hstep _ r1 _ Hs); simpl; lia. }
    destruct ((224 <=? b0)%N && (b0 <=? 239)%N).
    { destruct r0 as [|b1 [|b2 r2]]; [done|done|].
      destruct (_ && _); [|done].
      refine (Hstep _ r2 _ Hs); simpl; lia. }
    destruct ((240 <=? b0)%N && (b0 <=? 244)%N); [|done].
    destruct r0 as [|b1 [|b2 [|b3 r3]]]; [done|done|done|].
    destruct (_ && _); [|done].
    refine (Hstep _ r3 _ Hs); simpl; lia.
Qed.

(** X27.  [run_shell_command], once the process has run: output made of
    ASCII bytes is returned as it is, character by character, without
    trimming; the empty string is returned only when the process wrote
    nothing; and the only exception is that of the decoder, on output that
    is not valid UTF-8, which the function does not catch. *)
Theorem run_shell_command_returns_the_text_written
    (popen : list str -> result bytes) (command : list str) (output : bytes) :
  popen command = Ok output ->
  (Forall (fun b => (Byte.to_N b < 128)%N) output ->
     run_shell_command popen command = Ok (map Byte.to_N output))
  /\ (forall s, run_shell_command popen command = Ok s ->
        (s = [] <-> output = []) /\ (length s <= length output)%nat)
  /\ (forall e, run_shell_command popen command = Raise e ->
        e = UnicodeDecodeError /\ output <> []).
Proof.
  intros Hp. unfold run_shell_command. rewrite Hp.
  destruct output as [|b output].
  - split; [done|]. split; [|done]. intros s [= <-]. by split.
  - unfold decode_utf8. split; [|split].
    + intros Hascii. rewrite utf8_decode_ascii; [done|]. by apply Forall_fmap.
    + intros s Hs.
      destruct (utf8_decode (map Byte.to_N (b :: output))) as [s'|] eqn:Hd;
        [|done].
      injection Hs as <-.
      destruct (utf8_decode_length _ _ s' (Nat.le_refl _) Hd) as [Hl Hne].
      rewrite length_map in Hl. split; [|done].
      split; [|done]. intros ->. by destruct Hne.
    + intros e.
      destruct (utf8_decode (map Byte.to_N (b :: output))); [done|].
      intros [= <-]. by split.
Qed.

Lemma run_shell_command_returns_the_text_written_witness :
  run_shell_command (fun _ => Ok [Byte.x6f; Byte.x6b; Byte.x0a]) [lit "help"]
  = Ok (lit "ok" ++ nl).
Proof.
  destruct (run_shell_command_returns_the_text_written
              (fun _ => Ok [Byte.x6f; Byte.x6b; Byte.x0a]) [lit "help"]
              [Byte.x6f; Byte.x6b; Byte.x0a] eq_refl) as [Hascii _].
  apply Hascii. repeat constructor.
Defined.

(** * One failed worker *)

Lemma blocks_loop_raise_origin (total i : Z) (completed : list (future dict))
    (d0 : dict) (e : exn) :
  outcome (blocks_loop total i completed d0) = Raise e ->
  e = IndexError \/ Raise e ∈ completed.
Proof.
  revert i d0. induction completed as [|fut rest IH]; intros i d0; [done|].
  rewrite blocks_loop_cons. destruct fut as [bd|e'].
  - rewrite (outcome_bind _ _ bd) by done.
    match goal with |- outcome (?m ≫= _) = _ -> _ =>
      destruct (outcome m) as [[]|e''] eqn:Hprog end.
    + rewrite (outcome_bind _ _ tt Hprog). intros [->|Hin]%IH; [by left|].
      right. by apply elem_of_cons; right.
    + rewrite (outcome_bind_raise _ _ e'' Hprog). intros [= <-]. left.
      revert Hprog. destruct (_ || _); [|done].
      unfold first_key. destruct (keys bd); [by intros [= <-]|done].
  - intros [= <-]. right. apply list_elem_of_here.
Qed.

(** X28.  One failed worker loses the whole batch: when the fetch of any
    requested height raises (a lookup whose process writes nothing is
    enough), [get_latest_n_blocks] returns no mapping, in any completion
    order; it ends with the exception of a failed fetch, or with the
    [IndexError] of a progress line. *)
Theorem get_latest_n_blocks_aborts_on_failed_worker (E : env)
    (cli : NexaCLI) (n H : Z) (p : option Z) (h : Z) (e : exn) :
  (forall (A : Type) (l : list A), Permutation (as_completed E A l) l) ->
  pool_accepts E p = true ->
  outcome (get_latest_block_height E cli) = Ok (Some H) ->
  let block_heights :=
    map (fun i => H - i) (range (if n >? H + 1 then H + 1 else n)) in
  h ∈ block_heights ->
  outcome (get_block_data E cli h) = Raise e ->
  exists e',
    outcome (get_latest_n_blocks E cli n p) = Raise e'
    /\ (e' = IndexError
        \/ exists h', h' ∈ block_heights
             /\ outcome (get_block_data E cli h') = Raise e').
Proof.
  intros Hperm Hp HH block_heights Hh He.
  rewrite (get_latest_n_blocks_run E cli n H p HH Hp). cbn [outcome snd].
  fold block_heights.
  set (completed := as_completed E _ _).
  assert (Hc : Permutation completed
                 (map (fun h => outcome (get_block_data E cli h)) block_heights))
    by apply Hperm.
  destruct (outcome (blocks_loop _ 0 completed [])) as [d|e'] eqn:Hloop.
  - exfalso. apply blocks_loop_all_returned in Hloop as [ds Hds].
    assert (Hin : Raise e ∈ completed).
    { rewrite Hc. apply list_elem_of_fmap. by exists h. }
    rewrite Hds in Hin. by apply list_elem_of_fmap in Hin as (? & ? & _).
  - exists e'. split; [done|].
    apply blocks_loop_raise_origin in Hloop as [->|Hin]; [by left|].
    right. rewrite Hc in Hin.
    apply list_elem_of_fmap in Hin as (h' & Hh' & Hin). by exists h'.
Qed.

Lemma get_latest_n_blocks_aborts_on_failed_worker_witness :
  exists e',
    outcome (get_latest_n_blocks (with_node demo_env mute_after_count)
               demo_cli 100 (Some 8)) = Raise e'.
Proof.
  destruct (get_latest_n_blocks_aborts_on_failed_worker
              (with_node demo_env mute_after_count) demo_cli 100 2 (Some 8)
              1 AttributeError) as (e' & He' & _).
  - apply demo_as_completed_perm.
  - reflexivity.
  - vm_compute. reflexivity.
  - apply elem_of_cons; right. apply list_elem_of_here.
  - vm_compute. reflexivity.
  - by exists e'.
Defined.
